(** * module-loader-tool: the loader orchestrator and its source compiler

    A shallow embedding of [compileSource] and of the class
    [ModuleLoaderTool] (caches, per-manifest load chain, bulk activation,
    manual definition), followed by the properties of the loader that are
    proved or refuted on it.

    JavaScript runs every callback to completion on one thread.  The
    embedding therefore has one transition per callback: a call of a public
    method, or the continuation that runs when a task the loader waits for
    (preprocessors, retrieval, postprocessors, host runner, [Promise.all])
    has settled.  The environment chooses which callback runs next and how
    the awaited task settled.  Callbacks chained without any change of the
    loader between them are one transition.

    Functions that the host hands to the loader (URL formatter, flattener,
    filters, dependency resolver, [start] entry points) are taken to
    return; the host runner and the hooks, whose outcome the loader reacts
    to, settle either way.  Of the hooks that the loader runs only the
    tasks they return matter to it; the processor registry at hand is
    embedded on its own, after the loader. *)

From stdpp Require Import gmap strings list pretty sorting.

Open Scope string_scope.
Open Scope list_scope.
Open Scope nat_scope.

(** ** Values of the host language *)

(** Error classes that occur in the loader ([./errors] and built-in ones). *)
Inductive ErrorClass :=
| Error
| TypeError
| SyntaxError
| LoadBundleError
| NoDependencyError
| CompileModuleError
| PostprocessorError.

(** A thrown value or a rejection reason.  JavaScript lets any value be
    thrown: [undefined] and [null] have no properties at all, an error
    object has a [message], [Other] is a value without a [message]
    property, and [Unreadable thrown] is a value whose [message] cannot be
    read or printed: a getter that throws, a symbol, an object that has no
    string form.  Reading and printing it throws [thrown]. *)
Inductive Thrown :=
| Undefined
| Null
| Err (class : ErrorClass) (message : string)
| Other
| Unreadable (thrown : Thrown).

Definition class_of (v : Thrown) : option ErrorClass :=
  match v with
  | Err c _ => Some c
  | _ => None
  end.

(** The double-quote character, used inside the messages of the loader. *)
Definition dq : string := String (Ascii.ascii_of_nat 34) EmptyString.

(** [`${v.message}`]: reading the property throws a [TypeError] on
    [undefined] and [null]; a missing property reads as [undefined] and
    prints as such; an unreadable message throws what reading it throws. *)
Definition message_of (v : Thrown) : Thrown + string :=
  match v with
  | Undefined => inl (Err TypeError "Cannot read property 'message' of undefined")
  | Null => inl (Err TypeError "Cannot read property 'message' of null")
  | Err _ msg => inr msg
  | Other => inr "undefined"
  | Unreadable thrown => inl thrown
  end.

(** ** Data model ([./interface]) *)

(** Modelled from the spec: the enumeration [ModuleLoadStrategy] of
    [./interface], which is not part of the sources at hand.  The loader
    names [BLOCK] and [IMMEDIATELY]; every other strategy is on demand. *)
Inductive ModuleLoadStrategy :=
| BLOCK
| IMMEDIATELY
| ON_DEMAND.

Global Instance ModuleLoadStrategy_eq_dec : EqDecision ModuleLoadStrategy.
Proof. solve_decision. Defined.

(** Modelled from the spec: [IBaseModuleManifest] of [./interface]: a
    [name] and a [loadStrategy]; [payload] stands for the free-form rest. *)
Record Manifest := {
  name : string;
  loadStrategy : ModuleLoadStrategy;
  payload : nat
}.

(** Modelled from the spec: [CompiledModule] of [./interface]: an object
    with an [exports] container, in which an optional [start] entry point
    may live.  The entry point is host code: it is identified by a number,
    every call of it is recorded, and a call of it is taken to return.
    [value] stands for everything else the module exports. *)
Record Exports := {
  start : option nat;
  value : nat
}.

(** The module object that [compileSource] returns. *)
Record CompiledModule := {
  exports : Exports
}.

(** What [require] hands to the compiled code: an object that the host
    gave as a dependency, or the value that the dependency map, a plain
    object, inherits under a name it was given nothing for. *)
Inductive Dependency :=
| Given (object : nat)
| Inherited (property : string).

(** The names under which every plain object finds a value it was never
    given: the properties of [Object.prototype].  All of these values are
    truthy. *)
Definition object_prototype_names : list string :=
  [ "constructor"; "hasOwnProperty"; "isPrototypeOf"; "propertyIsEnumerable";
    "toLocaleString"; "toString"; "valueOf"; "__proto__";
    "__defineGetter__"; "__defineSetter__"; "__lookupGetter__"; "__lookupSetter__" ].

(** ** compileSource *)

(** [eval(source)] runs the text with [require], [module] and [exports] in
    scope.  A source text is represented by what its evaluation does with
    them: it finishes having set [module.exports], it throws, or it calls
    [require] and goes on with the result, possibly inside a [try] of its
    own.  A text that does not parse is [Raise (Err SyntaxError _)]. *)
Inductive Source :=
| Finish (module_exports : Exports)
| Raise (v : Thrown)
| Require (name : string) (rest : option Dependency → Source)
| TryRequire (name : string) (rest : option Dependency → Source)
    (handler : Thrown → Source).

(** The [require] closure of [compileSource] (lines 87-105).  The result
    [None] is the value [undefined].  [dependencies[name]] finds what the
    map was given under the name and, failing that, what a plain object
    inherits under it, which is truthy, so that the resolver is not
    asked. *)
Definition require (dependencies : gmap string Dependency)
    (unknownResolver : option (string → option Dependency))
    (name : string) : Thrown + option Dependency :=
  match dependencies !! name with
  | Some dependency => inr (Some dependency)
  | None =>
    if bool_decide (name ∈ object_prototype_names) then inr (Some (Inherited name))
    else
      match unknownResolver with
      | Some resolver =>
        match resolver name with
        | None =>
          inl (Err NoDependencyError
                 ("Dependency " +:+ dq +:+ name +:+ dq +:+
                  " does not provided by core application"))
        | Some unknownDependency => inr (Some unknownDependency)
        end
      | None => inr None
      end
  end.

(** Evaluation of a source text against a [require] function. *)
Fixpoint eval (req : string → Thrown + option Dependency) (source : Source)
    : Thrown + Exports :=
  match source with
  | Finish e => inr e
  | Raise v => inl v
  | Require n rest =>
    match req n with
    | inl ex => inl ex
    | inr d => eval req (rest d)
    end
  | TryRequire n rest handler =>
    match req n with
    | inl ex => eval req (handler ex)
    | inr d => eval req (rest d)
    end
  end.

(** [compileSource] (lines 80-119): whatever [eval] throws is caught and
    thrown again as a [CompileModuleError] built from [ex.message]. *)
Definition compileSource (source : Source)
    (dependencies : gmap string Dependency)
    (unknownResolver : option (string → option Dependency))
    : Thrown + CompiledModule :=
  match eval (require dependencies unknownResolver) source with
  | inr e => inr {| exports := e |}
  | inl ex =>
    match message_of ex with
    | inl typeError => inl typeError
    | inr msg => inl (Err CompileModuleError ("Cant compile module: " +:+ msg))
    end
  end.

(** ** The state of a loader and of the tasks around it *)

(** Modelled from the spec: [IModuleLoaderEntrypoint] of [./interface]: the
    URL of the manifest list and an optional flattening function.  The
    parsed manifest document is taken as a list of manifests. *)
Record Entrypoint := {
  manifestUrl : string;
  flattener : option (list Manifest → list Manifest)
}.

(** Where the chain built at lines 286-304 stands while its task is
    pending: waiting for [runPreprocessors], for [fetchBundleSource], or
    for [runPostprocessors]. *)
Inductive Stage :=
| Preprocessing (manifest : Manifest) (serviceFileUrl : string)
| Fetching (manifest : Manifest)
| Postprocessing (manifest : Manifest) (compiledModule : CompiledModule).

Definition stage_manifest (s : Stage) : Manifest :=
  match s with
  | Preprocessing m _ => m
  | Fetching m => m
  | Postprocessing m _ => m
  end.

(** A task ([Promise<CompiledModule | void>]) returned by
    [loadBundleByManifest]; tasks are identified by their position in the
    heap [tasks].  [Resolved None] is a task resolved to [undefined]. *)
Inductive Task :=
| Loading (stage : Stage)
| Resolved (result : option CompiledModule)
| Rejected (reason : Thrown).

(** What the host runner given to [start] does when it is called: it throws,
    or it returns a value or a task, which settles later. *)
Inductive Runner :=
| RunnerThrows (v : Thrown)
| RunnerReturns.

(** Modelled from the spec: [runPreprocessors] and [runPostprocessors] of
    the processor registry, which are not among the sources at hand (the
    registry at hand has [runPreprocessor] and [runPostprocessor]).  Each
    returns a task; the hooks of the host decide how it settles: fulfilled,
    or rejected with any reason.  The task of the host runner settles the
    same way. *)
Inductive Settled :=
| Fulfilled
| Failed (reason : Thrown).

(** What [fetch] of a bundle came to: a response with its text, or a
    rejection of [fetch] or of [response.text()].  The platform rejects
    with a [TypeError] (network failure); the reason is left open here. *)
Inductive Fetched :=
| Response (status : nat) (text : Source)
| NetworkFailure (reason : Thrown).

(** The progress of one call of [init] or [start]. *)
Inductive Phase :=
| InitFetching (filterFn : option (Manifest → bool))
| InitListed
| StartQueued (runner : Runner)
| StartRunning
| BulkWaiting (loads : list nat)
| Completed
| Aborted.

(** What the loader does to the outside, in the order it does it. *)
Inductive Effect :=
| RunPreprocessors (bundle : string)
| FetchBundleSource (bundle url : string)
| CompileSource (bundle : string)
| RunPostprocessors (bundle : string)
| ConsoleError (text : string)
| StartExport (entry : nat)
| RunnerCalled (call : nat)
| RunnerFulfilled (call : nat)
| BulkLoad (call : nat) (strategy : ModuleLoadStrategy).

(** The fields of [ModuleLoaderTool] (lines 122-132), and with them the
    tasks it created ([tasks]), the calls of [init] and [start] under way
    ([calls]) and the effects so far ([effects]).  A field without
    initialiser is [undefined] until it is set: [None].
    [bundlesListStream] lists what the subject has emitted.  The objects
    used as maps ([dependencies], [bundlesCache], [loadersCache]) are the
    maps of the properties they were given; the names of bundles are taken
    to be other than [object_prototype_names], under which
    [loadBundleByManifest] and [manuallyDefineBundle] find an inherited
    value in the empty cache and take the name for loaded. *)
Record ModuleLoaderTool := {
  dependencies : gmap string Dependency;
  unknownDependencyResolver : option (string → option Dependency);
  urlFormatter : option (Manifest → string);
  entrypoint : option Entrypoint;
  bundlesList : option (list Manifest);
  bundlesListStream : list (list Manifest);
  bundlesCache : gmap string CompiledModule;
  loadersCache : gmap string nat;
  tasks : list Task;
  calls : list Phase;
  effects : list Effect
}.

Definition new : ModuleLoaderTool := {|
  dependencies := ∅;
  unknownDependencyResolver := None;
  urlFormatter := None;
  entrypoint := None;
  bundlesList := None;
  bundlesListStream := [[]];
  bundlesCache := ∅;
  loadersCache := ∅;
  tasks := [];
  calls := [];
  effects := []
|}.

Section updates.
Variable t : ModuleLoaderTool.

Definition with_dependencies d : ModuleLoaderTool :=
  {| dependencies := d;
     unknownDependencyResolver := unknownDependencyResolver t;
     urlFormatter := urlFormatter t; entrypoint := entrypoint t;
     bundlesList := bundlesList t; bundlesListStream := bundlesListStream t;
     bundlesCache := bundlesCache t; loadersCache := loadersCache t;
     tasks := tasks t; calls := calls t; effects := effects t |}.

Definition with_unknownDependencyResolver r : ModuleLoaderTool :=
  {| dependencies := dependencies t;
     unknownDependencyResolver := r;
     urlFormatter := urlFormatter t; entrypoint := entrypoint t;
     bundlesList := bundlesList t; bundlesListStream := bundlesListStream t;
     bundlesCache := bundlesCache t; loadersCache := loadersCache t;
     tasks := tasks t; calls := calls t; effects := effects t |}.

Definition with_urlFormatter f : ModuleLoaderTool :=
  {| dependencies := dependencies t;
     unknownDependencyResolver := unknownDependencyResolver t;
     urlFormatter := f; entrypoint := entrypoint t;
     bundlesList := bundlesList t; bundlesListStream := bundlesListStream t;
     bundlesCache := bundlesCache t; loadersCache := loadersCache t;
     tasks := tasks t; calls := calls t; effects := effects t |}.

Definition with_entrypoint e : ModuleLoaderTool :=
  {| dependencies := dependencies t;
     unknownDependencyResolver := unknownDependencyResolver t;
     urlFormatter := urlFormatter t; entrypoint := e;
     bundlesList := bundlesList t; bundlesListStream := bundlesListStream t;
     bundlesCache := bundlesCache t; loadersCache := loadersCache t;
     tasks := tasks t; calls := calls t; effects := effects t |}.

(** [setBundlesList] (lines 157-160). *)
Definition setBundlesList (list : list Manifest) : ModuleLoaderTool :=
  {| dependencies := dependencies t;
     unknownDependencyResolver := unknownDependencyResolver t;
     urlFormatter := urlFormatter t; entrypoint := entrypoint t;
     bundlesList := Some list;
     bundlesListStream := bundlesListStream t ++ [list];
     bundlesCache := bundlesCache t; loadersCache := loadersCache t;
     tasks := tasks t; calls := calls t; effects := effects t |}.

Definition with_bundlesCache c : ModuleLoaderTool :=
  {| dependencies := dependencies t;
     unknownDependencyResolver := unknownDependencyResolver t;
     urlFormatter := urlFormatter t; entrypoint := entrypoint t;
     bundlesList := bundlesList t; bundlesListStream := bundlesListStream t;
     bundlesCache := c; loadersCache := loadersCache t;
     tasks := tasks t; calls := calls t; effects := effects t |}.

Definition with_loadersCache c : ModuleLoaderTool :=
  {| dependencies := dependencies t;
     unknownDependencyResolver := unknownDependencyResolver t;
     urlFormatter := urlFormatter t; entrypoint := entrypoint t;
     bundlesList := bundlesList t; bundlesListStream := bundlesListStream t;
     bundlesCache := bundlesCache t; loadersCache := c;
     tasks := tasks t; calls := calls t; effects := effects t |}.

Definition with_tasks ts : ModuleLoaderTool :=
  {| dependencies := dependencies t;
     unknownDependencyResolver := unknownDependencyResolver t;
     urlFormatter := urlFormatter t; entrypoint := entrypoint t;
     bundlesList := bundlesList t; bundlesListStream := bundlesListStream t;
     bundlesCache := bundlesCache t; loadersCache := loadersCache t;
     tasks := ts; calls := calls t; effects := effects t |}.

Definition with_calls cs : ModuleLoaderTool :=
  {| dependencies := dependencies t;
     unknownDependencyResolver := unknownDependencyResolver t;
     urlFormatter := urlFormatter t; entrypoint := entrypoint t;
     bundlesList := bundlesList t; bundlesListStream := bundlesListStream t;
     bundlesCache := bundlesCache t; loadersCache := loadersCache t;
     tasks := tasks t; calls := cs; effects := effects t |}.

(** The effects [es] happen, in this order. *)
Definition emit (es : list Effect) : ModuleLoaderTool :=
  {| dependencies := dependencies t;
     unknownDependencyResolver := unknownDependencyResolver t;
     urlFormatter := urlFormatter t; entrypoint := entrypoint t;
     bundlesList := bundlesList t; bundlesListStream := bundlesListStream t;
     bundlesCache := bundlesCache t; loadersCache := loadersCache t;
     tasks := tasks t; calls := calls t; effects := effects t ++ es |}.
End updates.

(** ** Methods: state passing with exceptions *)

(** A method returns a value or throws, and leaves a new state either way. *)
Definition M (A : Type) : Type := ModuleLoaderTool → (Thrown + A) * ModuleLoaderTool.

Definition ret {A} (a : A) : M A := λ t, (inr a, t).
Definition throw {A} (v : Thrown) : M A := λ t, (inl v, t).
Definition bind {A B} (c : M A) (k : A → M B) : M B :=
  λ t, match c t with
       | (inr a, t') => k a t'
       | (inl v, t') => (inl v, t')
       end.

Notation "'do' x <- c ; k" := (bind c (λ x, k))
  (at level 10, x name, c at level 100, k at level 200).

(** [array.map(f)] for a method [f]: left to right, stopping at a throw. *)
Fixpoint map_calls {A B} (f : A → M B) (l : list A) : M (list B) :=
  match l with
  | [] => ret []
  | x :: l' => do y <- f x; do ys <- map_calls f l'; ret (y :: ys)
  end.

(** [startupCheck] (lines 134-142). *)
Definition startupCheck : M unit :=
  λ t, match urlFormatter t with
       | None => (inl (Err Error "urlFormatter is not defined"), t)
       | Some _ =>
         match entrypoint t with
         | None => (inl (Err Error "entrypoint is not defined"), t)
         | Some _ => (inr (), t)
         end
       end.

(** [isBundleLoaded] (lines 220-222): whether the cache has something
    truthy under the name, which is so for a cached module and for a name
    under which the cache, a plain object, inherits a value. *)
Definition isBundleLoaded (bundleName : string) (t : ModuleLoaderTool) : bool :=
  bool_decide (is_Some (bundlesCache t !! bundleName) ∨
               bundleName ∈ object_prototype_names).

(** A new task object; its identity is its position in the heap. *)
Definition new_task (task : Task) : M nat :=
  λ t, (inr (length (tasks t)), with_tasks t (tasks t ++ [task])).

(** [loadBundleByManifest] (lines 275-307), the part that runs at the call:
    the two cache checks, the URL, the call of [runPreprocessors] and the
    registration of the chained task in [loadersCache]. *)
Definition loadBundleByManifest (manifest : Manifest) : M nat :=
  λ t, match bundlesCache t !! name manifest with
       | Some cached => new_task (Resolved (Some cached)) t
       | None =>
         match loadersCache t !! name manifest with
         | Some loader => (inr loader, t)
         | None =>
           match urlFormatter t with
           | None => (inl (Err TypeError "this.urlFormatter is not a function"), t)
           | Some formatter =>
             let serviceFileUrl := formatter manifest in
             let loader := length (tasks t) in
             let t1 := emit t [RunPreprocessors (name manifest)] in
             let t2 := with_tasks t1
                         (tasks t1 ++ [Loading (Preprocessing manifest serviceFileUrl)]) in
             (inr loader,
              with_loadersCache t2 (<[name manifest := loader]> (loadersCache t2)))
           end
         end
       end.

(** The handler of the final [catch] (lines 300-304): what the task of the
    load becomes, after the effects of the handler. *)
Definition caught (manifest : Manifest) (error : Thrown) : list Effect * Task :=
  match message_of error with
  | inl typeError => ([], Rejected typeError)
  | inr msg =>
    ([ConsoleError ("Module: " +:+ name manifest +:+ ". Error: " +:+ msg)],
     Resolved None)
  end.

Definition settle (loader : nat) (outcome : list Effect * Task)
    (t : ModuleLoaderTool) : ModuleLoaderTool :=
  let t1 := emit t outcome.1 in
  with_tasks t1 (<[loader := outcome.2]> (tasks t1)).

(** The chain of a load after [runPreprocessors] has settled (line 288):
    on success the retrieval begins, a rejection goes to the final
    [catch]. *)
Definition then_preprocessors (loader : nat) (o : Settled)
    (t : ModuleLoaderTool) : ModuleLoaderTool :=
  match tasks t !! loader with
  | Some (Loading (Preprocessing manifest serviceFileUrl)) =>
    match o with
    | Fulfilled =>
      let t1 := emit t [FetchBundleSource (name manifest) serviceFileUrl] in
      with_tasks t1 (<[loader := Loading (Fetching manifest)]> (tasks t1))
    | Failed reason => settle loader (caught manifest reason) t
    end
  | _ => t
  end.

Definition InvalidHttpStatusStart : nat := 400.

(** [fetchBundleSource] (lines 70-78), once [fetch] has settled. *)
Definition fetchBundleSource (f : Fetched) : Thrown + Source :=
  match f with
  | NetworkFailure reason => inl reason
  | Response status text =>
    if bool_decide (InvalidHttpStatusStart ≤ status)
    then inl (Err LoadBundleError ("Cant load bundle, http error " +:+ pretty status))
    else inr text
  end.

(** The chain after the retrieval has settled (lines 289-299): compile,
    put the module in [bundlesCache], call [runPostprocessors]. *)
Definition then_fetched (loader : nat) (f : Fetched)
    (t : ModuleLoaderTool) : ModuleLoaderTool :=
  match tasks t !! loader with
  | Some (Loading (Fetching manifest)) =>
    match fetchBundleSource f with
    | inl error => settle loader (caught manifest error) t
    | inr source =>
      let t1 := emit t [CompileSource (name manifest)] in
      match compileSource source (dependencies t1) (unknownDependencyResolver t1) with
      | inl error => settle loader (caught manifest error) t1
      | inr compiledModule =>
        let t2 := with_bundlesCache t1
                    (<[name manifest := compiledModule]> (bundlesCache t1)) in
        let t3 := emit t2 [RunPostprocessors (name manifest)] in
        with_tasks t3
          (<[loader := Loading (Postprocessing manifest compiledModule)]> (tasks t3))
      end
    end
  | _ => t
  end.

(** The chain after [runPostprocessors] has settled (lines 293-304): the
    module on success; any rejection becomes a [PostprocessorError], which
    goes to the final [catch]. *)
Definition then_postprocessors (loader : nat) (o : Settled)
    (t : ModuleLoaderTool) : ModuleLoaderTool :=
  match tasks t !! loader with
  | Some (Loading (Postprocessing manifest compiledModule)) =>
    match o with
    | Fulfilled => settle loader ([], Resolved (Some compiledModule)) t
    | Failed _ =>
      settle loader (caught manifest (Err PostprocessorError "Postprocessor crashed")) t
    end
  | _ => t
  end.

(** [loadBundleByName] (lines 315-322). *)
Definition loadBundleByName (n : string) : M nat :=
  λ t, match bundlesList t with
       | None => (inl (Err TypeError "Cannot read property 'find' of undefined"), t)
       | Some list =>
         match find (λ m, bool_decide (name m = n)) list with
         | None =>
           (inl (Err Error ("Module with name " +:+ dq +:+ n +:+ dq +:+ " is not declared")), t)
         | Some manifest => loadBundleByManifest manifest t
         end
       end.

(** [manuallyDefineBundle] (lines 352-363). *)
Definition manuallyDefineBundle (manifest : Manifest) (bundle : CompiledModule) : M unit :=
  λ t, match bundlesList t with
       | None => (inl (Err TypeError "Cannot read property 'push' of undefined"), t)
       | Some list =>
         let t1 := setBundlesList t (list ++ [manifest]) in
         let t2 := match start (exports bundle) with
                   | Some entry => emit t1 [StartExport entry]
                   | None => t1
                   end in
         match bundlesCache t2 !! name manifest with
         | Some _ =>
           (inl (Err Error ("Manifest with name " +:+ dq +:+ name manifest +:+ dq +:+
                            " already defined, break;")), t2)
         | None =>
           (inr (), with_bundlesCache t2 (<[name manifest := bundle]> (bundlesCache t2)))
         end
       end.

(** ** Bulk activation *)

(** [bulkLoadBundles] (lines 144-155), the part that runs at the call: one
    [loadBundleByManifest] for each manifest that passes the filter.  The
    tasks it returns are then awaited with [Promise.all]. *)
Definition bulkLoadBundles (filterFn : Manifest → bool) : M (list nat) :=
  λ t, match bundlesList t with
       | None => (inl (Err TypeError "Cannot read property 'filter' of undefined"), t)
       | Some list => map_calls loadBundleByManifest (List.filter filterFn list) t
       end.

(** [Promise.all]: rejected as soon as one member is rejected, fulfilled
    with all the results once every member is fulfilled. *)
Definition rejection (ts : list Task) (loads : list nat) : option Thrown :=
  head (omap (λ p, match ts !! p with
                   | Some (Rejected r) => Some r
                   | _ => None
                   end) loads).

Definition fulfilments (ts : list Task) (loads : list nat)
    : option (list (option CompiledModule)) :=
  mapM (λ p, match ts !! p with
             | Some (Resolved v) => Some v
             | _ => None
             end) loads.

(** The [forEach] of lines 148-153: the [start] entry point of every
    module among the results is called, in order. *)
Definition start_exports (compiledBundles : list (option CompiledModule)) : list Effect :=
  omap (λ compiledBundle,
          match compiledBundle with
          | Some m =>
            match start (exports m) with
            | Some entry => Some (StartExport entry)
            | None => None
            end
          | None => None
          end) compiledBundles.

(** The callback given to [Promise.all(...).then] (lines 147-154). *)
Definition then_all (call : nat) (t : ModuleLoaderTool) : ModuleLoaderTool :=
  match calls t !! call with
  | Some (BulkWaiting loads) =>
    match rejection (tasks t) loads with
    | Some _ => with_calls t (<[call := Aborted]> (calls t))
    | None =>
      match fulfilments (tasks t) loads with
      | Some compiledBundles =>
        let t1 := emit t (start_exports compiledBundles) in
        with_calls t1 (<[call := Completed]> (calls t1))
      | None => t
      end
    end
  | _ => t
  end.

(** A callback of [init] or [start] that calls [bulkLoadBundles] with the
    filter [manifest.loadStrategy === strategy] (lines 251 and 266). *)
Definition bulk (call : nat) (strategy : ModuleLoadStrategy)
    (t : ModuleLoaderTool) : ModuleLoaderTool :=
  match bulkLoadBundles (λ m, bool_decide (loadStrategy m = strategy))
          (emit t [BulkLoad call strategy]) with
  | (inr loads, t') => with_calls t' (<[call := BulkWaiting loads]> (calls t'))
  | (inl _, t') => with_calls t' (<[call := Aborted]> (calls t'))
  end.

(** [init] (lines 229-253) at the call: the check, then the retrieval of
    the manifest list begins.  The result is the number of the call. *)
Definition init_call (filterFn : option (Manifest → bool)) : M nat :=
  do _ <- startupCheck;
  λ t, (inr (length (calls t)), with_calls t (calls t ++ [InitFetching filterFn])).

(** [init] once the manifest list has been retrieved and parsed, or not
    (lines 237-248). *)
Definition then_manifests (call : nat) (parsed : Thrown + list Manifest)
    (t : ModuleLoaderTool) : ModuleLoaderTool :=
  match calls t !! call with
  | Some (InitFetching filterFn) =>
    match parsed, entrypoint t with
    | inr bundlesObj, Some e =>
      let loadedBundles := match flattener e with
                           | Some f => f bundlesObj
                           | None => bundlesObj
                           end in
      let list := match filterFn with
                  | None => loadedBundles
                  | Some f => List.filter f loadedBundles
                  end in
      let t1 := setBundlesList t list in
      with_calls t1 (<[call := InitListed]> (calls t1))
    | _, _ => with_calls t (<[call := Aborted]> (calls t))
    end
  | _ => t
  end.

(** The last callback of [init] (lines 250-252). *)
Definition then_listed (call : nat) (t : ModuleLoaderTool) : ModuleLoaderTool :=
  match calls t !! call with
  | Some InitListed => bulk call BLOCK t
  | _ => t
  end.

(** [start] (lines 261-268) at the call: nothing but a chain on
    [Promise.resolve()]. *)
Definition start_call (runner : Runner) : M nat :=
  λ t, (inr (length (calls t)), with_calls t (calls t ++ [StartQueued runner])).

(** The first callback of [start] (line 264): the runner is called. *)
Definition then_start (call : nat) (t : ModuleLoaderTool) : ModuleLoaderTool :=
  match calls t !! call with
  | Some (StartQueued runner) =>
    let t1 := emit t [RunnerCalled call] in
    match runner with
    | RunnerThrows _ => with_calls t1 (<[call := Aborted]> (calls t1))
    | RunnerReturns => with_calls t1 (<[call := StartRunning]> (calls t1))
    end
  | _ => t
  end.

(** The second callback of [start] (lines 265-267) runs when what the
    runner returned has been fulfilled; a rejection skips it. *)
Definition then_runner (call : nat) (o : Settled) (t : ModuleLoaderTool)
    : ModuleLoaderTool :=
  match calls t !! call with
  | Some StartRunning =>
    match o with
    | Fulfilled => bulk call IMMEDIATELY (emit t [RunnerFulfilled call])
    | Failed _ => with_calls t (<[call := Aborted]> (calls t))
    end
  | _ => t
  end.

(** ** Runs *)

(** What can happen next: the host calls a public method, or a callback
    the loader has registered is run. *)
Inductive Event :=
| DefineDependencies (d : gmap string Dependency)
| DefineUnknownDependencyResolver (resolver : string → option Dependency)
| DefineUrlFormatter (formatter : Manifest → string)
| DefineEntrypoint (e : Entrypoint)
| Init (filterFn : option (Manifest → bool))
| ThenManifests (call : nat) (parsed : Thrown + list Manifest)
| ThenListed (call : nat)
| Start (runner : Runner)
| ThenStart (call : nat)
| ThenRunner (call : nat) (o : Settled)
| ThenAll (call : nat)
| LoadBundleByName (n : string)
| ThenPreprocessors (loader : nat) (o : Settled)
| ThenFetched (loader : nat) (f : Fetched)
| ThenPostprocessors (loader : nat) (o : Settled)
| ManuallyDefineBundle (manifest : Manifest) (bundle : CompiledModule).

Definition step (t : ModuleLoaderTool) (e : Event) : ModuleLoaderTool :=
  match e with
  | DefineDependencies d => with_dependencies t d
  | DefineUnknownDependencyResolver r => with_unknownDependencyResolver t (Some r)
  | DefineUrlFormatter f => with_urlFormatter t (Some f)
  | DefineEntrypoint e => with_entrypoint t (Some e)
  | Init filterFn => (init_call filterFn t).2
  | ThenManifests call parsed => then_manifests call parsed t
  | ThenListed call => then_listed call t
  | Start runner => (start_call runner t).2
  | ThenStart call => then_start call t
  | ThenRunner call o => then_runner call o t
  | ThenAll call => then_all call t
  | LoadBundleByName n => (loadBundleByName n t).2
  | ThenPreprocessors loader o => then_preprocessors loader o t
  | ThenFetched loader f => then_fetched loader f t
  | ThenPostprocessors loader o => then_postprocessors loader o t
  | ManuallyDefineBundle manifest bundle => (manuallyDefineBundle manifest bundle t).2
  end.

Definition run (es : list Event) (t : ModuleLoaderTool) : ModuleLoaderTool :=
  fold_left step es t.

(** ** A small scenario, used in the examples below *)

Definition bundle_a : Manifest := {| name := "a"; loadStrategy := BLOCK; payload := 0 |}.
Definition bundle_b : Manifest := {| name := "b"; loadStrategy := IMMEDIATELY; payload := 0 |}.
Definition bundle_c : Manifest := {| name := "c"; loadStrategy := ON_DEMAND; payload := 0 |}.

Definition module_a : CompiledModule := {| exports := {| start := Some 1; value := 10 |} |}.
Definition module_b : CompiledModule := {| exports := {| start := Some 2; value := 20 |} |}.
Definition module_c : CompiledModule := {| exports := {| start := Some 3; value := 30 |} |}.

Definition url_of (m : Manifest) : string := "/bundles/" +:+ name m +:+ ".js".

(** A configured loader whose manifest list has arrived. *)
Definition configure : list Event :=
  [ DefineUrlFormatter url_of;
    DefineEntrypoint {| manifestUrl := "/manifest.json"; flattener := None |};
    DefineUnknownDependencyResolver (λ _, None);
    Init None;
    ThenManifests 0 (inr [bundle_a; bundle_b; bundle_c]) ].

(** ** Counting effects *)

Definition is_retrieval (n : string) (e : Effect) : bool :=
  match e with
  | FetchBundleSource b _ => bool_decide (b = n)
  | _ => false
  end.

Definition is_compilation (n : string) (e : Effect) : bool :=
  match e with
  | CompileSource b => bool_decide (b = n)
  | _ => false
  end.

Definition is_start_export (entry : nat) (e : Effect) : bool :=
  match e with
  | StartExport x => bool_decide (x = entry)
  | _ => false
  end.

Definition count (p : Effect → bool) (l : list Effect) : nat :=
  length (List.filter p l).

(** How often the source of bundle [n] was retrieved, how often it was
    compiled, how often the entry point [entry] was called. *)
Definition retrievals (n : string) := count (is_retrieval n).
Definition compilations (n : string) := count (is_compilation n).
Definition start_calls (entry : nat) := count (is_start_export entry).

(** The effects of the synchronous part of a load. *)
Definition preparing (l : list Effect) : Prop :=
  Forall (λ e, ∃ n, e = RunPreprocessors n) l.

(** ** Predicates on states and effects, and the states of the examples *)

(** [t'] differs from [t] by new tasks, new entries of [loadersCache] and
    calls of [runPreprocessors] only. *)
Definition loads_added (t t' : ModuleLoaderTool) : Prop :=
  bundlesList t' = bundlesList t ∧ bundlesListStream t' = bundlesListStream t ∧
  bundlesCache t' = bundlesCache t ∧ calls t' = calls t ∧
  urlFormatter t' = urlFormatter t ∧ entrypoint t' = entrypoint t ∧
  dependencies t' = dependencies t ∧
  unknownDependencyResolver t' = unknownDependencyResolver t ∧
  ∃ l : list Effect, effects t' = effects t ++ l ∧ preparing l.

(** The relation that every run keeps between the manifest list, the two
    caches and the tasks. *)
Record Consistent (bl : option (list Manifest)) (bc : gmap string CompiledModule)
    (lc : gmap string nat) (ts : list Task) : Prop := {
  (* nothing is loaded before there is a manifest list *)
  cons_list : bl = None → bc = ∅ ∧ ts = [];
  (* [loadersCache] holds tasks that exist, one per name *)
  cons_valid : ∀ n p, lc !! n = Some p → p < length ts;
  cons_inj : ∀ n n' p, lc !! n = Some p → lc !! n' = Some p → n = n';
  (* a pending load is the one registered under its name *)
  cons_loading : ∀ p s, ts !! p = Some (Loading s) →
                        lc !! name (stage_manifest s) = Some p;
  (* a compiled module is in the cache from then on *)
  cons_post : ∀ p m cm, ts !! p = Some (Loading (Postprocessing m cm)) →
                        bc !! name m = Some cm;
  cons_done : ∀ n p cm, lc !! n = Some p → ts !! p = Some (Resolved (Some cm)) →
                        bc !! n = Some cm
}.

Definition Inv (t : ModuleLoaderTool) : Prop :=
  Consistent (bundlesList t) (bundlesCache t) (loadersCache t) (tasks t).

(** Effects that are neither a retrieval nor a compilation. *)
Definition quiet (l : list Effect) : Prop :=
  ∀ n, retrievals n l = 0 ∧ compilations n l = 0.

Record Counted (lc : gmap string nat) (ts : list Task) (es : list Effect) : Prop := {
  cnt_fresh : ∀ n, lc !! n = None → retrievals n es = 0 ∧ compilations n es = 0;
  cnt_pre : ∀ p m u, ts !! p = Some (Loading (Preprocessing m u)) →
                     retrievals (name m) es = 0 ∧ compilations (name m) es = 0;
  cnt_fetching : ∀ p m, ts !! p = Some (Loading (Fetching m)) →
                        compilations (name m) es = 0;
  cnt_once : ∀ n, retrievals n es ≤ 1 ∧ compilations n es ≤ 1
}.

Definition Counts (t : ModuleLoaderTool) : Prop :=
  Counted (loadersCache t) (tasks t) (effects t).

(** In the effects [l], every immediate pass of the call [call] of [start]
    comes after the call of its runner and after the fulfilment of what
    the runner returned, in this order. *)
Definition runner_first (call : nat) (l : list Effect) : Prop :=
  ∀ pre post, l = pre ++ BulkLoad call IMMEDIATELY :: post →
    ∃ a b c, pre = a ++ RunnerCalled call :: b ++ RunnerFulfilled call :: c.

(** Nothing in [l] belongs to the runner phase of [call]. *)
Definition untouched (call : nat) (l : list Effect) : Prop :=
  (RunnerCalled call ∉ l) ∧ (RunnerFulfilled call ∉ l) ∧
  (BulkLoad call IMMEDIATELY ∉ l).

(** What the phase of a call says about the effects so far. *)
Definition phase_ok (call : nat) (ph : option Phase) (l : list Effect) : Prop :=
  match ph with
  | None | Some (InitFetching _) | Some InitListed | Some (StartQueued _) =>
    untouched call l
  | Some StartRunning =>
    (RunnerCalled call ∈ l) ∧ (RunnerFulfilled call ∉ l) ∧
    (BulkLoad call IMMEDIATELY ∉ l)
  | Some (BulkWaiting _) | Some Completed | Some Aborted => True
  end.

Definition Sequenced (cs : list Phase) (es : list Effect) : Prop :=
  ∀ call, runner_first call es ∧ phase_ok call (cs !! call) es.

Definition Ordered (t : ModuleLoaderTool) : Prop := Sequenced (calls t) (effects t).

(** A phase in which the call has passed its own steps. *)
Definition final (ph : Phase) : Prop :=
  match ph with
  | BulkWaiting _ | Completed | Aborted => True
  | _ => False
  end.

(** The module [cm] is cached under [n] and no load that would still
    compile a source for [n] is pending. *)
Definition Kept (n : string) (cm : CompiledModule) (t : ModuleLoaderTool) : Prop :=
  bundlesCache t !! n = Some cm ∧
  ∀ p s, tasks t !! p = Some (Loading s) → name (stage_manifest s) = n →
         ∃ m cm', s = Postprocessing m cm'.

(** From [t] to [t']: entries of [loadersCache] stay, settled tasks stay
    as they are, and so does a module that is [Kept]. *)
Definition grows (t t' : ModuleLoaderTool) : Prop :=
  (∀ n p, loadersCache t !! n = Some p → loadersCache t' !! n = Some p) ∧
  (∀ p x, tasks t !! p = Some x → (∀ s, x ≠ Loading s) → tasks t' !! p = Some x) ∧
  (∀ n cm, Kept n cm t → Kept n cm t').

(** A source text that asks for the dependency [x] and exports whether it
    got an object. *)
Definition asks_for_x : Source :=
  Require "x" (λ d, Finish {| start := None;
                               value := match d with Some _ => 1 | None => 0 end |}).

(** The on-demand load of bundle [c], up to the point where its module is
    compiled and cached and its postprocessors are running. *)
Definition postprocessing_c : ModuleLoaderTool :=
  run (configure ++
       [ LoadBundleByName "c";
         ThenPreprocessors 0 Fulfilled;
         ThenFetched 0 (Response 200 (Finish (exports module_c))) ]) new.

(** The load of bundle [c] when its preprocessor vetoes it with
    [Promise.reject()], that is with the reason [undefined]. *)
Definition vetoed_c : ModuleLoaderTool :=
  run (configure ++ [LoadBundleByName "c"; ThenPreprocessors 0 (Failed Undefined)]) new.

(** The load of bundle [c] after its postprocessors have failed. *)
Definition failed_c : ModuleLoaderTool :=
  run [ThenPostprocessors 0 (Failed Other)] postprocessing_c.

(** The on-demand load of bundle [c], settled with its module. *)
Definition loaded_c : ModuleLoaderTool :=
  run [ThenPostprocessors 0 Fulfilled] postprocessing_c.

(** Two calls of [start], each with its pass over the only [IMMEDIATELY]
    bundle, [b]. *)
Definition started_twice : ModuleLoaderTool :=
  run (configure ++
       [ Start RunnerReturns; ThenStart 1; ThenRunner 1 Fulfilled;
         ThenPreprocessors 0 Fulfilled;
         ThenFetched 0 (Response 200 (Finish (exports module_b)));
         ThenPostprocessors 0 Fulfilled; ThenAll 1;
         Start RunnerReturns; ThenStart 2; ThenRunner 2 Fulfilled; ThenAll 2 ]) new.

(** The task [p] is resolved, to a module or to none. *)
Definition is_resolved (ts : list Task) (p : nat) : bool :=
  match ts !! p with
  | Some (Resolved _) => true
  | _ => false
  end.

(** The task [p] is resolved to a module whose [start] is the entry point
    [entry]. *)
Definition resolved_to_entry (entry : nat) (ts : list Task) (p : nat) : bool :=
  match ts !! p with
  | Some (Resolved (Some compiledBundle)) =>
    bool_decide (start (exports compiledBundle) = Some entry)
  | _ => false
  end.

(** The calls of the entry point [entry] that are due when the event [e]
    happens in the state [t], read off the tasks and not off what the
    loader does: the callback of a pass whose loads are all resolved owes
    one call for each of its loads that is resolved to a module with that
    entry point, counting a load as often as it occurs in the pass; a
    manual definition owes one call if the module it is given has that
    entry point; nothing else owes a call. *)
Definition start_calls_added (entry : nat) (t : ModuleLoaderTool) (e : Event) : nat :=
  match e with
  | ThenAll call =>
    match calls t !! call with
    | Some (BulkWaiting loads) =>
      if forallb (is_resolved (tasks t)) loads
      then length (List.filter (resolved_to_entry entry (tasks t)) loads)
      else 0
    | _ => 0
    end
  | ManuallyDefineBundle _ bundle =>
    match bundlesList t, start (exports bundle) with
    | Some _, Some x => if bool_decide (x = entry) then 1 else 0
    | _, _ => 0
    end
  | _ => 0
  end.

(** The message of the error thrown for a name that is taken. *)
Definition already_defined (manifest : Manifest) : Thrown :=
  Err Error ("Manifest with name " +:+ dq +:+ name manifest +:+ dq +:+
             " already defined, break;").

(** The loader after bundle [a] has been defined by hand. *)
Definition defined_a : list Event :=
  configure ++ [ManuallyDefineBundle bundle_a module_a].

(** ** The processor registry: [ManifestProcessors] (lines 3-54) *)

(** A plain object used as a map from type keys: its own properties, in
    the order of their creation.  Assigning to a key that exists replaces
    the value where it stands; assigning to a new key appends it.  The key
    [__proto__] is the exception: an object that has no property of its own
    under it inherits a setter for it, and the assignment goes to that
    setter, which makes the value the prototype of the object and creates
    no property.  This is the assignment to an object that has the
    prototype it was created with; one whose prototype was replaced may
    refuse a key that its new prototype holds read-only. *)
Definition assign {V} (k : string) (v : V) (o : list (string * V)) : list (string * V) :=
  if bool_decide (k ∈ o.*1)
  then List.map (λ kv, if bool_decide (kv.1 = k) then (k, v) else kv) o
  else if bool_decide (k = "__proto__") then o
  else o ++ [(k, v)].

Definition get {V} (k : string) (o : list (string * V)) : option V :=
  snd <$> List.find (λ kv, bool_decide (kv.1 = k)) o.

(** The number that a string of decimal digits denotes. *)
Definition digit_of (c : Ascii.ascii) : option N :=
  let n := Ascii.N_of_ascii c in
  if bool_decide (48 ≤ n ∧ n ≤ 57)%N then Some (n - 48)%N else None.

Fixpoint number_of (s : string) (acc : N) : option N :=
  match s with
  | EmptyString => Some acc
  | String c s' =>
    match digit_of c with
    | Some d => number_of s' (10 * acc + d)%N
    | None => None
    end
  end.

(** A property key is an array index when it is the canonical decimal
    form of an integer from 0 to 2^32 - 2. *)
Definition array_index (k : string) : option N :=
  match k with
  | EmptyString => None
  | _ =>
    match number_of k 0 with
    | Some n => if bool_decide (pretty n = k ∧ (n < 2 ^ 32 - 1)%N) then Some n else None
    | None => None
    end
  end.

Definition is_index (k : string) : Prop := is_Some (array_index k).

Definition index_le (a b : string) : Prop :=
  (default 0 (array_index a) ≤ default 0 (array_index b))%N.

Global Instance is_index_dec k : Decision (is_index k).
Proof. unfold is_index. apply _. Defined.

Global Instance index_le_dec : RelDecision index_le.
Proof. intros a b. unfold index_le. apply _. Defined.

(** [Object.keys]: the array indices in ascending order, then the other
    keys in the order of their creation. *)
Definition own_keys {V} (o : list (string * V)) : list string :=
  merge_sort index_le (filter is_index o.*1) ++ filter (λ k, ¬ is_index k) o.*1.

(** A table of hooks.  A hook is host code: it is identified by a number.
    The table is an object: besides the hooks it was given it has a
    prototype, the one of every object ([None]) until a hook is assigned
    to it under [__proto__] and becomes its prototype. *)
Record HookTable := {
  hooks : gmap string nat;
  prototype : option nat
}.

Definition no_hooks : HookTable := {| hooks := ∅; prototype := None |}.

(** The three tables of the registry. *)
Record ManifestProcessors := {
  typeMatchers : list (string * (Manifest → bool));
  modulePreprocessors : HookTable;
  modulePostprocessors : HookTable
}.

Definition new_processors : ManifestProcessors :=
  {| typeMatchers := [];
     modulePreprocessors := no_hooks;
     modulePostprocessors := no_hooks |}.

(** What [getModuleTypeByManifest] returns: a type key, or nothing after
    the warning it wrote to the console. *)
Inductive Classified :=
| Typed (typeKey : string)
| Untyped (warning : string).

(** [getModuleTypeByManifest] (lines 8-18). *)
Definition getModuleTypeByManifest (p : ManifestProcessors) (manifest : Manifest)
    : Classified :=
  match List.find (λ typeKey, match get typeKey (typeMatchers p) with
                              | Some typeMatcher => typeMatcher manifest
                              | None => false
                              end) (own_keys (typeMatchers p)) with
  | Some typeKey => Typed typeKey
  | None => Untyped ("Cant resolve type of service " +:+ dq +:+ name manifest +:+ dq)
  end.

(** The assignment of a hook to a table of hooks; under [__proto__] it
    creates no entry, as in [assign], and the hook becomes the prototype of
    the table.  As there, a table whose prototype was replaced may refuse
    a key that its new prototype holds read-only; that is not followed. *)
Definition assign_hook (type : string) (hook : nat) (table : HookTable) : HookTable :=
  match hooks table !! type with
  | None =>
    if bool_decide (type = "__proto__")
    then {| hooks := hooks table; prototype := Some hook |}
    else {| hooks := <[type := hook]> (hooks table); prototype := prototype table |}
  | Some _ => {| hooks := <[type := hook]> (hooks table); prototype := prototype table |}
  end.

(** [registerManifestType] (lines 20-33). *)
Definition registerManifestType (p : ManifestProcessors) (type : string)
    (typeMatcher : Manifest → bool)
    (modulePreprocessor modulePostprocessor : option nat) : ManifestProcessors :=
  {| typeMatchers := assign type typeMatcher (typeMatchers p);
     modulePreprocessors :=
       match modulePreprocessor with
       | Some hook => assign_hook type hook (modulePreprocessors p)
       | None => modulePreprocessors p
       end;
     modulePostprocessors :=
       match modulePostprocessor with
       | Some hook => assign_hook type hook (modulePostprocessors p)
       | None => modulePostprocessors p
       end |}.

(** A registry as the code builds it: by calls of [registerManifestType]
    on the empty registry.  A registration is the four arguments of the
    call. *)
Definition Registration : Type :=
  string * (Manifest → bool) * option nat * option nat.

Definition register (p : ManifestProcessors) (r : Registration) : ManifestProcessors :=
  let '(type, typeMatcher, modulePreprocessor, modulePostprocessor) := r in
  registerManifestType p type typeMatcher modulePreprocessor modulePostprocessor.

Definition registered (rs : list Registration) : ManifestProcessors :=
  fold_left register rs new_processors.

(** The type of a registration is not [__proto__]: the registration leaves
    the prototypes of the tables as they are. *)
Definition keeps_prototypes (r : Registration) : Prop := r.1.1.1 ≠ "__proto__".

(** What [runPreprocessor] and [runPostprocessor] do: return the task of
    [Promise.resolve()]; call a hook and return what it returns; call the
    function that every object inherits under the key, which is no hook
    and returns no task; throw, because what the table finds under the key
    is not a function; or go by the property that the hook which is the
    prototype of the table has under the key, which is up to the host. *)
Inductive Dispatch :=
| ResolveNow
| CallHook (hook : nat)
| CallInherited (property : string)
| NotCallable
| ReadProperty (hook : nat) (property : string).

(** The dispatch common to lines 35-42 and 44-53, after the type is known:
    a type key that is falsy (none, or the empty string) resolves at once.
    Otherwise the key is looked up in the table: a hook registered under it
    is called.  If there is none, the lookup goes on to the prototype.
    With the prototype of every object, a type named as one of its methods
    has that method called, [__proto__] finds the prototype itself, which
    cannot be called, and any other type resolves at once.  With a hook as
    prototype, [__proto__] finds that hook, and any other key is looked up
    in it. *)
Definition dispatch (table : HookTable) (c : Classified) : list string * Dispatch :=
  match c with
  | Untyped warning => ([warning], ResolveNow)
  | Typed moduleType =>
    if bool_decide (moduleType = EmptyString) then ([], ResolveNow)
    else match hooks table !! moduleType, prototype table with
         | Some hook, _ => ([], CallHook hook)
         | None, None =>
           if bool_decide (moduleType = "__proto__") then ([], NotCallable)
           else if bool_decide (moduleType ∈ object_prototype_names)
           then ([], CallInherited moduleType)
           else ([], ResolveNow)
         | None, Some inherited =>
           if bool_decide (moduleType = "__proto__") then ([], CallHook inherited)
           else ([], ReadProperty inherited moduleType)
         end
  end.

(** [runPreprocessor] (lines 35-42): the warnings written and the task. *)
Definition runPreprocessor (p : ManifestProcessors) (manifest : Manifest)
    : list string * Dispatch :=
  dispatch (modulePreprocessors p) (getModuleTypeByManifest p manifest).

(** [runPostprocessor] (lines 44-53); the hook gets the module too. *)
Definition runPostprocessor (p : ManifestProcessors) (manifest : Manifest)
    (module : CompiledModule) : list string * Dispatch :=
  dispatch (modulePostprocessors p) (getModuleTypeByManifest p manifest).

(** ** The query methods of the loader *)

Module Tool.

(** [filter] (lines 328-330). *)
Definition filter (fn : Manifest → bool) : M (list Manifest) :=
  λ t, match bundlesList t with
       | None => (inl (Err TypeError "Cannot read property 'filter' of undefined"), t)
       | Some list => (inr (List.filter fn list), t)
       end.

(** [subscribe] (lines 337-345): what a subscriber is handed at once, the
    current value of the subject, through the filter. *)
Definition subscribe (fn : option (Manifest → bool)) (t : ModuleLoaderTool)
    : option (list Manifest) :=
  List.filter (λ bundle, match fn with Some f => f bundle | None => true end)
    <$> last (bundlesListStream t).

End Tool.

(** ** Further predicates on states and effects *)

(** Either the URL formatter and the entrypoint are defined, or nothing
    of [init] has happened: no manifest list and no call of [init] under
    way. *)
Definition Configured (t : ModuleLoaderTool) : Prop :=
  (is_Some (urlFormatter t) ∧ is_Some (entrypoint t)) ∨
  (bundlesList t = None ∧ ∀ call filterFn, calls t !! call ≠ Some (InitFetching filterFn)).

(** In the effects [l], every occurrence of [b] has an occurrence of an
    effect in [A] before it. *)
Definition preceded_by (A : Effect → Prop) (b : Effect) (l : list Effect) : Prop :=
  ∀ pre post, l = pre ++ b :: post → ∃ a, A a ∧ a ∈ pre.

Definition is_fetch_of (n : string) (e : Effect) : Prop :=
  ∃ url, e = FetchBundleSource n url.

(** The steps of a load come in their order: what a stage says about the
    effects so far, and the order of the effects themselves. *)
Record Staged (ts : list Task) (es : list Effect) : Prop := {
  staged_pre : ∀ p m u, ts !! p = Some (Loading (Preprocessing m u)) →
                        RunPreprocessors (name m) ∈ es;
  staged_fetching : ∀ p m, ts !! p = Some (Loading (Fetching m)) →
                           ∃ u, FetchBundleSource (name m) u ∈ es;
  staged_fetch : ∀ n u, preceded_by (eq (RunPreprocessors n)) (FetchBundleSource n u) es;
  staged_compile : ∀ n, preceded_by (is_fetch_of n) (CompileSource n) es;
  staged_post : ∀ n, preceded_by (eq (CompileSource n)) (RunPostprocessors n) es
}.

Definition Stages (t : ModuleLoaderTool) : Prop := Staged (tasks t) (effects t).

(** An effect that is none of retrieval, compilation and call of the
    postprocessors. *)
Definition unstaged (e : Effect) : Prop :=
  match e with
  | FetchBundleSource _ _ | CompileSource _ | RunPostprocessors _ => False
  | _ => True
  end.

(** The events of a call of [start] (lines 261-268): the call itself and
    its two callbacks, the one that calls the runner and the one that runs
    once what the runner returned has settled. *)
Definition of_start (e : Event) : Prop :=
  match e with
  | Start _ | ThenStart _ | ThenRunner _ _ => True
  | _ => False
  end.

Lemma count_app p l1 l2 : count p (l1 ++ l2) = count p l1 + count p l2.
Proof. unfold count. by rewrite List.filter_app, length_app. Qed.

Lemma count_nil p : count p [] = 0.
Proof. done. Qed.

Lemma count_preparing p l :
  (∀ n, p (RunPreprocessors n) = false) → preparing l → count p l = 0.
Proof.
  intros Hp Hl. induction Hl as [|e l [n ->] _ IH]; [done|].
  unfold count in *. simpl. by rewrite Hp.
Qed.

Lemma preparing_app l1 l2 : preparing l1 → preparing l2 → preparing (l1 ++ l2).
Proof. apply Forall_app_2. Qed.

(** ** What a call of [loadBundleByManifest] changes *)

Lemma loadBundleByManifest_cached m t cached :
  bundlesCache t !! name m = Some cached →
  loadBundleByManifest m t
  = (inr (length (tasks t)), with_tasks t (tasks t ++ [Resolved (Some cached)])).
Proof. intros H. unfold loadBundleByManifest. by rewrite H. Qed.

Lemma loadBundleByManifest_inflight m t p :
  bundlesCache t !! name m = None →
  loadersCache t !! name m = Some p →
  loadBundleByManifest m t = (inr p, t).
Proof. intros H1 H2. unfold loadBundleByManifest. by rewrite H1, H2. Qed.

Lemma loads_added_refl t : loads_added t t.
Proof. unfold loads_added. split_and!; try done. exists []. split; [by rewrite app_nil_r | constructor]. Qed.

Lemma loads_added_trans t1 t2 t3 :
  loads_added t1 t2 → loads_added t2 t3 → loads_added t1 t3.
Proof.
  intros (?&?&?&?&?&?&?&?& l1 & E1 & P1) (?&?&?&?&?&?&?&?& l2 & E2 & P2).
  unfold loads_added. split_and!; try congruence.
  exists (l1 ++ l2). rewrite E2, E1, <-app_assoc. split; [done|].
  by apply preparing_app.
Qed.

Lemma loadBundleByManifest_frame m t : loads_added t (loadBundleByManifest m t).2.
Proof.
  unfold loadBundleByManifest.
  destruct (bundlesCache t !! name m); simpl.
  { unfold loads_added; simpl. split_and!; try done.
    exists []. split; [by rewrite app_nil_r | constructor]. }
  destruct (loadersCache t !! name m); simpl; [apply loads_added_refl|].
  destruct (urlFormatter t) eqn:E; simpl; [|apply loads_added_refl].
  unfold loads_added; simpl. split_and!; try done.
  eexists; split; [done|]. apply Forall_singleton. by eexists.
Qed.

Lemma map_calls_frame ms t :
  loads_added t (map_calls loadBundleByManifest ms t).2.
Proof.
  revert t. induction ms as [|m ms IH]; intros t; simpl; [apply loads_added_refl|].
  unfold bind.
  pose proof (loadBundleByManifest_frame m t) as Hm.
  destruct (loadBundleByManifest m t) as [[v|p] t1]; simpl in *; [done|].
  specialize (IH t1).
  destruct (map_calls loadBundleByManifest ms t1) as [[v|ps] t2]; simpl in *.
  all: by eapply loads_added_trans.
Qed.

(** ** Invariants of the caches and the tasks *)

Lemma Consistent_new : Inv new.
Proof.
  split; simpl; try done.
  all: intros *; rewrite ?lookup_empty; done.
Qed.

Section consistent.
Context {bl : option (list Manifest)} {bc : gmap string CompiledModule}
        {lc : gmap string nat} {ts : list Task}.
Hypothesis C : Consistent bl bc lc ts.

Lemma Consistent_list l : Consistent (Some l) bc lc ts.
Proof. destruct C as [Clist Cvalid Cinj Cloading Cpost Cdone]. by split. Qed.

Lemma Consistent_push x :
  bl ≠ None → (∀ s, x ≠ Loading s) → Consistent bl bc lc (ts ++ [x]).
Proof.
  intros Hbl Hx. destruct C as [Clist Cvalid Cinj Cloading Cpost Cdone]. split; try done.
  - intros n p H. rewrite length_app. simpl. apply Cvalid in H. lia.
  - intros p s [[_ H]|[_ H]]%lookup_snoc_Some; [eauto|]. by destruct (Hx s).
  - intros p m cm [[_ H]|[_ H]]%lookup_snoc_Some; [eauto|]. by destruct (Hx (Postprocessing m cm)).
  - intros n p cm Hn [[_ H]|[-> _]]%lookup_snoc_Some; [eauto|].
    apply Cvalid in Hn. lia.
Qed.

Lemma Consistent_fresh m u :
  bl ≠ None → lc !! name m = None →
  Consistent bl bc (<[name m := length ts]> lc) (ts ++ [Loading (Preprocessing m u)]).
Proof.
  intros Hbl Hm. destruct C as [Clist Cvalid Cinj Cloading Cpost Cdone]. split; try done.
  - intros n p [[_ <-]|[_ H]]%lookup_insert_Some; rewrite length_app; simpl; [lia|].
    apply Cvalid in H. lia.
  - intros n n' p [[<- <-]|[Hne H]]%lookup_insert_Some
                  [[<- E]|[Hne' H']]%lookup_insert_Some; try done.
    + apply Cvalid in H'. lia.
    + apply Cvalid in H. lia.
    + eauto.
  - intros p s [[_ H]|[-> H]]%lookup_snoc_Some.
    + pose proof (Cloading _ _ H) as Hs.
      rewrite lookup_insert_ne; [done|]. intros E. rewrite E in Hm. congruence.
    + injection H as <-. simpl. apply lookup_insert_eq.
  - intros p m' cm [[_ H]|[_ H]]%lookup_snoc_Some; [eauto|done].
  - intros n p cm [[<- <-]|[Hne Hn]]%lookup_insert_Some
                  [[Hp H]|[Hp H]]%lookup_snoc_Some; try done; try lia.
    eauto.
Qed.

(** A pending load settles without a module. *)
Lemma Consistent_settle p s x :
  ts !! p = Some (Loading s) →
  (∀ s', x ≠ Loading s') → (∀ cm, x ≠ Resolved (Some cm)) →
  Consistent bl bc lc (<[p := x]> ts).
Proof.
  intros Hp Hx Hx'. destruct C as [Clist Cvalid Cinj Cloading Cpost Cdone]. split.
  - intros ->. destruct (Clist eq_refl) as [_ ->]. done.
  - intros n q H. rewrite length_insert. eauto.
  - done.
  - intros q s' [(_ & -> & _)|[_ H]]%list_lookup_insert_Some; [|eauto].
    by destruct (Hx s').
  - intros q m cm [(_ & -> & _)|[_ H]]%list_lookup_insert_Some; [|eauto].
    by destruct (Hx (Postprocessing m cm)).
  - intros n q cm Hn [(_ & -> & _)|[_ H]]%list_lookup_insert_Some; [|eauto].
    by destruct (Hx' cm).
Qed.

(** The postprocessors are done: the load settles with its module. *)
Lemma Consistent_resolve p m cm :
  ts !! p = Some (Loading (Postprocessing m cm)) →
  Consistent bl bc lc (<[p := Resolved (Some cm)]> ts).
Proof.
  intros Hp. destruct C as [Clist Cvalid Cinj Cloading Cpost Cdone]. split.
  - intros ->. destruct (Clist eq_refl) as [_ ->]. done.
  - intros n q H. rewrite length_insert. eauto.
  - done.
  - intros q s' [(_ & ? & _)|[_ H]]%list_lookup_insert_Some; [done|eauto].
  - intros q m' cm' [(_ & ? & _)|[_ H]]%list_lookup_insert_Some; [done|eauto].
  - intros n q cm' Hn [(<- & E & _)|[_ H]]%list_lookup_insert_Some; [|eauto].
    injection E as <-.
    pose proof (Cloading _ _ Hp) as Hm. simpl in Hm.
    rewrite (Cinj _ _ _ Hn Hm). eauto.
Qed.

(** The preprocessors are done: the retrieval begins. *)
Lemma Consistent_fetch p m u :
  ts !! p = Some (Loading (Preprocessing m u)) →
  Consistent bl bc lc (<[p := Loading (Fetching m)]> ts).
Proof.
  intros Hp. destruct C as [Clist Cvalid Cinj Cloading Cpost Cdone]. split.
  - intros ->. destruct (Clist eq_refl) as [_ ->]. done.
  - intros n q H. rewrite length_insert. eauto.
  - done.
  - intros q s' [(<- & E & _)|[_ H]]%list_lookup_insert_Some; [|eauto].
    injection E as <-. apply (Cloading _ _ Hp).
  - intros q m' cm' [(_ & ? & _)|[_ H]]%list_lookup_insert_Some; [done|eauto].
  - intros n q cm' Hn [(_ & ? & _)|[_ H]]%list_lookup_insert_Some; [done|eauto].
Qed.

(** The source is compiled: the module goes into the cache. *)
Lemma Consistent_compiled p m cm :
  ts !! p = Some (Loading (Fetching m)) →
  Consistent bl (<[name m := cm]> bc) lc (<[p := Loading (Postprocessing m cm)]> ts).
Proof.
  intros Hp. destruct C as [Clist Cvalid Cinj Cloading Cpost Cdone].
  pose proof (Cloading _ _ Hp) as Hm. simpl in Hm. split.
  - intros ->. destruct (Clist eq_refl) as [_ ->]. done.
  - intros n q H. rewrite length_insert. eauto.
  - done.
  - intros q s' [(<- & E & _)|[_ H]]%list_lookup_insert_Some; [|eauto].
    by injection E as <-.
  - intros q m' cm' [(<- & E & _)|[Hq H]]%list_lookup_insert_Some.
    + injection E as <- <-. apply lookup_insert_eq.
    + pose proof (Cloading _ _ H) as Hm'. simpl in Hm'.
      rewrite lookup_insert_ne; [eauto|].
      intros E. rewrite E in Hm. congruence.
  - intros n q cm' Hn [(_ & ? & _)|[Hq H]]%list_lookup_insert_Some; [done|].
    rewrite lookup_insert_ne; [eauto|].
    intros <-. congruence.
Qed.

(** A module is defined by hand under a name that has none. *)
Lemma Consistent_define l n bundle :
  bl ≠ None → bc !! n = None → Consistent (Some l) (<[n := bundle]> bc) lc ts.
Proof.
  intros Hbl Hn. destruct C as [Clist Cvalid Cinj Cloading Cpost Cdone]. split; try done.
  - intros p m cm H. pose proof (Cpost _ _ _ H).
    rewrite lookup_insert_ne; [done|]. intros E. congruence.
  - intros n' p cm Hn' H. pose proof (Cdone _ _ _ Hn' H).
    rewrite lookup_insert_ne; [done|]. intros E. congruence.
Qed.
End consistent.

Lemma caught_cases m error :
  (∃ typeError, caught m error = ([], Rejected typeError)) ∨
  (∃ text, caught m error = ([ConsoleError text], Resolved None)).
Proof. unfold caught. destruct (message_of error); eauto. Qed.

(** Closes a goal about the number of certain effects among effects that
    were appended. *)
Ltac tally :=
  simpl; unfold start_calls, retrievals, compilations;
  rewrite ?count_app;
  repeat match goal with
         | |- context [caught ?m ?e] =>
           destruct (caught_cases m e) as [[? ->]|[? ->]]
         end;
  unfold count; simpl; lia.

Lemma Inv_loadBundleByManifest m t :
  Inv t → bundlesList t ≠ None → Inv (loadBundleByManifest m t).2.
Proof.
  intros C Hbl. unfold loadBundleByManifest.
  destruct (bundlesCache t !! name m) eqn:Hc; simpl.
  { by apply Consistent_push. }
  destruct (loadersCache t !! name m) eqn:Hl; simpl; [done|].
  destruct (urlFormatter t); simpl; [|done].
  by apply Consistent_fresh.
Qed.

Lemma Inv_map_calls ms t :
  Inv t → bundlesList t ≠ None → Inv (map_calls loadBundleByManifest ms t).2.
Proof.
  revert t. induction ms as [|m ms IH]; intros t C Hbl; simpl; [done|].
  unfold bind.
  pose proof (Inv_loadBundleByManifest m t C Hbl) as C1.
  pose proof (loadBundleByManifest_frame m t) as (E & _).
  destruct (loadBundleByManifest m t) as [[v|p] t1]; simpl in *; [done|].
  assert (bundlesList t1 ≠ None) as Hbl1 by congruence.
  specialize (IH t1 C1 Hbl1).
  by destruct (map_calls loadBundleByManifest ms t1) as [[v|ps] t2].
Qed.

Lemma Inv_bulk call strategy t : Inv t → Inv (bulk call strategy t).
Proof.
  intros C. unfold bulk, bulkLoadBundles. simpl.
  destruct (bundlesList t) as [l|] eqn:Hbl; simpl; [|exact C].
  set (t1 := emit t [BulkLoad call strategy]).
  assert (Inv t1) as C1 by done.
  assert (bundlesList t1 ≠ None) as Hbl1 by (simpl; congruence).
  pose proof (Inv_map_calls
    (List.filter (λ m, bool_decide (loadStrategy m = strategy)) l) t1 C1 Hbl1) as C2.
  by destruct (map_calls _ _ t1) as [[v|ps] t2].
Qed.

Lemma Inv_settle_caught p s m error t :
  Inv t → tasks t !! p = Some (Loading s) → Inv (settle p (caught m error) t).
Proof.
  intros C Hp. unfold settle, Inv. simpl.
  destruct (caught_cases m error) as [[x ->]|[x ->]]; simpl.
  all: by eapply Consistent_settle.
Qed.

Lemma Inv_step t e : Inv t → Inv (step t e).
Proof.
  intros C. destruct e; simpl; try done.
  - (* init *)
    unfold init_call, bind, startupCheck.
    destruct (urlFormatter t); [|done]. by destruct (entrypoint t).
  - (* the manifest list has arrived *)
    unfold then_manifests.
    destruct (calls t !! call) as [[]|]; try done.
    destruct parsed; [done|]. destruct (entrypoint t); [|done].
    unfold Inv; simpl. eapply Consistent_list, C.
  - unfold then_listed.
    destruct (calls t !! call) as [[]|]; try done. by apply Inv_bulk.
  - unfold then_start.
    destruct (calls t !! call) as [[| |r| | | |]|]; try done. by destruct r.
  - unfold then_runner.
    destruct (calls t !! call) as [[]|]; try done.
    destruct o; [|done]. by apply Inv_bulk.
  - unfold then_all.
    destruct (calls t !! call) as [[]|]; try done.
    destruct (rejection _ _); [done|]. by destruct (fulfilments _ _).
  - (* loadBundleByName *)
    unfold loadBundleByName.
    destruct (bundlesList t) eqn:Hbl; [|done].
    destruct (find _ _); [|done].
    apply Inv_loadBundleByManifest; [done|congruence].
  - (* the preprocessors have settled *)
    unfold then_preprocessors.
    destruct (tasks t !! loader) as [[[]| |]|] eqn:Hp; try done.
    destruct o; [|by eapply Inv_settle_caught].
    by eapply Consistent_fetch.
  - (* the retrieval has settled *)
    unfold then_fetched.
    destruct (tasks t !! loader) as [[[]| |]|] eqn:Hp; try done.
    destruct (fetchBundleSource f); [by eapply Inv_settle_caught|].
    simpl. destruct (compileSource _ _ _).
    + by eapply (Inv_settle_caught _ _ _ _ (emit t _)).
    + by apply Consistent_compiled.
  - (* the postprocessors have settled *)
    unfold then_postprocessors.
    destruct (tasks t !! loader) as [[[]| |]|] eqn:Hp; try done.
    destruct o; [|by eapply Inv_settle_caught].
    by eapply Consistent_resolve.
  - (* manuallyDefineBundle *)
    unfold manuallyDefineBundle.
    destruct (bundlesList t) eqn:Hbl; [|done].
    assert (bundlesList t ≠ None) as Hbl' by congruence.
    destruct (start (exports bundle)); simpl.
    all: destruct (bundlesCache t !! name manifest) eqn:Hc; simpl.
    all: unfold Inv; simpl.
    all: first [by eapply Consistent_define | by eapply Consistent_list].
Qed.

Lemma run_app es1 es2 t : run (es1 ++ es2) t = run es2 (run es1 t).
Proof. apply fold_left_app. Qed.

Lemma Inv_run es t : Inv t → Inv (run es t).
Proof.
  revert t. induction es as [|e es IH]; intros t C; [done|].
  apply IH. by apply Inv_step.
Qed.

(** ** At most one retrieval and one compilation per name *)

Lemma quiet_nil : quiet [].
Proof. done. Qed.

Lemma quiet_cons e l :
  (∀ b u, e ≠ FetchBundleSource b u) → (∀ b, e ≠ CompileSource b) →
  quiet l → quiet (e :: l).
Proof.
  intros H1 H2 Hl n. specialize (Hl n). unfold retrievals, compilations, count in *.
  destruct e; simpl; try done.
  - by destruct (H1 bundle url).
  - by destruct (H2 bundle).
Qed.

Lemma quiet_preparing l : preparing l → quiet l.
Proof. intros H n. split; by apply count_preparing. Qed.

Lemma quiet_caught m error : quiet (caught m error).1.
Proof. by destruct (caught_cases m error) as [[x ->]|[x ->]]. Qed.

Lemma quiet_start_exports bs : quiet (start_exports bs).
Proof.
  unfold start_exports. induction bs as [|[[[[e|] v]]|] bs IH]; simpl; done.
Qed.

Lemma Counts_new : Counts new.
Proof. split; simpl; try done. intros n. unfold retrievals, compilations, count. simpl. lia. Qed.

Section counted.
Context {bl : option (list Manifest)} {bc : gmap string CompiledModule}
        {lc : gmap string nat} {ts : list Task} {es : list Effect}.
Hypothesis C : Consistent bl bc lc ts.
Hypothesis K : Counted lc ts es.

Lemma Counted_quiet l : quiet l → Counted lc ts (es ++ l).
Proof.
  intros Hl. destruct K as [Kfresh Kpre Kfetching Konce].
  unfold quiet, retrievals, compilations in *.
  split; intros *; unfold retrievals, compilations; rewrite ?count_app.
  - intros H. destruct (Kfresh _ H), (Hl n). lia.
  - intros H. destruct (Kpre _ _ _ H), (Hl (name m)). lia.
  - intros H. pose proof (Kfetching _ _ H). destruct (Hl (name m)). lia.
  - destruct (Konce n), (Hl n). lia.
Qed.

Lemma Counted_push x : (∀ s, x ≠ Loading s) → Counted lc (ts ++ [x]) es.
Proof.
  intros Hx. destruct K as [Kfresh Kpre Kfetching Konce]. split; try done.
  - intros p m u [[_ H]|[_ H]]%lookup_snoc_Some; [eauto|].
    by destruct (Hx (Preprocessing m u)).
  - intros p m [[_ H]|[_ H]]%lookup_snoc_Some; [eauto|].
    by destruct (Hx (Fetching m)).
Qed.

Lemma Counted_fresh m u :
  lc !! name m = None →
  Counted (<[name m := length ts]> lc) (ts ++ [Loading (Preprocessing m u)]) es.
Proof.
  intros Hm. destruct K as [Kfresh Kpre Kfetching Konce]. split; try done.
  - intros n [H _]%lookup_insert_None. eauto.
  - intros p m' u' [[_ H]|[_ H]]%lookup_snoc_Some; [eauto|].
    injection H as <- <-. eauto.
  - intros p m' [[_ H]|[_ H]]%lookup_snoc_Some; [eauto|done].
Qed.

Lemma Counted_settle p x : (∀ s, x ≠ Loading s) → Counted lc (<[p := x]> ts) es.
Proof.
  intros Hx. destruct K as [Kfresh Kpre Kfetching Konce]. split; try done.
  - intros q m u [(_ & -> & _)|[_ H]]%list_lookup_insert_Some; [|eauto].
    by destruct (Hx (Preprocessing m u)).
  - intros q m [(_ & -> & _)|[_ H]]%list_lookup_insert_Some; [|eauto].
    by destruct (Hx (Fetching m)).
Qed.

Lemma retrievals_snoc n b u :
  retrievals n (es ++ [FetchBundleSource b u])
  = retrievals n es + (if bool_decide (b = n) then 1 else 0).
Proof.
  unfold retrievals. rewrite count_app. f_equal.
  unfold count. simpl. by destruct (bool_decide (b = n)).
Qed.

Lemma compilations_snoc n b :
  compilations n (es ++ [CompileSource b])
  = compilations n es + (if bool_decide (b = n) then 1 else 0).
Proof.
  unfold compilations. rewrite count_app. f_equal.
  unfold count. simpl. by destruct (bool_decide (b = n)).
Qed.

Lemma compilations_fetch n b u :
  compilations n (es ++ [FetchBundleSource b u]) = compilations n es.
Proof. unfold compilations. rewrite count_app. unfold count. simpl. lia. Qed.

Lemma retrievals_compile n b :
  retrievals n (es ++ [CompileSource b]) = retrievals n es.
Proof. unfold retrievals. rewrite count_app. unfold count. simpl. lia. Qed.

(** The retrieval begins: the first and only one for this name. *)
Lemma Counted_fetch p m u :
  ts !! p = Some (Loading (Preprocessing m u)) →
  Counted lc (<[p := Loading (Fetching m)]> ts)
          (es ++ [FetchBundleSource (name m) u]).
Proof.
  intros Hp. destruct K as [Kfresh Kpre Kfetching Konce].
  destruct C as [Clist Cvalid Cinj Cloading Cpost Cdone].
  pose proof (Cloading _ _ Hp) as Hm. simpl in Hm.
  destruct (Kpre _ _ _ Hp) as [R0 C0].
  split; intros *; rewrite ?retrievals_snoc, ?compilations_fetch.
  - intros H. rewrite bool_decide_false by congruence.
    destruct (Kfresh _ H). lia.
  - intros [(_ & ? & _)|[Hq H]]%list_lookup_insert_Some; [done|].
    pose proof (Cloading _ _ H) as Hm'. simpl in Hm'.
    rewrite bool_decide_false; [destruct (Kpre _ _ _ H); lia|].
    intros E. rewrite E in Hm. congruence.
  - intros [(_ & E & _)|[Hq H]]%list_lookup_insert_Some; [|eauto].
    by injection E as <-.
  - destruct (Konce n). case_bool_decide; [subst n|]; lia.
Qed.

(** The compilation begins: the first and only one for this name. *)
Lemma Counted_compile p m x :
  ts !! p = Some (Loading (Fetching m)) →
  (∀ m' u', x ≠ Loading (Preprocessing m' u')) → (∀ m', x ≠ Loading (Fetching m')) →
  Counted lc (<[p := x]> ts) (es ++ [CompileSource (name m)]).
Proof.
  intros Hp Hx Hx'. destruct K as [Kfresh Kpre Kfetching Konce].
  destruct C as [Clist Cvalid Cinj Cloading Cpost Cdone].
  pose proof (Cloading _ _ Hp) as Hm. simpl in Hm.
  pose proof (Kfetching _ _ Hp) as C0.
  split; intros *; rewrite ?compilations_snoc, ?retrievals_compile.
  - intros H. rewrite bool_decide_false by congruence.
    destruct (Kfresh _ H). lia.
  - intros [(_ & -> & _)|[Hq H]]%list_lookup_insert_Some; [by destruct (Hx m0 u)|].
    pose proof (Cloading _ _ H) as Hm'. simpl in Hm'.
    rewrite bool_decide_false; [destruct (Kpre _ _ _ H); lia|].
    intros E. rewrite E in Hm. congruence.
  - intros [(_ & -> & _)|[Hq H]]%list_lookup_insert_Some; [by destruct (Hx' m0)|].
    pose proof (Cloading _ _ H) as Hm'. simpl in Hm'.
    rewrite bool_decide_false; [by rewrite (Kfetching _ _ H)|].
    intros E. rewrite E in Hm. congruence.
  - destruct (Konce n). case_bool_decide; [subst n|]; lia.
Qed.
End counted.

Lemma Counts_emit t l : Counts t → quiet l → Counts (emit t l).
Proof. intros K Hl. by apply Counted_quiet. Qed.

Lemma Counts_loadBundleByManifest m t :
  Counts t → Counts (loadBundleByManifest m t).2.
Proof.
  intros K. unfold loadBundleByManifest.
  destruct (bundlesCache t !! name m) eqn:Hc; simpl.
  { by apply Counted_push. }
  destruct (loadersCache t !! name m) eqn:Hl; simpl; [done|].
  destruct (urlFormatter t); simpl; [|done].
  unfold Counts; simpl. apply Counted_fresh; [|done].
  apply Counted_quiet; [done|]. by apply quiet_cons.
Qed.

Lemma Counts_map_calls ms t :
  Counts t → Counts (map_calls loadBundleByManifest ms t).2.
Proof.
  revert t. induction ms as [|m ms IH]; intros t K; simpl; [done|].
  unfold bind.
  pose proof (Counts_loadBundleByManifest m t K) as K1.
  destruct (loadBundleByManifest m t) as [[v|p] t1]; simpl in *; [done|].
  specialize (IH t1 K1).
  by destruct (map_calls loadBundleByManifest ms t1) as [[v|ps] t2].
Qed.

Lemma Counts_bulk call strategy t : Counts t → Counts (bulk call strategy t).
Proof.
  intros K. unfold bulk, bulkLoadBundles. simpl.
  assert (Counts (emit t [BulkLoad call strategy])) as K1.
  { apply Counts_emit; [done|]. by apply quiet_cons. }
  destruct (bundlesList t) as [l|] eqn:Hbl; simpl; [|exact K1].
  pose proof (Counts_map_calls
    (List.filter (λ m, bool_decide (loadStrategy m = strategy)) l) _ K1) as K2.
  by destruct (map_calls _ _ _) as [[v|ps] t2].
Qed.

Lemma Counts_settle_caught p m error t :
  Counts t → Counts (settle p (caught m error) t).
Proof.
  intros K. unfold settle, Counts. simpl.
  pose proof (quiet_caught m error) as Hq.
  destruct (caught_cases m error) as [[x E]|[x E]]; rewrite E in *; simpl in *.
  all: apply Counted_settle; [|done].
  all: by apply Counted_quiet.
Qed.

Lemma Counts_step t e : Inv t → Counts t → Counts (step t e).
Proof.
  intros C K. destruct e; simpl; try done.
  - unfold init_call, bind, startupCheck.
    destruct (urlFormatter t); [|done]. by destruct (entrypoint t).
  - unfold then_manifests.
    destruct (calls t !! call) as [[]|]; try done.
    destruct parsed; [done|]. by destruct (entrypoint t).
  - unfold then_listed.
    destruct (calls t !! call) as [[]|]; try done. by apply Counts_bulk.
  - unfold then_start.
    destruct (calls t !! call) as [[| |r| | | |]|]; try done.
    assert (Counts (emit t [RunnerCalled call])) as K1.
    { apply Counts_emit; [done|]. by apply quiet_cons. }
    by destruct r.
  - unfold then_runner.
    destruct (calls t !! call) as [[]|]; try done.
    destruct o; [|done]. apply Counts_bulk.
    apply Counts_emit; [done|]. by apply quiet_cons.
  - unfold then_all.
    destruct (calls t !! call) as [[]|]; try done.
    destruct (rejection _ _); [done|].
    destruct (fulfilments _ _); [|done].
    apply (Counts_emit t); [done|]. apply quiet_start_exports.
  - unfold loadBundleByName.
    destruct (bundlesList t) eqn:Hbl; [|done].
    destruct (find _ _); [|done].
    by apply Counts_loadBundleByManifest.
  - unfold then_preprocessors.
    destruct (tasks t !! loader) as [[[]| |]|] eqn:Hp; try done.
    destruct o; [|by eapply Counts_settle_caught].
    by eapply Counted_fetch.
  - unfold then_fetched.
    destruct (tasks t !! loader) as [[[]| |]|] eqn:Hp; try done.
    destruct (fetchBundleSource f); [by eapply Counts_settle_caught|].
    simpl. destruct (compileSource _ _ _).
    + unfold settle, Counts. simpl.
      pose proof (quiet_caught manifest t0) as Hq.
      destruct (caught_cases manifest t0) as [[x E]|[x E]]; rewrite E in *; simpl in *.
      all: apply Counted_quiet; [|done].
      all: by eapply Counted_compile.
    + unfold Counts. simpl.
      apply Counted_quiet; [|by apply quiet_cons].
      by eapply Counted_compile.
  - unfold then_postprocessors.
    destruct (tasks t !! loader) as [[[]| |]|] eqn:Hp; try done.
    destruct o; [|by eapply Counts_settle_caught].
    unfold settle, Counts. simpl. rewrite app_nil_r. by apply Counted_settle.
  - unfold manuallyDefineBundle.
    destruct (bundlesList t) eqn:Hbl; [|done].
    destruct (start (exports bundle)); simpl.
    all: destruct (bundlesCache t !! name manifest) eqn:Hc; simpl; try done.
    all: apply (Counts_emit t); [done|]; by apply quiet_cons.
Qed.

Lemma Counts_run es t : Inv t → Counts t → Counts (run es t).
Proof.
  revert t. induction es as [|e es IH]; intros t C K; [done|].
  apply IH; [by apply Inv_step | by apply Counts_step].
Qed.

(** ** The order of the runner and the immediate pass *)

Lemma untouched_nil call : untouched call [].
Proof. unfold untouched. split_and!; apply not_elem_of_nil. Qed.

Lemma untouched_app call l1 l2 :
  untouched call l1 → untouched call l2 → untouched call (l1 ++ l2).
Proof.
  intros (?&?&?) (?&?&?). unfold untouched.
  rewrite !not_elem_of_app. done.
Qed.

Lemma untouched_cons call e l :
  e ≠ RunnerCalled call → e ≠ RunnerFulfilled call → e ≠ BulkLoad call IMMEDIATELY →
  untouched call l → untouched call (e :: l).
Proof.
  intros ??? (?&?&?). unfold untouched. rewrite !not_elem_of_cons. done.
Qed.

Lemma untouched_preparing call l : preparing l → untouched call l.
Proof.
  intros H. induction H as [|e l [n ->] _ IH]; [apply untouched_nil|].
  by apply untouched_cons.
Qed.

Lemma untouched_caught call m error : untouched call (caught m error).1.
Proof.
  destruct (caught_cases m error) as [[x ->]|[x ->]]; simpl.
  - apply untouched_nil.
  - apply untouched_cons; try done. apply untouched_nil.
Qed.

Lemma untouched_start_exports call bs : untouched call (start_exports bs).
Proof.
  unfold start_exports. induction bs as [|[[[[e|] v]]|] bs IH]; simpl; try done.
  - apply untouched_nil.
  - by apply untouched_cons.
Qed.

Lemma runner_first_nil call : runner_first call [].
Proof. intros pre post H. by destruct pre. Qed.

Lemma runner_first_snoc call l e :
  runner_first call l → e ≠ BulkLoad call IMMEDIATELY → runner_first call (l ++ [e]).
Proof.
  intros H He pre post E.
  destruct post as [|y post _] using rev_ind.
  - apply app_inj_tail in E as [_ ->]. done.
  - rewrite app_comm_cons, app_assoc in E.
    apply app_inj_tail in E as [-> _]. by eapply H.
Qed.

Lemma runner_first_app call l l' :
  runner_first call l → BulkLoad call IMMEDIATELY ∉ l' → runner_first call (l ++ l').
Proof.
  revert l. induction l' as [|e l' IH]; intros l H Hl'.
  - by rewrite app_nil_r.
  - apply not_elem_of_cons in Hl' as [He Hl'].
    rewrite cons_middle, app_assoc. apply IH; [|done].
    apply runner_first_snoc; [done|congruence].
Qed.

Lemma runner_first_bulk call l :
  runner_first call l →
  RunnerCalled call ∈ l →
  runner_first call ((l ++ [RunnerFulfilled call]) ++ [BulkLoad call IMMEDIATELY]).
Proof.
  intros H Hc pre post E.
  destruct post as [|y post _] using rev_ind.
  - apply app_inj_tail in E as [<- _].
    apply list_elem_of_split in Hc as (a & b & ->).
    exists a, b, []. by rewrite <-app_assoc.
  - rewrite app_comm_cons, app_assoc in E.
    apply app_inj_tail in E as [E _].
    assert (runner_first call (l ++ [RunnerFulfilled call])) as H'.
    { by apply runner_first_snoc. }
    by eapply H'.
Qed.

Lemma phase_ok_app call ph l l' :
  phase_ok call ph l → untouched call l' → phase_ok call ph (l ++ l').
Proof.
  intros H (?&?&?). destruct ph as [[]|]; simpl in *; try done.
  all: try by apply untouched_app.
  destruct H as (?&?&?). rewrite !not_elem_of_app, elem_of_app. by split_and!; [left|..].
Qed.

Section sequenced.
Context {cs : list Phase} {es : list Effect}.
Hypothesis S : Sequenced cs es.

Lemma Sequenced_emit l : (∀ call, untouched call l) → Sequenced cs (es ++ l).
Proof.
  intros Hl call. destruct (S call) as [H1 H2]. split.
  - apply runner_first_app; [done|]. apply Hl.
  - by apply phase_ok_app.
Qed.

Lemma Sequenced_snoc ph :
  phase_ok (length cs) (Some ph) es = phase_ok (length cs) None es →
  Sequenced (cs ++ [ph]) es.
Proof.
  intros Hph call. destruct (S call) as [H1 H2]. split; [done|].
  destruct (decide (call < length cs)) as [Hlt|Hge].
  - by rewrite lookup_app_l.
  - destruct (decide (call = length cs)) as [->|Hne].
    + rewrite lookup_app_r, Nat.sub_diag by done.
      change ([ph] !! 0) with (Some ph). rewrite Hph. rewrite lookup_ge_None_2 in H2 by done. done.
    + rewrite lookup_ge_None_2; [|rewrite length_app; simpl; lia].
      rewrite lookup_ge_None_2 in H2 by lia. done.
Qed.

Lemma Sequenced_insert c ph :
  (phase_ok c (cs !! c) es → phase_ok c (Some ph) es) →
  Sequenced (<[c := ph]> cs) es.
Proof.
  intros Hph call. destruct (S call) as [H1 H2]. split; [done|].
  rewrite list_lookup_insert. case_decide as Hc; [|done].
  destruct Hc as [<- _]. auto.
Qed.
End sequenced.

Lemma Sequenced_start cs es c runner ph :
  Sequenced cs es → cs !! c = Some (StartQueued runner) →
  ph = StartRunning ∨ final ph →
  Sequenced (<[c := ph]> cs) (es ++ [RunnerCalled c]).
Proof.
  intros S Hc Hph call. destruct (S call) as [H1 H2]. split.
  { by apply runner_first_snoc. }
  rewrite list_lookup_insert. case_decide as Hcall.
  - destruct Hcall as [<- _]. rewrite Hc in H2. simpl in H2.
    destruct H2 as (?&?&?).
    destruct Hph as [->|Hph]; [|by destruct ph]. simpl.
    rewrite !not_elem_of_app, elem_of_app, !not_elem_of_cons, list_elem_of_singleton.
    split_and!; try done; try apply not_elem_of_nil. by right.
  - apply phase_ok_app; [done|].
    assert (c ≠ call) as Hne.
    { intros <-. apply Hcall. split; [done|]. by eapply lookup_lt_Some. }
    apply untouched_cons; try congruence. apply untouched_nil.
Qed.

Lemma Sequenced_runner cs es c l ph :
  Sequenced cs es → cs !! c = Some StartRunning → preparing l → final ph →
  Sequenced (<[c := ph]> cs)
            ((es ++ [RunnerFulfilled c]) ++ BulkLoad c IMMEDIATELY :: l).
Proof.
  intros S Hc Hl Hph call. destruct (S call) as [H1 H2].
  rewrite list_lookup_insert. case_decide as Hcall.
  - destruct Hcall as [<- _]. rewrite Hc in H2. simpl in H2.
    destruct H2 as (?&?&?). split; [|by destruct ph].
    rewrite cons_middle, app_assoc. apply runner_first_app.
    + by apply runner_first_bulk.
    + by apply untouched_preparing.
  - assert (c ≠ call) as Hne.
    { intros <-. apply Hcall. split; [done|]. by eapply lookup_lt_Some. }
    assert (untouched call ((RunnerFulfilled c :: BulkLoad c IMMEDIATELY :: l))) as Hu.
    { do 2 (apply untouched_cons; try congruence). by apply untouched_preparing. }
    rewrite <-app_assoc. simpl. split.
    + apply runner_first_app; [done|]. apply Hu.
    + by apply phase_ok_app.
Qed.

(** What a bulk pass adds to the effects and does to its call. *)
Lemma bulk_shape call strategy t :
  ∃ l ph, effects (bulk call strategy t) = effects t ++ BulkLoad call strategy :: l ∧
          preparing l ∧ final ph ∧
          calls (bulk call strategy t) = <[call := ph]> (calls t).
Proof.
  unfold bulk, bulkLoadBundles. simpl.
  destruct (bundlesList t) as [ms|]; simpl.
  - pose proof (map_calls_frame
      (List.filter (λ m, bool_decide (loadStrategy m = strategy)) ms)
      (emit t [BulkLoad call strategy])) as (_&_&_&Hc&_&_&_&_&l&E&Hl).
    destruct (map_calls _ _ _) as [[v|ps] t2]; simpl in *.
    + exists l, Aborted. rewrite E, Hc, <-app_assoc. done.
    + exists l, (BulkWaiting ps). rewrite E, Hc, <-app_assoc. done.
  - exists [], Aborted. split_and!; try done. constructor.
Qed.

Lemma Ordered_new : Ordered new.
Proof. intros call. split; [apply runner_first_nil|]. simpl. apply untouched_nil. Qed.

Lemma Ordered_step t e : Ordered t → Ordered (step t e).
Proof.
  intros S. destruct e; simpl; try done.
  - unfold init_call, bind, startupCheck.
    destruct (urlFormatter t); [|done]. destruct (entrypoint t); [|done].
    simpl. by apply Sequenced_snoc.
  - unfold then_manifests.
    destruct (calls t !! call) as [[]|] eqn:Hc; try done.
    destruct parsed; [by apply Sequenced_insert|].
    destruct (entrypoint t); [|by apply Sequenced_insert].
    apply (Sequenced_insert S). by rewrite Hc.
  - unfold then_listed.
    destruct (calls t !! call) as [[]|] eqn:Hc; try done.
    destruct (bulk_shape call BLOCK t) as (l & ph & E & Hl & Hph & Ec).
    unfold Ordered. rewrite E, Ec.
    apply Sequenced_insert; [|by destruct ph].
    apply Sequenced_emit; [done|]. intros k.
    apply untouched_cons; try done. by apply untouched_preparing.
  - by apply Sequenced_snoc.
  - unfold then_start.
    destruct (calls t !! call) as [[| |r| | | |]|] eqn:Hc; try done.
    destruct r; unfold Ordered; simpl.
    all: eapply Sequenced_start; try done.
    + by right.
    + by left.
  - unfold then_runner.
    destruct (calls t !! call) as [[]|] eqn:Hc; try done.
    destruct o; [|by apply Sequenced_insert].
    destruct (bulk_shape call IMMEDIATELY (emit t [RunnerFulfilled call]))
      as (l & ph & E & Hl & Hph & Ec).
    unfold Ordered. rewrite E, Ec. simpl. by apply Sequenced_runner.
  - unfold then_all.
    destruct (calls t !! call) as [[]|] eqn:Hc; try done.
    destruct (rejection _ _); [by apply Sequenced_insert|].
    destruct (fulfilments _ _); [|done].
    unfold Ordered. simpl. apply Sequenced_insert; [|done].
    apply Sequenced_emit; [done|]. intros k. apply untouched_start_exports.
  - unfold loadBundleByName.
    destruct (bundlesList t) eqn:Hbl; [|done].
    destruct (find _ _) as [m|]; [|done].
    destruct (loadBundleByManifest_frame m t) as (_&_&_&Hc&_&_&_&_&l'&E&Hl).
    unfold Ordered. rewrite E, Hc.
    apply Sequenced_emit; [done|]. intros k. by apply untouched_preparing.
  - unfold then_preprocessors.
    destruct (tasks t !! loader) as [[[]| |]|] eqn:Hp; try done.
    destruct o.
    + apply (Sequenced_emit S). intros k.
      apply untouched_cons; try done. apply untouched_nil.
    + apply (Sequenced_emit S). intros k. apply untouched_caught.
  - unfold then_fetched.
    destruct (tasks t !! loader) as [[[]| |]|] eqn:Hp; try done.
    destruct (fetchBundleSource f).
    { apply (Sequenced_emit S). intros k. apply untouched_caught. }
    assert (Ordered (emit t [CompileSource (name manifest)])) as S1.
    { apply (Sequenced_emit S). intros k.
      apply untouched_cons; try done. apply untouched_nil. }
    simpl. destruct (compileSource _ _ _).
    + apply (Sequenced_emit S1). intros k. apply untouched_caught.
    + apply (Sequenced_emit S1). intros k.
      apply untouched_cons; try done. apply untouched_nil.
  - unfold then_postprocessors.
    destruct (tasks t !! loader) as [[[]| |]|] eqn:Hp; try done.
    destruct o.
    + apply (Sequenced_emit S). intros k. apply untouched_nil.
    + apply (Sequenced_emit S). intros k. apply untouched_caught.
  - unfold manuallyDefineBundle.
    destruct (bundlesList t) eqn:Hbl; [|done].
    destruct (start (exports bundle)); simpl.
    all: destruct (bundlesCache t !! name manifest) eqn:Hc; simpl; try done.
    all: apply (Sequenced_emit S); intros k.
    all: apply untouched_cons; try done; apply untouched_nil.
Qed.

Lemma Ordered_run es t : Ordered t → Ordered (run es t).
Proof.
  revert t. induction es as [|e es IH]; intros t S; [done|].
  apply IH. by apply Ordered_step.
Qed.

(** ** What stays once it is there *)

Lemma grows_refl t : grows t t.
Proof. by split_and!. Qed.

Lemma grows_trans t1 t2 t3 : grows t1 t2 → grows t2 t3 → grows t1 t3.
Proof. intros (?&?&?) (?&?&?). split_and!; eauto. Qed.

(** A pending task changes its stage or settles; nothing else changes but
    the effects. *)
Lemma grows_task t p s x l :
  tasks t !! p = Some (Loading s) →
  (∀ s', x = Loading s' →
         name (stage_manifest s') = name (stage_manifest s) ∧
         ((∃ m cm, s = Postprocessing m cm) → ∃ m cm, s' = Postprocessing m cm)) →
  grows t (with_tasks (emit t l) (<[p := x]> (tasks t))).
Proof.
  intros Hp Hx. split_and!; simpl; try done.
  - intros q y Hq Hy. rewrite list_lookup_insert_ne; [done|].
    intros <-. rewrite Hp in Hq. injection Hq as <-. by destruct (Hy s).
  - intros n cm [Hc Hk]. split; [done|]. simpl.
    intros q s' [(<- & -> & _)|[_ H]]%list_lookup_insert_Some Hn; [|eauto].
    destruct (Hx s' eq_refl) as [En Hs]. apply Hs. eapply Hk; [done|]. congruence.
Qed.

Lemma grows_settle t p s m error :
  tasks t !! p = Some (Loading s) → grows t (settle p (caught m error) t).
Proof.
  intros Hp. unfold settle. simpl.
  eapply (grows_task t p s _ (caught m error).1); [done|].
  intros s' E. by destruct (caught_cases m error) as [[x Hx]|[x Hx]]; rewrite Hx in E.
Qed.

Lemma grows_loadBundleByManifest m t : grows t (loadBundleByManifest m t).2.
Proof.
  unfold loadBundleByManifest.
  destruct (bundlesCache t !! name m) eqn:Hc; simpl.
  { split_and!; simpl; try done.
    - intros p x Hp _. by apply lookup_app_l_Some.
    - intros n cm [Hn Hk]. split; [done|]. simpl.
      intros p st [[_ H]|[_ H]]%lookup_snoc_Some; [eauto|done]. }
  destruct (loadersCache t !! name m) eqn:Hl; simpl; [apply grows_refl|].
  destruct (urlFormatter t); simpl; [|apply grows_refl].
  split_and!; simpl.
  - intros n p Hn. rewrite lookup_insert_ne; [done|]. congruence.
  - intros p x Hp _. by apply lookup_app_l_Some.
  - intros n cm [Hn Hk]. split; [done|]. simpl.
    intros p st [[_ H]|[_ H]]%lookup_snoc_Some; [eauto|].
    injection H as <-. simpl. congruence.
Qed.

Lemma grows_map_calls ms t : grows t (map_calls loadBundleByManifest ms t).2.
Proof.
  revert t. induction ms as [|m ms IH]; intros t; simpl; [apply grows_refl|].
  unfold bind.
  pose proof (grows_loadBundleByManifest m t) as G1.
  destruct (loadBundleByManifest m t) as [[v|p] t1]; simpl in *; [done|].
  specialize (IH t1).
  destruct (map_calls loadBundleByManifest ms t1) as [[v|ps] t2]; simpl in *.
  all: by eapply grows_trans.
Qed.

(** Changes of the calls, the effects and the settings do not matter. *)
Lemma grows_same t t' :
  loadersCache t' = loadersCache t → tasks t' = tasks t →
  bundlesCache t' = bundlesCache t → grows t t'.
Proof.
  intros E1 E2 E3. unfold grows, Kept. rewrite E1, E2, E3. by split_and!.
Qed.

Lemma grows_bulk call strategy t : grows t (bulk call strategy t).
Proof.
  unfold bulk, bulkLoadBundles. simpl.
  destruct (bundlesList t) as [ms|]; simpl; [|by apply grows_same].
  pose proof (grows_map_calls
    (List.filter (λ m, bool_decide (loadStrategy m = strategy)) ms)
    (emit t [BulkLoad call strategy])) as G.
  destruct (map_calls _ _ _) as [[v|ps] t2]; simpl in *.
  all: eapply grows_trans;
         [by apply (grows_same t (emit t [BulkLoad call strategy]))|].
  all: eapply grows_trans; [exact G|]; by apply grows_same.
Qed.

Lemma grows_step t e : grows t (step t e).
Proof.
  destruct e; simpl; try by apply grows_same.
  - unfold init_call, bind, startupCheck.
    destruct (urlFormatter t); [|apply grows_refl].
    destruct (entrypoint t); [|apply grows_refl]. by apply grows_same.
  - unfold then_manifests.
    destruct (calls t !! call) as [[]|]; try apply grows_refl.
    destruct parsed; [by apply grows_same|].
    destruct (entrypoint t); by apply grows_same.
  - unfold then_listed.
    destruct (calls t !! call) as [[]|]; try apply grows_refl. apply grows_bulk.
  - unfold then_start.
    destruct (calls t !! call) as [[| |r| | | |]|]; try apply grows_refl.
    destruct r; by apply grows_same.
  - unfold then_runner.
    destruct (calls t !! call) as [[]|]; try apply grows_refl.
    destruct o; [|by apply grows_same].
    eapply grows_trans; [|apply grows_bulk]. by apply grows_same.
  - unfold then_all.
    destruct (calls t !! call) as [[]|]; try apply grows_refl.
    destruct (rejection _ _); [by apply grows_same|].
    destruct (fulfilments _ _); [by apply grows_same|apply grows_refl].
  - unfold loadBundleByName.
    destruct (bundlesList t); [|apply grows_refl].
    destruct (find _ _); [|apply grows_refl]. apply grows_loadBundleByManifest.
  - unfold then_preprocessors.
    destruct (tasks t !! loader) as [[[]| |]|] eqn:Hp; try apply grows_refl.
    destruct o; [|by eapply grows_settle].
    eapply (grows_task t loader _ _ [_]); [done|].
    intros s' E. injection E as <-. split; [done|]. by intros (?&?&?).
  - unfold then_fetched.
    destruct (tasks t !! loader) as [[[]| |]|] eqn:Hp; try apply grows_refl.
    destruct (fetchBundleSource f); [by eapply grows_settle|].
    simpl. destruct (compileSource _ _ _).
    + eapply grows_trans;
        [by apply (grows_same t (emit t [CompileSource (name manifest)]))|].
      by eapply grows_settle.
    + split_and!; simpl; try done.
      * intros q y Hq Hy. rewrite list_lookup_insert_ne; [done|].
        intros <-. rewrite Hp in Hq. injection Hq as <-. by destruct (Hy (Fetching manifest)).
      * intros n cm [Hc Hk].
        assert (name manifest ≠ n) as Hne.
        { intros E. by destruct (Hk _ _ Hp E) as (?&?&?). }
        split; simpl; [by rewrite lookup_insert_ne|].
        intros q s' [(<- & E & _)|[_ H]]%list_lookup_insert_Some Hn; [|eauto].
        injection E as <-. by eexists _, _.
  - unfold then_postprocessors.
    destruct (tasks t !! loader) as [[[]| |]|] eqn:Hp; try apply grows_refl.
    destruct o; [|by eapply grows_settle].
    unfold settle. simpl. by eapply (grows_task t loader _ _ []).
  - unfold manuallyDefineBundle.
    destruct (bundlesList t); [|apply grows_refl].
    assert (∀ t1 : ModuleLoaderTool,
      loadersCache t1 = loadersCache t → tasks t1 = tasks t →
      bundlesCache t1 = bundlesCache t →
      grows t (match bundlesCache t1 !! name manifest with
               | Some _ => (inl (Err Error ("Manifest with name " +:+ dq +:+
                              name manifest +:+ dq +:+ " already defined, break;")), t1)
               | None => (inr (), with_bundlesCache t1
                                    (<[name manifest := bundle]> (bundlesCache t1)))
               end).2) as H.
    { intros t1 E1 E2 E3.
      destruct (bundlesCache t1 !! name manifest) eqn:Hc; simpl; [by apply grows_same|].
      unfold grows, Kept. simpl. rewrite E1, E2, E3. split_and!; try done.
      intros n cm [Hn Hk]. split; [|done].
      rewrite lookup_insert_ne; [done|]. intros E. rewrite E3 in Hc. congruence. }
    destruct (start (exports bundle)); by apply H.
Qed.

Lemma grows_run es t : grows t (run es t).
Proof.
  revert t. induction es as [|e es IH]; intros t; [apply grows_refl|].
  eapply grows_trans; [apply grows_step | apply IH].
Qed.

(** ** The source compiler *)

(** [compileSource] never throws what the source or [require] threw: when
    the message of that value can be read, it throws a [CompileModuleError]
    with that message, and otherwise what reading the message throws. *)
Lemma compileSource_error_class source dependencies unknownResolver v :
  compileSource source dependencies unknownResolver = inl v →
  ∃ ex, eval (require dependencies unknownResolver) source = inl ex ∧
        match message_of ex with
        | inr msg => v = Err CompileModuleError ("Cant compile module: " +:+ msg)
        | inl thrown => v = thrown
        end.
Proof.
  unfold compileSource.
  destruct (eval _ source) as [ex|e]; [|done].
  intros H. exists ex. split; [done|].
  destruct (message_of ex); by injection H as <-.
Qed.

(** C3, at the input that shows the defect: the source text asks for a
    dependency that neither the map nor the resolver has.  [require] throws
    a [NoDependencyError] inside [eval], the [catch] around [eval] takes it
    and [compileSource] throws a [CompileModuleError] instead, so that the
    caller cannot tell a missing dependency from bad code by the class of
    the error. *)
Theorem missing_dependency_thrown_as_compile_error :
  require ∅ (Some (λ _, None)) "x"
  = inl (Err NoDependencyError
           ("Dependency " +:+ dq +:+ "x" +:+ dq +:+
            " does not provided by core application")) ∧
  compileSource asks_for_x ∅ (Some (λ _, None))
  = inl (Err CompileModuleError
           ("Cant compile module: Dependency " +:+ dq +:+ "x" +:+ dq +:+
            " does not provided by core application")).
Proof. split; reflexivity. Qed.

(** C4, at the input that shows the defect: with no resolver configured
    and an empty dependency map, [require] of the name [x], and of every
    name that an empty object does not inherit a value for, returns
    [undefined], and the compiled code goes on with it. *)
Theorem require_without_resolver_returns_undefined :
  require ∅ None "x" = inr None ∧
  (∀ n : string, n ∉ object_prototype_names → require ∅ None n = inr None) ∧
  compileSource asks_for_x ∅ None
  = inr {| exports := {| start := None; value := 0 |} |}.
Proof.
  split_and!; [reflexivity| |reflexivity].
  intros n Hn. unfold require. rewrite lookup_empty. by rewrite bool_decide_false.
Qed.

(** With a resolver that yields nothing, [require] does throw, unless the
    dependency map inherits a value under the name. *)
Lemma require_resolver_yields_nothing dependencies resolver n :
  dependencies !! n = None → n ∉ object_prototype_names → resolver n = None →
  ∃ msg, require dependencies (Some resolver) n = inl (Err NoDependencyError msg).
Proof.
  intros H1 Hn H2. unfold require. rewrite H1, bool_decide_false, H2 by done. eauto.
Qed.

(** Under a name that a plain object inherits a value for, [require] asks
    no resolver and throws nothing. *)
Lemma require_inherited dependencies unknownResolver n :
  dependencies !! n = None → n ∈ object_prototype_names →
  require dependencies unknownResolver n = inr (Some (Inherited n)).
Proof. intros H1 Hn. unfold require. by rewrite H1, bool_decide_true. Qed.

(** ** The per-manifest load *)

(** The first call for a name registers the task it returns. *)
Lemma loadBundleByManifest_registers m t p t' :
  bundlesCache t !! name m = None →
  loadBundleByManifest m t = (inr p, t') →
  loadersCache t' !! name m = Some p.
Proof.
  intros Hc. unfold loadBundleByManifest. rewrite Hc.
  destruct (loadersCache t !! name m) eqn:Hl; [by intros [= <- <-]|].
  destruct (urlFormatter t); [|done].
  intros [= <- <-]. simpl. apply lookup_insert_eq.
Qed.

(** C1 as stated fails: while the first load of [c] is still pending in its
    postprocessors, a second call gets another task (1, not 0), already
    resolved to the module; when the postprocessors then fail, the first
    caller sees no module and the second caller sees the module. *)
Lemma second_call_during_postprocessing :
  loadersCache postprocessing_c !! "c" = Some 0 ∧
  tasks postprocessing_c !! 0 = Some (Loading (Postprocessing bundle_c module_c)) ∧
  (loadBundleByManifest bundle_c postprocessing_c).1 = inr 1 ∧
  tasks (run [ThenPostprocessors 0 (Failed Other)]
           (loadBundleByManifest bundle_c postprocessing_c).2)
  = [Resolved None; Resolved (Some module_c)].
Proof. split_and!; reflexivity. Qed.

(** A rejection with an error object, and everything else that has a
    message, is contained: it is logged and the task resolves to no
    module. *)
Lemma caught_error m class msg :
  caught m (Err class msg)
  = ([ConsoleError ("Module: " +:+ name m +:+ ". Error: " +:+ msg)], Resolved None).
Proof. reflexivity. Qed.

(** What the retrieval throws is the [LoadBundleError] for the status of
    the response, an error object that the final [catch] contains, or the
    reason of the rejection of [fetch]. *)
Lemma fetchBundleSource_error f error :
  fetchBundleSource f = inl error →
  (∃ status text, f = Response status text ∧ InvalidHttpStatusStart ≤ status ∧
                  error = Err LoadBundleError
                            ("Cant load bundle, http error " +:+ pretty status)) ∨
  f = NetworkFailure error.
Proof.
  destruct f as [status text|reason]; simpl; [|intros [= <-]; auto].
  case_bool_decide; [intros [= <-]; left; eauto|done].
Qed.

(** A failure of the retrieval or of the compilation (a missing dependency
    included), when what is thrown has a message, is logged with the name
    of the manifest, and the task resolves to no module: the step of a load
    after the preprocessors goes on, ends that way, or, when the message of
    what was thrown cannot be read, rejects the task. *)
Lemma failure_after_preprocessors_contained t p m f :
  tasks t !! p = Some (Loading (Fetching m)) →
  (∃ cm, tasks (then_fetched p f t) !! p = Some (Loading (Postprocessing m cm))) ∨
  (tasks (then_fetched p f t) !! p = Some (Resolved None) ∧
   ∃ msg, last (effects (then_fetched p f t))
          = Some (ConsoleError ("Module: " +:+ name m +:+ ". Error: " +:+ msg))) ∨
  (∃ error r,
     (fetchBundleSource f = inl error ∨
      ∃ source, fetchBundleSource f = inr source ∧
                compileSource source (dependencies t) (unknownDependencyResolver t)
                = inl error) ∧
     message_of error = inl r ∧
     tasks (then_fetched p f t) !! p = Some (Rejected r)).
Proof.
  intros Hp. pose proof (lookup_lt_Some _ _ _ Hp) as Hlt.
  unfold then_fetched. rewrite Hp.
  destruct (fetchBundleSource f) as [error|source] eqn:Hf.
  { right. unfold settle, caught.
    destruct (message_of error) as [r|msg] eqn:Hm; simpl.
    - right. exists error, r. split_and!; [by left|done|].
      by rewrite list_lookup_insert_eq.
    - left. rewrite list_lookup_insert_eq by done.
      split; [done|]. exists msg. by rewrite last_snoc. }
  simpl. destruct (compileSource _ _ _) as [error|cm] eqn:Hcs.
  - right. unfold settle, caught.
    destruct (message_of error) as [r|msg] eqn:Hm; simpl.
    + right. exists error, r. split_and!; [right; by exists source|done|].
      by rewrite list_lookup_insert_eq.
    + left. rewrite list_lookup_insert_eq by done.
      split; [done|]. exists msg. by rewrite last_snoc.
  - left. exists cm. simpl. by rewrite list_lookup_insert_eq.
Qed.

Lemma postprocessor_failure_contained t p m cm reason :
  tasks t !! p = Some (Loading (Postprocessing m cm)) →
  tasks (then_postprocessors p (Failed reason) t) !! p = Some (Resolved None) ∧
  effects (then_postprocessors p (Failed reason) t)
  = effects t ++ [ConsoleError ("Module: " +:+ name m +:+ ". Error: Postprocessor crashed")].
Proof.
  intros Hp. pose proof (lookup_lt_Some _ _ _ Hp) as Hlt.
  unfold then_postprocessors. rewrite Hp. unfold settle. simpl.
  by rewrite list_lookup_insert_eq.
Qed.

(** A rejection of the preprocessors is contained when its reason has a
    message to read. *)
Lemma preprocessor_failure_contained t p m u reason msg :
  tasks t !! p = Some (Loading (Preprocessing m u)) →
  message_of reason = inr msg →
  tasks (then_preprocessors p (Failed reason) t) !! p = Some (Resolved None) ∧
  effects (then_preprocessors p (Failed reason) t)
  = effects t ++ [ConsoleError ("Module: " +:+ name m +:+ ". Error: " +:+ msg)].
Proof.
  intros Hp Hm. pose proof (lookup_lt_Some _ _ _ Hp) as Hlt.
  unfold then_preprocessors. rewrite Hp. unfold settle, caught. rewrite Hm. simpl.
  by rewrite list_lookup_insert_eq.
Qed.

(** C2, at the input that shows the defect: the handler of the final
    [catch] reads [error.message] of [undefined], which throws; nothing is
    logged and the task of the load is rejected with that [TypeError]. *)
Theorem rejection_without_reason_escapes :
  loadersCache vetoed_c !! "c" = Some 0 ∧
  tasks vetoed_c !! 0
  = Some (Rejected (Err TypeError "Cannot read property 'message' of undefined")) ∧
  effects vetoed_c = [RunPreprocessors "c"].
Proof. split_and!; reflexivity. Qed.

(** C5 as stated fails: the load of [c] has settled without a module, and
    the next request for [c] returns a task resolved to the module. *)
Lemma settled_failed_then_module :
  loadersCache failed_c !! "c" = Some 0 ∧
  tasks failed_c !! 0 = Some (Resolved None) ∧
  (loadBundleByName "c" failed_c).1 = inr 1 ∧
  tasks (loadBundleByName "c" failed_c).2 !! 1 = Some (Resolved (Some module_c)).
Proof. split_and!; reflexivity. Qed.

(** C5, amended: once the load registered for a name has resolved, every
    later request for the name, after whatever else happened, returns a
    resolved task and has no effect: no retrieval, no compilation, no
    change of the cache.  The task is resolved to the module cached under
    the name if there is one, and is the settled task itself otherwise; a
    load that resolved to a module has that module in the cache. *)
Theorem settled_load_is_memoized (es es' : list Event) (m : Manifest) (p : nat)
    (v : option CompiledModule) :
  loadersCache (run es new) !! name m = Some p →
  tasks (run es new) !! p = Some (Resolved v) →
  ∃ q t',
    loadBundleByManifest m (run es' (run es new)) = (inr q, t') ∧
    effects t' = effects (run es' (run es new)) ∧
    bundlesCache t' = bundlesCache (run es' (run es new)) ∧
    tasks t' !! q
    = Some (Resolved (match bundlesCache t' !! name m with
                      | Some cached => Some cached
                      | None => v
                      end)) ∧
    (bundlesCache t' !! name m = None → q = p) ∧
    (∀ cm, v = Some cm → bundlesCache t' !! name m = Some cm).
Proof.
  intros Hl Hp.
  destruct (grows_run es' (run es new)) as (G1 & G2 & _).
  apply G1 in Hl. apply G2 in Hp; [|done].
  pose proof (Inv_run es' _ (Inv_run es new Consistent_new)) as C.
  set (t := run es' (run es new)) in *.
  assert (∀ cm, v = Some cm → bundlesCache t !! name m = Some cm) as Hv.
  { intros cm ->. by eapply (cons_done _ _ _ _ C). }
  destruct (bundlesCache t !! name m) as [cached|] eqn:Hc.
  - eexists _, _. split; [by apply loadBundleByManifest_cached|]. simpl.
    rewrite Hc. split_and!; try done.
    by rewrite lookup_app_r, Nat.sub_diag.
  - exists p, t. split; [by apply loadBundleByManifest_inflight|].
    rewrite Hc. by split_and!.
Qed.

Lemma settled_load_is_memoized_witness :
  loadersCache (run (configure ++ [LoadBundleByName "c"; ThenPreprocessors 0 (Failed Other)]) new)
    !! name bundle_c = Some 0 ∧
  tasks (run (configure ++ [LoadBundleByName "c"; ThenPreprocessors 0 (Failed Other)]) new)
    !! 0 = Some (Resolved None) ∧
  ∃ q t',
    loadBundleByManifest bundle_c
      (run [Start RunnerReturns]
         (run (configure ++ [LoadBundleByName "c"; ThenPreprocessors 0 (Failed Other)]) new))
    = (inr q, t') ∧
    effects t'
    = effects (run [Start RunnerReturns]
         (run (configure ++ [LoadBundleByName "c"; ThenPreprocessors 0 (Failed Other)]) new)) ∧
    bundlesCache t'
    = bundlesCache (run [Start RunnerReturns]
         (run (configure ++ [LoadBundleByName "c"; ThenPreprocessors 0 (Failed Other)]) new)) ∧
    tasks t' !! q
    = Some (Resolved (match bundlesCache t' !! name bundle_c with
                      | Some cached => Some cached
                      | None => None
                      end)) ∧
    (bundlesCache t' !! name bundle_c = None → q = 0) ∧
    (∀ cm, None = Some cm → bundlesCache t' !! name bundle_c = Some cm).
Proof.
  split; [reflexivity|]. split; [reflexivity|].
  apply (settled_load_is_memoized
           (configure ++ [LoadBundleByName "c"; ThenPreprocessors 0 (Failed Other)])
           [Start RunnerReturns] bundle_c 0 None); reflexivity.
Defined.

(** ** Bulk activation *)

Lemma runner_first_run es call : runner_first call (effects (run es new)).
Proof. by destruct (Ordered_run es new Ordered_new call). Qed.

(** A runner that throws, or whose task is rejected, is never followed by
    the pass. *)
Lemma no_pass_without_fulfilment (es : list Event) (call : nat) :
  RunnerFulfilled call ∉ effects (run es new) →
  BulkLoad call IMMEDIATELY ∉ effects (run es new).
Proof.
  intros Hf Hb. apply list_elem_of_split in Hb as (pre & post & E).
  destruct (runner_first_run es call pre post E) as (a & b & c & ->).
  apply Hf. rewrite E. rewrite <-!app_assoc. simpl.
  rewrite elem_of_app, elem_of_cons, elem_of_app.
  right; right; left. apply elem_of_app. right. apply list_elem_of_here.
Qed.

(** [Promise.all] is either rejected or fulfilled. *)
Lemma rejection_fulfilments ts loads r :
  rejection ts loads = Some r → fulfilments ts loads = None.
Proof.
  unfold rejection, fulfilments.
  induction loads as [|p loads IH]; simpl; [done|].
  destruct (ts !! p) as [[]|]; simpl; try done.
  intros H. by rewrite (IH H).
Qed.

Lemma fulfilments_cons ts p loads :
  fulfilments ts (p :: loads)
  = match ts !! p with
    | Some (Resolved v) =>
      match fulfilments ts loads with
      | Some vs => Some (v :: vs)
      | None => None
      end
    | _ => None
    end.
Proof.
  unfold fulfilments. simpl.
  by destruct (ts !! p) as [[]|].
Qed.

(** What the [forEach] over the results of a pass calls is what the tasks
    of the pass owe. *)
Lemma start_calls_of_fulfilments entry ts loads :
  match fulfilments ts loads with
  | Some compiledBundles =>
    forallb (is_resolved ts) loads = true ∧
    start_calls entry (start_exports compiledBundles)
    = length (List.filter (resolved_to_entry entry ts) loads)
  | None => forallb (is_resolved ts) loads = false
  end.
Proof.
  induction loads as [|p loads IH]; [done|].
  rewrite fulfilments_cons. cbn [forallb List.filter].
  assert (is_resolved ts p
          = match ts !! p with Some (Resolved _) => true | _ => false end) as -> by done.
  assert (resolved_to_entry entry ts p
          = match ts !! p with
            | Some (Resolved (Some m)) => bool_decide (start (exports m) = Some entry)
            | _ => false
            end) as -> by done.
  destruct (ts !! p) as [[s|v|r]|]; try done.
  destruct (fulfilments ts loads) as [vs|]; [|done].
  destruct IH as [-> IH]. split; [done|].
  destruct v as [m|]; [|exact IH]. simpl.
  destruct (start (exports m)) as [x|]; simpl.
  - unfold start_calls, count in *. simpl.
    destruct (decide (x = entry)) as [->|Hne].
    + rewrite !bool_decide_true by done. simpl. by rewrite IH.
    + rewrite !bool_decide_false by congruence. done.
  - exact IH.
Qed.

(** C7 as stated fails both ways: the module of [c], loaded on demand, is
    in the cache and its entry point (3) was never called; the entry point
    of [b] (2) was called by each of two passes. *)
Lemma start_export_not_once :
  bundlesCache loaded_c !! "c" = Some module_c ∧
  tasks loaded_c !! 0 = Some (Resolved (Some module_c)) ∧
  start_calls 3 (effects loaded_c) = 0 ∧
  bundlesCache started_twice !! "b" = Some module_b ∧
  start_calls 2 (effects started_twice) = 2.
Proof. split_and!; reflexivity. Qed.

Lemma start_calls_app entry l1 l2 :
  start_calls entry (l1 ++ l2) = start_calls entry l1 + start_calls entry l2.
Proof. apply count_app. Qed.

Lemma start_calls_preparing entry l : preparing l → start_calls entry l = 0.
Proof. by apply count_preparing. Qed.

Lemma start_calls_bulk entry call strategy t :
  start_calls entry (effects (bulk call strategy t)) = start_calls entry (effects t).
Proof.
  destruct (bulk_shape call strategy t) as (l & ph & -> & Hl & _).
  rewrite start_calls_app.
  change (BulkLoad call strategy :: l) with ([BulkLoad call strategy] ++ l).
  rewrite start_calls_app. rewrite (start_calls_preparing entry l Hl).
  unfold start_calls, count. simpl. lia.
Qed.

(** C7, amended: the entry point of a module is called by the bulk passes
    and by the manual definition, and by nothing else.  Every event adds to
    the calls of an entry point exactly what is due by the tasks: the
    callback of a pass, once all loads of the pass are resolved, one call
    for each of its loads that is resolved to a module with that entry
    point, whether or not an earlier pass called it already; a manual
    definition one call; an on-demand load, a step of a load and every
    other call none. *)
Theorem start_export_called_by_passes (t : ModuleLoaderTool) (e : Event) (entry : nat) :
  start_calls entry (effects (step t e))
  = start_calls entry (effects t) + start_calls_added entry t e.
Proof.
  destruct e; simpl; try lia.
  - unfold init_call, bind, startupCheck.
    destruct (urlFormatter t); [|tally]. destruct (entrypoint t); tally.
  - unfold then_manifests.
    destruct (calls t !! call) as [[]|]; try lia.
    destruct parsed; [tally|]. destruct (entrypoint t); tally.
  - unfold then_listed.
    destruct (calls t !! call) as [[]|]; try lia. rewrite start_calls_bulk. lia.
  - unfold then_start.
    destruct (calls t !! call) as [[| |r| | | |]|]; try lia.
    destruct r; tally.
  - unfold then_runner.
    destruct (calls t !! call) as [[]|]; try lia.
    destruct o; [|tally]. rewrite start_calls_bulk. tally.
  - unfold then_all.
    destruct (calls t !! call) as [[]|]; try lia.
    pose proof (start_calls_of_fulfilments entry (tasks t) loads) as Hdue.
    destruct (rejection _ _) eqn:Hr.
    { rewrite (rejection_fulfilments _ _ _ Hr) in Hdue. rewrite Hdue. tally. }
    destruct (fulfilments _ _); [|rewrite Hdue; lia].
    destruct Hdue as [-> <-]. simpl. apply start_calls_app.
  - unfold loadBundleByName.
    destruct (bundlesList t); [|tally].
    destruct (find _ _) as [m|]; [|tally].
    destruct (loadBundleByManifest_frame m t) as (_&_&_&_&_&_&_&_& l' & -> & Hl).
    rewrite start_calls_app, (start_calls_preparing entry l' Hl). done.
  - unfold then_preprocessors.
    destruct (tasks t !! loader) as [[[]| |]|]; try lia.
    destruct o; tally.
  - unfold then_fetched.
    destruct (tasks t !! loader) as [[[]| |]|]; try lia.
    destruct (fetchBundleSource f); [tally|].
    simpl. destruct (compileSource _ _ _); tally.
  - unfold then_postprocessors.
    destruct (tasks t !! loader) as [[[]| |]|]; try lia.
    destruct o; tally.
  - unfold manuallyDefineBundle.
    destruct (bundlesList t); [|tally].
    destruct (start (exports bundle)) as [x|]; simpl.
    all: destruct (bundlesCache t !! name manifest); simpl; try lia.
    all: rewrite start_calls_app; unfold start_calls, count; simpl.
    all: by destruct (bool_decide (x = entry)).
Qed.

(** ** Manual definition *)

(** A state with a cached module has a manifest list. *)
Lemma cached_has_list es n cm :
  bundlesCache (run es new) !! n = Some cm → ∃ list, bundlesList (run es new) = Some list.
Proof.
  intros Hc. pose proof (Inv_run es new Consistent_new) as C.
  destruct (bundlesList (run es new)) as [list|] eqn:Hbl; [by eexists|].
  destruct (cons_list _ _ _ _ C Hbl) as [E _]. rewrite E in Hc. done.
Qed.

(** C8: in every state a run can reach, [manuallyDefineBundle] for a name
    that has a cached module throws the error for a name that is taken and
    leaves the compiled cache as it was. *)
Theorem manual_definition_of_cached_name (es : list Event) (manifest : Manifest)
    (bundle cached : CompiledModule) :
  bundlesCache (run es new) !! name manifest = Some cached →
  (manuallyDefineBundle manifest bundle (run es new)).1 = inl (already_defined manifest) ∧
  bundlesCache (manuallyDefineBundle manifest bundle (run es new)).2
  = bundlesCache (run es new).
Proof.
  intros Hc. destruct (cached_has_list es _ _ Hc) as [list Hbl].
  unfold manuallyDefineBundle. rewrite Hbl.
  destruct (start (exports bundle)); simpl; by rewrite Hc.
Qed.

Lemma manual_definition_of_cached_name_witness :
  bundlesCache (run defined_a new) !! name bundle_a = Some module_a ∧
  (manuallyDefineBundle bundle_a module_b (run defined_a new)).1
  = inl (already_defined bundle_a) ∧
  bundlesCache (manuallyDefineBundle bundle_a module_b (run defined_a new)).2
  = bundlesCache (run defined_a new).
Proof.
  split; [reflexivity|].
  apply (manual_definition_of_cached_name defined_a bundle_a module_b module_a).
  reflexivity.
Defined.

(** C10: in every state a run can reach, [manuallyDefineBundle] for a name
    that has a cached module is not atomic: by the time it throws, it has
    appended the manifest to the manifest list, published the new list,
    and called the [start] entry point of the module it was given, if
    there is one. *)
Theorem manual_definition_not_atomic (es : list Event) (manifest : Manifest)
    (bundle cached : CompiledModule) :
  bundlesCache (run es new) !! name manifest = Some cached →
  ∃ list t',
    bundlesList (run es new) = Some list ∧
    manuallyDefineBundle manifest bundle (run es new)
    = (inl (already_defined manifest), t') ∧
    bundlesList t' = Some (list ++ [manifest]) ∧
    bundlesListStream t' = bundlesListStream (run es new) ++ [list ++ [manifest]] ∧
    effects t' = effects (run es new) ++
                 match start (exports bundle) with
                 | Some entry => [StartExport entry]
                 | None => []
                 end.
Proof.
  intros Hc. destruct (cached_has_list es _ _ Hc) as [list Hbl].
  exists list. unfold manuallyDefineBundle. rewrite Hbl.
  destruct (start (exports bundle)); simpl; rewrite Hc.
  all: eexists; split_and!; try done.
  simpl. by rewrite app_nil_r.
Qed.

Lemma manual_definition_not_atomic_witness :
  bundlesCache (run defined_a new) !! name bundle_a = Some module_a ∧
  ∃ list t',
    bundlesList (run defined_a new) = Some list ∧
    manuallyDefineBundle bundle_a module_b (run defined_a new)
    = (inl (already_defined bundle_a), t') ∧
    bundlesList t' = Some (list ++ [bundle_a]) ∧
    bundlesListStream t' = bundlesListStream (run defined_a new) ++ [list ++ [bundle_a]] ∧
    effects t' = effects (run defined_a new) ++
                 match start (exports module_b) with
                 | Some entry => [StartExport entry]
                 | None => []
                 end.
Proof.
  split; [reflexivity|].
  apply (manual_definition_not_atomic defined_a bundle_a module_b module_a).
  reflexivity.
Defined.

(** ** A postprocessor that fails *)

(** C9: when the postprocessors of a load fail, in whatever reachable state
    and for whatever reason, then from there on, whatever else happens:
    the task of the load is resolved to no module, the module stays in the
    compiled cache, [isBundleLoaded] answers [true], and a request for the
    name returns a new task resolved to the module. *)
Theorem failed_postprocessor_leaves_module (es es' : list Event) (p : nat)
    (m : Manifest) (cm : CompiledModule) (reason : Thrown) :
  tasks (run es new) !! p = Some (Loading (Postprocessing m cm)) →
  tasks (run (ThenPostprocessors p (Failed reason) :: es') (run es new)) !! p
  = Some (Resolved None) ∧
  bundlesCache (run (ThenPostprocessors p (Failed reason) :: es') (run es new)) !! name m
  = Some cm ∧
  isBundleLoaded (name m) (run (ThenPostprocessors p (Failed reason) :: es') (run es new))
  = true ∧
  ∃ q t',
    loadBundleByManifest m (run (ThenPostprocessors p (Failed reason) :: es') (run es new))
    = (inr q, t') ∧
    q ≠ p ∧ tasks t' !! q = Some (Resolved (Some cm)).
Proof.
  intros Hp. pose proof (Inv_run es new Consistent_new) as C.
  set (t := run es new) in *.
  assert (Kept (name m) cm t) as HK.
  { split; [by eapply (cons_post _ _ _ _ C)|].
    intros q s Hq Hn.
    pose proof (cons_loading _ _ _ _ C _ _ Hq) as H1.
    pose proof (cons_loading _ _ _ _ C _ _ Hp) as H2. simpl in H2.
    rewrite Hn, H2 in H1. injection H1 as <-.
    rewrite Hp in Hq. injection Hq as <-. by eexists _, _. }
  change (run (ThenPostprocessors p (Failed reason) :: es') t)
    with (run es' (step t (ThenPostprocessors p (Failed reason)))).
  set (t1 := step t (ThenPostprocessors p (Failed reason))).
  assert (tasks t1 !! p = Some (Resolved None)) as Hp1.
  { unfold t1. simpl. unfold then_postprocessors. rewrite Hp. simpl.
    apply list_lookup_insert_eq. by eapply lookup_lt_Some. }
  destruct (grows_step t (ThenPostprocessors p (Failed reason))) as (_ & _ & G3).
  apply G3 in HK. fold t1 in HK.
  destruct (grows_run es' t1) as (_ & G2 & G3').
  apply G3' in HK as [Hc _]. apply G2 in Hp1; [|done].
  split_and!; try done.
  - unfold isBundleLoaded. rewrite Hc. apply bool_decide_eq_true. left. by eexists.
  - eexists _, _. split; [by apply loadBundleByManifest_cached|]. simpl. split.
    + intros E. apply lookup_lt_Some in Hp1. lia.
    + by rewrite lookup_app_r, Nat.sub_diag.
Qed.

Lemma failed_postprocessor_leaves_module_witness :
  tasks (run (configure ++
              [ LoadBundleByName "c"; ThenPreprocessors 0 Fulfilled;
                ThenFetched 0 (Response 200 (Finish (exports module_c))) ]) new) !! 0
  = Some (Loading (Postprocessing bundle_c module_c)) ∧
  (tasks (run (ThenPostprocessors 0 (Failed Null) :: [Start RunnerReturns])
            (run (configure ++
                  [ LoadBundleByName "c"; ThenPreprocessors 0 Fulfilled;
                    ThenFetched 0 (Response 200 (Finish (exports module_c))) ]) new)) !! 0
   = Some (Resolved None) ∧
   bundlesCache (run (ThenPostprocessors 0 (Failed Null) :: [Start RunnerReturns])
            (run (configure ++
                  [ LoadBundleByName "c"; ThenPreprocessors 0 Fulfilled;
                    ThenFetched 0 (Response 200 (Finish (exports module_c))) ]) new))
     !! name bundle_c
   = Some module_c ∧
   isBundleLoaded (name bundle_c)
     (run (ThenPostprocessors 0 (Failed Null) :: [Start RunnerReturns])
            (run (configure ++
                  [ LoadBundleByName "c"; ThenPreprocessors 0 Fulfilled;
                    ThenFetched 0 (Response 200 (Finish (exports module_c))) ]) new))
   = true ∧
   ∃ q t',
     loadBundleByManifest bundle_c
       (run (ThenPostprocessors 0 (Failed Null) :: [Start RunnerReturns])
            (run (configure ++
                  [ LoadBundleByName "c"; ThenPreprocessors 0 Fulfilled;
                    ThenFetched 0 (Response 200 (Finish (exports module_c))) ]) new))
     = (inr q, t') ∧
     q ≠ 0 ∧ tasks t' !! q = Some (Resolved (Some module_c))).
Proof.
  split; [reflexivity|].
  apply (failed_postprocessor_leaves_module
           (configure ++
            [ LoadBundleByName "c"; ThenPreprocessors 0 Fulfilled;
              ThenFetched 0 (Response 200 (Finish (exports module_c))) ])
           [Start RunnerReturns] 0 bundle_c module_c Null).
  reflexivity.
Defined.

(** ** The processor registry *)

Lemma get_Some_elem {V} k (o : list (string * V)) v : get k o = Some v → k ∈ o.*1.
Proof.
  unfold get. destruct (List.find _ o) as [[k' v']|] eqn:E; [|done].
  intros _. apply List.find_some in E as [Hin Hk]. simpl in Hk.
  apply bool_decide_eq_true in Hk as <-.
  apply list_elem_of_In in Hin. by apply (list_elem_of_fmap_2 fst) in Hin.
Qed.

Lemma get_elem_Some {V} k (o : list (string * V)) : k ∈ o.*1 → is_Some (get k o).
Proof.
  unfold get. induction o as [|[k' v'] o IH]; simpl.
  - by intros ?%elem_of_nil.
  - intros [->|H]%elem_of_cons.
    + rewrite bool_decide_true by done. by eexists.
    + case_bool_decide; [by eexists|auto].
Qed.

Lemma get_None {V} k (o : list (string * V)) : get k o = None ↔ k ∉ o.*1.
Proof.
  split.
  - intros E H. apply (get_elem_Some k o) in H as [v Hv]. congruence.
  - intros H. destruct (get k o) eqn:E; [|done].
    by apply get_Some_elem in E.
Qed.

Lemma keys_assign_old {V} k (v : V) o : k ∈ o.*1 → (assign k v o).*1 = o.*1.
Proof.
  intros H. unfold assign. rewrite bool_decide_true by done.
  clear H. induction o as [|[k' v'] o IH]; simpl; [done|].
  f_equal; [|done]. by case_bool_decide.
Qed.

Lemma keys_assign_fresh {V} k (v : V) o :
  k ∉ o.*1 → k ≠ "__proto__" → (assign k v o).*1 = o.*1 ++ [k].
Proof.
  intros H Hk. unfold assign. rewrite !bool_decide_false by done. by rewrite fmap_app.
Qed.

(** Under [__proto__] an object without that property gets none. *)
Lemma assign_proto {V} (v : V) o : "__proto__" ∉ o.*1 → assign "__proto__" v o = o.
Proof.
  intros H. unfold assign. rewrite bool_decide_false by done.
  by rewrite bool_decide_true.
Qed.

Lemma array_index_not_proto k i : array_index k = Some i → k ≠ "__proto__".
Proof. by intros H ->. Qed.

Lemma find_key_map {V} (k k' : string) (v : V) (o : list (string * V)) :
  List.find (λ kv, bool_decide (kv.1 = k'))
    (List.map (λ kv, if bool_decide (kv.1 = k) then (k, v) else kv) o)
  = (λ kv, if bool_decide (kv.1 = k) then (k, v) else kv)
      <$> List.find (λ kv, bool_decide (kv.1 = k')) o.
Proof.
  induction o as [|[k0 v0] o IH]; simpl; [done|].
  destruct (decide (k0 = k)) as [->|Hne].
  - rewrite (bool_decide_true (k = k)) by done. simpl.
    destruct (decide (k = k')) as [->|Hne'].
    + rewrite !bool_decide_true by done. simpl. by rewrite bool_decide_true.
    + rewrite !(bool_decide_false (k = k')) by done. apply IH.
  - rewrite (bool_decide_false (k0 = k)) by done. simpl.
    destruct (decide (k0 = k')) as [->|Hne'].
    + rewrite !bool_decide_true by done. simpl. by rewrite bool_decide_false.
    + rewrite !(bool_decide_false (k0 = k')) by done. apply IH.
Qed.

Lemma find_key_snoc {V} (k k' : string) (v : V) (o : list (string * V)) :
  List.find (λ kv, bool_decide (kv.1 = k')) (o ++ [(k, v)])
  = match List.find (λ kv, bool_decide (kv.1 = k')) o with
    | Some kv => Some kv
    | None => if bool_decide (k = k') then Some (k, v) else None
    end.
Proof.
  induction o as [|[k0 v0] o IH]; simpl.
  - done.
  - by destruct (bool_decide (k0 = k')).
Qed.

Lemma get_assign_eq {V} k (v : V) o :
  k ∈ o.*1 ∨ k ≠ "__proto__" → get k (assign k v o) = Some v.
Proof.
  intros Hk. unfold assign, get. case_bool_decide as H.
  - rewrite find_key_map.
    apply (get_elem_Some k o) in H as [v' Hv']. unfold get in Hv'.
    destruct (List.find _ o) as [[k0 v0]|] eqn:E; [|done]. simpl.
    apply List.find_some in E as [_ E]. simpl in E.
    apply bool_decide_eq_true in E as ->. by rewrite bool_decide_true.
  - rewrite bool_decide_false by (by destruct Hk).
    rewrite find_key_snoc.
    apply (get_None k o) in H. unfold get in H.
    destruct (List.find _ o); [done|]. by rewrite bool_decide_true.
Qed.

Lemma get_assign_ne {V} k k' (v : V) o : k ≠ k' → get k' (assign k v o) = get k' o.
Proof.
  intros Hne. unfold assign, get. case_bool_decide as H.
  - rewrite find_key_map.
    destruct (List.find _ o) as [[k0 v0]|] eqn:E; [|done]. simpl.
    apply List.find_some in E as [_ E]. simpl in E.
    apply bool_decide_eq_true in E as ->. by rewrite bool_decide_false.
  - case_bool_decide; [done|]. rewrite find_key_snoc.
    destruct (List.find _ o); [done|]. by rewrite bool_decide_false.
Qed.

Lemma elem_of_own_keys {V} k (o : list (string * V)) : k ∈ own_keys o ↔ k ∈ o.*1.
Proof.
  unfold own_keys. rewrite elem_of_app, merge_sort_Permutation, !list_elem_of_filter.
  destruct (decide (is_index k)); tauto.
Qed.

Lemma own_keys_assign_old {V} k (v : V) o :
  k ∈ o.*1 → own_keys (assign k v o) = own_keys o.
Proof. intros H. unfold own_keys. by rewrite keys_assign_old. Qed.

Lemma own_keys_assign_fresh {V} k (v : V) o :
  k ∉ o.*1 → k ≠ "__proto__" → array_index k = None →
  own_keys (assign k v o) = own_keys o ++ [k].
Proof.
  intros H Hp Hk. unfold own_keys. rewrite keys_assign_fresh by done.
  rewrite !filter_app, !filter_cons, !filter_nil.
  assert (¬ is_index k) as Hn by (unfold is_index; rewrite Hk; by intros [? ?]).
  rewrite decide_False by done. rewrite decide_True by done.
  by rewrite app_nil_r, app_assoc.
Qed.

Lemma classification_sound_and_complete_aux (p : ManifestProcessors) (manifest : Manifest) :
  match getModuleTypeByManifest p manifest with
  | Typed typeKey =>
    ∃ typeMatcher, get typeKey (typeMatchers p) = Some typeMatcher ∧
                   typeMatcher manifest = true
  | Untyped warning =>
    warning = "Cant resolve type of service " +:+ dq +:+ name manifest +:+ dq ∧
    ∀ typeKey typeMatcher, get typeKey (typeMatchers p) = Some typeMatcher →
                           typeMatcher manifest = false
  end.
Proof.
  unfold getModuleTypeByManifest.
  destruct (List.find _ _) as [k|] eqn:E.
  - apply List.find_some in E as [_ Hk].
    destruct (get k (typeMatchers p)) as [f|]; [by exists f|done].
  - split; [done|]. intros k f Hf.
    pose proof (List.find_none _ _ E k) as Hk. simpl in Hk. rewrite Hf in Hk.
    apply Hk. apply list_elem_of_In, elem_of_own_keys. by eapply get_Some_elem.
Qed.

(** X1: [getModuleTypeByManifest] returns a registered type whose matcher
    accepts the manifest, and it returns nothing, with the warning that
    names the manifest, exactly when no registered matcher accepts it. *)
Theorem classification_sound_and_complete (p : ManifestProcessors) (manifest : Manifest) :
  match getModuleTypeByManifest p manifest with
  | Typed typeKey =>
    ∃ typeMatcher, get typeKey (typeMatchers p) = Some typeMatcher ∧
                   typeMatcher manifest = true
  | Untyped warning =>
    warning = "Cant resolve type of service " +:+ dq +:+ name manifest +:+ dq ∧
    ∀ typeKey typeMatcher, get typeKey (typeMatchers p) = Some typeMatcher →
                           typeMatcher manifest = false
  end.
Proof. apply classification_sound_and_complete_aux. Qed.

Lemma find_app_first {A} (g : A → bool) l1 l2 :
  List.find g (l1 ++ l2)
  = match List.find g l1 with Some x => Some x | None => List.find g l2 end.
Proof. induction l1 as [|x l1 IH]; simpl; [done|]. by destruct (g x). Qed.

Lemma find_agree {A} (g g' : A → bool) l :
  (∀ x, x ∈ l → g x = g' x) → List.find g l = List.find g' l.
Proof.
  induction l as [|x l IH]; intros H; simpl; [done|].
  rewrite <-(H x) by apply list_elem_of_here.
  destruct (g x); [done|]. apply IH. intros y Hy. apply H. by apply list_elem_of_further.
Qed.

Lemma find_only {A} (g : A → bool) l k :
  k ∈ l → g k = true → (∀ x, x ∈ l → g x = true → x = k) → List.find g l = Some k.
Proof.
  intros Hk Hg Hu. destruct (List.find g l) as [x|] eqn:E.
  - apply List.find_some in E as [Hx Hgx]. f_equal. apply Hu; [|done].
    by apply list_elem_of_In.
  - apply list_elem_of_In in Hk. pose proof (List.find_none _ _ E k Hk). congruence.
Qed.

Lemma registration_of_new_type (p : ManifestProcessors) (type : string)
    (typeMatcher : Manifest → bool) (pre post : option nat) (manifest : Manifest) :
  get type (typeMatchers p) = None →
  array_index type = None →
  getModuleTypeByManifest (registerManifestType p type typeMatcher pre post) manifest
  = match getModuleTypeByManifest p manifest with
    | Typed typeKey => Typed typeKey
    | Untyped warning =>
      if bool_decide (type = "__proto__") then Untyped warning
      else if typeMatcher manifest then Typed type else Untyped warning
    end.
Proof.
  intros Hnew Hidx. apply get_None in Hnew.
  unfold getModuleTypeByManifest. simpl.
  case_bool_decide as Hproto.
  { subst type. rewrite assign_proto by done. by destruct (List.find _ _). }
  rewrite own_keys_assign_fresh, find_app_first by done.
  rewrite (find_agree _ (λ typeKey, match get typeKey (typeMatchers p) with
                                    | Some f => f manifest
                                    | None => false
                                    end)).
  - destruct (List.find _ (own_keys (typeMatchers p))); [done|].
    simpl. rewrite get_assign_eq by auto. by destruct (typeMatcher manifest).
  - intros k Hk. rewrite get_assign_ne; [done|].
    intros <-. by apply elem_of_own_keys in Hk.
Qed.

(** X2: in a registry built by registrations that left the prototypes of
    the tables alone, registering a type under a new key that is neither
    an array index nor [__proto__] puts it last: a manifest that had a type
    keeps it, and a manifest that had none gets the new type exactly when
    the new matcher accepts it.  Under [__proto__] the registration adds no
    type: every manifest is classified as before. *)
Theorem new_ordinary_type_comes_last (rs : list Registration) (type : string)
    (typeMatcher : Manifest → bool) (pre post : option nat) (manifest : Manifest) :
  Forall keeps_prototypes rs →
  get type (typeMatchers (registered rs)) = None →
  array_index type = None →
  getModuleTypeByManifest
    (registerManifestType (registered rs) type typeMatcher pre post) manifest
  = match getModuleTypeByManifest (registered rs) manifest with
    | Typed typeKey => Typed typeKey
    | Untyped warning =>
      if bool_decide (type = "__proto__") then Untyped warning
      else if typeMatcher manifest then Typed type else Untyped warning
    end.
Proof. intros _. apply registration_of_new_type. Qed.

(** A registry with one ordinary type that accepts everything. *)
Lemma new_ordinary_type_comes_last_witness :
  Forall keeps_prototypes [("widget", (λ _, true), None, None)] ∧
  get "page" (typeMatchers (registered [("widget", (λ _, true), None, None)])) = None ∧
  array_index "page" = None ∧
  getModuleTypeByManifest
    (registerManifestType (registered [("widget", (λ _, true), None, None)])
       "page" (λ _, true) (Some 1) None) bundle_a
  = match getModuleTypeByManifest
            (registered [("widget", (λ _, true), None, None)]) bundle_a with
    | Typed typeKey => Typed typeKey
    | Untyped warning =>
      if bool_decide ("page" = "__proto__") then Untyped warning
      else if (λ _ : Manifest, true) bundle_a then Typed "page" else Untyped warning
    end.
Proof.
  assert (Forall keeps_prototypes [("widget", (λ _ : Manifest, true), None, None)]) as H.
  { repeat constructor. unfold keeps_prototypes. simpl. discriminate. }
  split; [exact H|]. split; [reflexivity|]. split; [reflexivity|].
  apply (new_ordinary_type_comes_last [("widget", (λ _, true), None, None)]
           "page" (λ _, true) (Some 1) None bundle_a); [exact H|reflexivity|reflexivity].
Defined.

(** X3: a type registered under a new key that is an array index goes
    before every ordinary type: if its matcher accepts a manifest that so
    far had an ordinary type or none, the manifest now has the new type,
    whatever was registered earlier. *)
Theorem new_index_type_takes_over (p : ManifestProcessors) (type : string) (i : N)
    (typeMatcher : Manifest → bool) (pre post : option nat) (manifest : Manifest) :
  get type (typeMatchers p) = None →
  array_index type = Some i →
  typeMatcher manifest = true →
  match getModuleTypeByManifest p manifest with
  | Typed typeKey => array_index typeKey = None
  | Untyped _ => True
  end →
  getModuleTypeByManifest (registerManifestType p type typeMatcher pre post) manifest
  = Typed type.
Proof.
  intros Hnew Hidx Hacc Hold. apply get_None in Hnew.
  assert (is_index type) as Hi by (unfold is_index; rewrite Hidx; by eexists).
  unfold getModuleTypeByManifest in *. simpl.
  unfold own_keys in *.
  rewrite keys_assign_fresh by eauto using array_index_not_proto.
  rewrite !filter_app, !filter_cons, !filter_nil.
  rewrite decide_True, decide_False by tauto. rewrite app_nil_r.
  rewrite find_app_first in *.
  set (old := λ typeKey, match get typeKey (typeMatchers p) with
                         | Some f => f manifest
                         | None => false
                         end) in *.
  assert (∀ k, k ∈ filter is_index (typeMatchers p).*1 → old k = false) as Hno.
  { intros k Hk. destruct (old k) eqn:Hk'; [|done]. exfalso.
    destruct (List.find old (merge_sort index_le _)) as [k1|] eqn:E.
    - apply List.find_some in E as [Hin _]. apply list_elem_of_In in Hin.
      rewrite merge_sort_Permutation in Hin.
      apply list_elem_of_filter in Hin as [[j Hj] _]. simpl in Hold. congruence.
    - assert (old k = false) as Hf; [|congruence].
      apply (List.find_none _ _ E k).
      apply list_elem_of_In. by rewrite merge_sort_Permutation. }
  rewrite (find_only _ _ type); [done| | |].
  - rewrite merge_sort_Permutation, elem_of_app, list_elem_of_singleton. by right.
  - by rewrite get_assign_eq by eauto using array_index_not_proto.
  - intros k Hk Hacck. rewrite merge_sort_Permutation in Hk.
    apply elem_of_app in Hk as [Hk|Hk%list_elem_of_singleton]; [|done].
    destruct (decide (k = type)) as [->|Hne]; [done|].
    rewrite get_assign_ne in Hacck by done.
    pose proof (Hno k Hk) as Hf. unfold old in Hf. congruence.
Qed.

Lemma new_index_type_takes_over_witness :
  get "7" (typeMatchers (registerManifestType new_processors "widget" (λ _, true) None None))
  = None ∧
  array_index "7" = Some 7%N ∧
  (λ _ : Manifest, true) bundle_a = true ∧
  match getModuleTypeByManifest
          (registerManifestType new_processors "widget" (λ _, true) None None) bundle_a with
  | Typed typeKey => array_index typeKey = None
  | Untyped _ => True
  end ∧
  getModuleTypeByManifest
    (registerManifestType
       (registerManifestType new_processors "widget" (λ _, true) None None)
       "7" (λ _, true) None None) bundle_a
  = Typed "7".
Proof.
  split; [reflexivity|]. split; [reflexivity|]. split; [reflexivity|].
  split; [reflexivity|].
  apply (new_index_type_takes_over
           (registerManifestType new_processors "widget" (λ _, true) None None)
           "7" 7%N (λ _, true) None None bundle_a); reflexivity.
Defined.

(** X4: when [runPreprocessor] or [runPostprocessor] does anything else
    than resolve at once, it wrote no warning and the manifest has a type
    with a key other than the empty string, whose matcher accepts it.  If
    it calls a hook, the hook is the one registered under that type, or,
    for the type [__proto__] without a hook of its own, the hook that was
    made the prototype of the table; a hook registered under the empty key
    is never called.  If it calls what every object inherits, or throws,
    the type has no hook, the table has the prototype of every object and
    the type is one of [object_prototype_names].  If it goes by a property
    of a hook, that hook is the prototype of the table and the type has no
    hook. *)
Theorem hook_called_only_for_its_type (p : ManifestProcessors) (manifest : Manifest)
    (module : CompiledModule) (table : HookTable) (ws : list string) (d : Dispatch) :
  runPreprocessor p manifest = (ws, d) ∧ table = modulePreprocessors p ∨
  runPostprocessor p manifest module = (ws, d) ∧ table = modulePostprocessors p →
  d ≠ ResolveNow →
  ws = [] ∧
  ∃ typeKey typeMatcher,
    typeKey ≠ EmptyString ∧
    getModuleTypeByManifest p manifest = Typed typeKey ∧
    get typeKey (typeMatchers p) = Some typeMatcher ∧
    typeMatcher manifest = true ∧
    match d with
    | ResolveNow => False
    | CallHook h =>
      hooks table !! typeKey = Some h ∨
      (typeKey = "__proto__" ∧ hooks table !! typeKey = None ∧ prototype table = Some h)
    | CallInherited property =>
      property = typeKey ∧ typeKey ≠ "__proto__" ∧ typeKey ∈ object_prototype_names ∧
      hooks table !! typeKey = None ∧ prototype table = None
    | NotCallable =>
      typeKey = "__proto__" ∧ hooks table !! typeKey = None ∧ prototype table = None
    | ReadProperty inherited property =>
      property = typeKey ∧ typeKey ≠ "__proto__" ∧
      hooks table !! typeKey = None ∧ prototype table = Some inherited
    end.
Proof.
  intros H Hd.
  assert (dispatch table (getModuleTypeByManifest p manifest) = (ws, d)) as D.
  { by destruct H as [[H ->]|[H ->]]. }
  pose proof (classification_sound_and_complete_aux p manifest) as S.
  destruct (getModuleTypeByManifest p manifest) as [k|w] eqn:Hk.
  2: { simpl in D. by injection D as <- <-. }
  destruct S as (f & Hf & Hacc).
  unfold dispatch in D.
  destruct (decide (k = EmptyString)) as [->|Hne].
  { simpl in D. by injection D as <- <-. }
  rewrite bool_decide_false in D by done.
  destruct (hooks table !! k) as [h|] eqn:Hh.
  { injection D as <- <-. split; [done|]. exists k, f. split_and!; auto. }
  destruct (prototype table) as [inherited|] eqn:Hp.
  - destruct (decide (k = "__proto__")) as [->|Hproto].
    + simpl in D. injection D as <- <-. split; [done|].
      exists "__proto__", f. split_and!; auto.
    + rewrite bool_decide_false in D by done. injection D as <- <-.
      split; [done|]. by exists k, f.
  - destruct (decide (k = "__proto__")) as [->|Hproto].
    + simpl in D. injection D as <- <-. split; [done|]. by exists "__proto__", f.
    + rewrite bool_decide_false in D by done.
      case_bool_decide as Hin; injection D as <- <-; [|done].
      split; [done|]. by exists k, f.
Qed.

Lemma hook_called_only_for_its_type_witness :
  (runPreprocessor (registerManifestType new_processors "widget" (λ _, true) (Some 5) None)
     bundle_a = ([], CallHook 5) ∧
   {| hooks := {[ "widget" := 5 ]}; prototype := None |}
   = modulePreprocessors
       (registerManifestType new_processors "widget" (λ _, true) (Some 5) None) ∨
   runPostprocessor (registerManifestType new_processors "widget" (λ _, true) (Some 5) None)
     bundle_a module_a = ([], CallHook 5) ∧
   {| hooks := {[ "widget" := 5 ]}; prototype := None |}
   = modulePostprocessors
       (registerManifestType new_processors "widget" (λ _, true) (Some 5) None)) ∧
  CallHook 5 ≠ ResolveNow ∧
  ([] : list string) = [] ∧
  ∃ typeKey typeMatcher,
    typeKey ≠ EmptyString ∧
    getModuleTypeByManifest
      (registerManifestType new_processors "widget" (λ _, true) (Some 5) None) bundle_a
    = Typed typeKey ∧
    get typeKey
      (typeMatchers (registerManifestType new_processors "widget" (λ _, true) (Some 5) None))
    = Some typeMatcher ∧
    typeMatcher bundle_a = true ∧
    (hooks {| hooks := {[ "widget" := 5 ]}; prototype := None |} !! typeKey = Some 5 ∨
     (typeKey = "__proto__" ∧
      hooks {| hooks := {[ "widget" := 5 ]}; prototype := None |} !! typeKey = None ∧
      prototype {| hooks := {[ "widget" := 5 ]}; prototype := None |} = Some 5)).
Proof.
  assert (runPreprocessor
            (registerManifestType new_processors "widget" (λ _, true) (Some 5) None)
            bundle_a = ([], CallHook 5) ∧
          {| hooks := {[ "widget" := 5 ]}; prototype := None |}
          = modulePreprocessors
              (registerManifestType new_processors "widget" (λ _, true) (Some 5) None))
    as H by (split; reflexivity).
  split; [by left|]. split; [discriminate|].
  apply (hook_called_only_for_its_type
           (registerManifestType new_processors "widget" (λ _, true) (Some 5) None)
           bundle_a module_a {| hooks := {[ "widget" := 5 ]}; prototype := None |}
           [] (CallHook 5)); [by left|discriminate].
Defined.

(** Two cases at hand.  A type named [toString] without a hook has the
    method that every object inherits called in place of a hook; and a
    registration under [__proto__] adds no type, while its hook becomes the
    prototype of the table. *)
Lemma inherited_method_called_for_type :
  runPreprocessor (registerManifestType new_processors "toString" (λ _, true) None None)
    bundle_a
  = ([], CallInherited "toString").
Proof. reflexivity. Qed.

Lemma registration_under_proto :
  getModuleTypeByManifest
    (registerManifestType new_processors "__proto__" (λ _, true) (Some 1) None) bundle_a
  = Untyped ("Cant resolve type of service " +:+ dq +:+ "a" +:+ dq) ∧
  modulePreprocessors
    (registerManifestType new_processors "__proto__" (λ _, true) (Some 1) None)
  = {| hooks := ∅; prototype := Some 1 |}.
Proof. split; reflexivity. Qed.

(** X5: registering a type again with a new matcher and no hooks replaces
    the matcher and nothing else: the type keeps its place in the order of
    classification, the other matchers stay, and the hooks registered for
    it before stay in force. *)
Theorem reregistration_replaces_matcher_only (p : ManifestProcessors) (type : string)
    (old typeMatcher : Manifest → bool) :
  get type (typeMatchers p) = Some old →
  get type (typeMatchers (registerManifestType p type typeMatcher None None))
  = Some typeMatcher ∧
  (∀ k, k ≠ type →
        get k (typeMatchers (registerManifestType p type typeMatcher None None))
        = get k (typeMatchers p)) ∧
  own_keys (typeMatchers (registerManifestType p type typeMatcher None None))
  = own_keys (typeMatchers p) ∧
  modulePreprocessors (registerManifestType p type typeMatcher None None)
  = modulePreprocessors p ∧
  modulePostprocessors (registerManifestType p type typeMatcher None None)
  = modulePostprocessors p.
Proof.
  intros H. apply get_Some_elem in H. simpl. split_and!; try done.
  - apply get_assign_eq. by left.
  - intros k Hk. by apply get_assign_ne.
  - by apply own_keys_assign_old.
Qed.

Lemma reregistration_replaces_matcher_only_witness :
  get "widget"
    (typeMatchers (registerManifestType new_processors "widget" (λ _, true) (Some 5) None))
  = Some (λ _, true) ∧
  (get "widget"
     (typeMatchers
        (registerManifestType
           (registerManifestType new_processors "widget" (λ _, true) (Some 5) None)
           "widget" (λ _, false) None None))
   = Some (λ _, false) ∧
   (∀ k, k ≠ "widget" →
         get k (typeMatchers
                  (registerManifestType
                     (registerManifestType new_processors "widget" (λ _, true) (Some 5) None)
                     "widget" (λ _, false) None None))
         = get k (typeMatchers
                    (registerManifestType new_processors "widget" (λ _, true) (Some 5) None))) ∧
   own_keys (typeMatchers
               (registerManifestType
                  (registerManifestType new_processors "widget" (λ _, true) (Some 5) None)
                  "widget" (λ _, false) None None))
   = own_keys (typeMatchers
                 (registerManifestType new_processors "widget" (λ _, true) (Some 5) None)) ∧
   modulePreprocessors
     (registerManifestType
        (registerManifestType new_processors "widget" (λ _, true) (Some 5) None)
        "widget" (λ _, false) None None)
   = modulePreprocessors
       (registerManifestType new_processors "widget" (λ _, true) (Some 5) None) ∧
   modulePostprocessors
     (registerManifestType
        (registerManifestType new_processors "widget" (λ _, true) (Some 5) None)
        "widget" (λ _, false) None None)
   = modulePostprocessors
       (registerManifestType new_processors "widget" (λ _, true) (Some 5) None)).
Proof.
  split; [reflexivity|].
  apply (reregistration_replaces_matcher_only
           (registerManifestType new_processors "widget" (λ _, true) (Some 5) None)
           "widget" (λ _, true) (λ _, false)).
  reflexivity.
Defined.

(** ** Configuration *)

Lemma bulk_frame call strategy t :
  bundlesList (bulk call strategy t) = bundlesList t ∧
  bundlesListStream (bulk call strategy t) = bundlesListStream t ∧
  bundlesCache (bulk call strategy t) = bundlesCache t ∧
  urlFormatter (bulk call strategy t) = urlFormatter t ∧
  entrypoint (bulk call strategy t) = entrypoint t ∧
  ∃ ph, final ph ∧ calls (bulk call strategy t) = <[call := ph]> (calls t).
Proof.
  unfold bulk, bulkLoadBundles. simpl.
  destruct (bundlesList t) as [ms|] eqn:Hbl; simpl.
  - pose proof (map_calls_frame
      (List.filter (λ m, bool_decide (loadStrategy m = strategy)) ms)
      (emit t [BulkLoad call strategy])) as (E1&E2&E3&E4&E5&E6&_).
    destruct (map_calls _ _ _) as [[v|ps] t2]; simpl in *.
    all: rewrite E1, E2, E3, E4, E5, E6; split_and!; try done.
    + by exists Aborted.
    + by exists (BulkWaiting ps).
  - rewrite Hbl. split_and!; try done. by exists Aborted.
Qed.

Lemma no_init_insert (cs : list Phase) c ph :
  (∀ f, ph ≠ InitFetching f) →
  (∀ call f, cs !! call ≠ Some (InitFetching f)) →
  ∀ call f, <[c := ph]> cs !! call ≠ Some (InitFetching f).
Proof.
  intros Hph Hcs call f [(_ & -> & _)|[_ H]]%list_lookup_insert_Some.
  - by destruct (Hph f).
  - by destruct (Hcs call f).
Qed.

Lemma no_init_snoc (cs : list Phase) ph :
  (∀ f, ph ≠ InitFetching f) →
  (∀ call f, cs !! call ≠ Some (InitFetching f)) →
  ∀ call f, (cs ++ [ph]) !! call ≠ Some (InitFetching f).
Proof.
  intros Hph Hcs call f [[_ H]|[_ ->]]%lookup_snoc_Some.
  - by destruct (Hcs call f).
  - by destruct (Hph f).
Qed.

Lemma Configured_step t e : Configured t → Configured (step t e).
Proof.
  intros [[Hu He]|[Hbl Hcs]].
  - (* the settings are there and nothing takes them away *)
    destruct Hu as [u Hu], He as [ep He].
    assert (∀ t' : ModuleLoaderTool,
              urlFormatter t' = urlFormatter t → entrypoint t' = entrypoint t →
              Configured t') as Same.
    { intros t' E1 E2. left. rewrite E1, E2, Hu, He. split; by eexists. }
    destruct e; simpl; try by apply Same.
    + left. simpl. rewrite He. split; by eexists.
    + left. simpl. rewrite Hu. split; by eexists.
    + unfold init_call, bind, startupCheck. rewrite Hu, He. by apply Same.
    + unfold then_manifests.
      destruct (calls t !! call) as [[]|]; try by apply Same.
      destruct parsed; [by apply Same|]. rewrite He. by apply Same.
    + unfold then_listed.
      destruct (calls t !! call) as [[]|]; try by apply Same.
      destruct (bulk_frame call BLOCK t) as (_&_&_&E1&E2&_). by apply Same.
    + unfold then_start.
      destruct (calls t !! call) as [[| |r| | | |]|]; try by apply Same.
      destruct r; by apply Same.
    + unfold then_runner.
      destruct (calls t !! call) as [[]|]; try by apply Same.
      destruct o; [|by apply Same].
      destruct (bulk_frame call IMMEDIATELY (emit t [RunnerFulfilled call]))
        as (_&_&_&E1&E2&_). by apply Same.
    + unfold then_all.
      destruct (calls t !! call) as [[]|]; try by apply Same.
      destruct (rejection _ _); [by apply Same|].
      destruct (fulfilments _ _); by apply Same.
    + unfold loadBundleByName.
      destruct (bundlesList t); [|by apply Same].
      destruct (find _ _) as [m|]; [|by apply Same].
      destruct (loadBundleByManifest_frame m t) as (_&_&_&_&E1&E2&_). by apply Same.
    + unfold then_preprocessors.
      destruct (tasks t !! loader) as [[[]| |]|]; try by apply Same.
      destruct o; by apply Same.
    + unfold then_fetched.
      destruct (tasks t !! loader) as [[[]| |]|]; try by apply Same.
      destruct (fetchBundleSource f); [by apply Same|].
      simpl. destruct (compileSource _ _ _); by apply Same.
    + unfold then_postprocessors.
      destruct (tasks t !! loader) as [[[]| |]|]; try by apply Same.
      destruct o; by apply Same.
    + unfold manuallyDefineBundle.
      destruct (bundlesList t); [|by apply Same].
      destruct (start (exports bundle)); simpl.
      all: destruct (bundlesCache t !! name manifest); by apply Same.
  - (* nothing of [init] has happened: only [init] itself changes that,
       and only past its check *)
    destruct e; simpl; try by right.
    + unfold init_call, bind, startupCheck.
      destruct (urlFormatter t) eqn:Hu; [|by right].
      destruct (entrypoint t) eqn:He; [|by right].
      left. simpl. rewrite Hu, He. split; by eexists.
    + unfold then_manifests.
      destruct (calls t !! call) as [[]|] eqn:Hc; try by right.
      by destruct (Hcs call filterFn).
    + unfold then_listed.
      destruct (calls t !! call) as [[]|]; try by right.
      destruct (bulk_frame call BLOCK t) as (E&_&_&_&_&ph&Hph&Ec).
      right. rewrite E, Ec. split; [done|].
      apply no_init_insert; [|done]. intros f ->. done.
    + right. split; [done|]. simpl. by apply no_init_snoc.
    + unfold then_start.
      destruct (calls t !! call) as [[| |r| | | |]|]; try by right.
      right. destruct r; simpl; (split; [done|]); by apply no_init_insert.
    + unfold then_runner.
      destruct (calls t !! call) as [[]|]; try by right.
      destruct o.
      * destruct (bulk_frame call IMMEDIATELY (emit t [RunnerFulfilled call]))
          as (E&_&_&_&_&ph&Hph&Ec).
        right. rewrite E, Ec. split; [done|].
        apply no_init_insert; [|done]. intros f ->. done.
      * right. split; [done|]. simpl. by apply no_init_insert.
    + unfold then_all.
      destruct (calls t !! call) as [[]|]; try by right.
      destruct (rejection _ _).
      { right. split; [done|]. simpl. by apply no_init_insert. }
      destruct (fulfilments _ _); [|by right].
      right. split; [done|]. simpl. by apply no_init_insert.
    + unfold loadBundleByName. rewrite Hbl. by right.
    + unfold then_preprocessors.
      destruct (tasks t !! loader) as [[[]| |]|]; try by right.
      destruct o; by right.
    + unfold then_fetched.
      destruct (tasks t !! loader) as [[[]| |]|]; try by right.
      destruct (fetchBundleSource f); [by right|].
      simpl. destruct (compileSource _ _ _); by right.
    + unfold then_postprocessors.
      destruct (tasks t !! loader) as [[[]| |]|]; try by right.
      destruct o; by right.
    + unfold manuallyDefineBundle. rewrite Hbl. by right.
Qed.

Lemma Configured_run es t : Configured t → Configured (run es t).
Proof.
  revert t. induction es as [|e es IH]; intros t C; [done|].
  apply IH. by apply Configured_step.
Qed.

Lemma Configured_new : Configured new.
Proof. right. split; [done|]. intros call f. simpl. by rewrite lookup_nil. Qed.

Lemma listed_is_configured es :
  bundlesList (run es new) ≠ None →
  is_Some (urlFormatter (run es new)) ∧ is_Some (entrypoint (run es new)).
Proof.
  intros H. by destruct (Configured_run es new Configured_new) as [?|[? _]].
Qed.

(** X6: in every run, a manifest list is there only after a URL formatter
    and an entrypoint were defined: [init] checks for both before it
    retrieves anything, nothing else installs a list, and a setting is
    never taken back. *)
Theorem manifest_list_needs_configuration (es : list Event) (list : list Manifest) :
  bundlesList (run es new) = Some list →
  is_Some (urlFormatter (run es new)) ∧ is_Some (entrypoint (run es new)).
Proof. intros H. apply listed_is_configured. congruence. Qed.

Lemma manifest_list_needs_configuration_witness :
  bundlesList (run configure new) = Some [bundle_a; bundle_b; bundle_c] ∧
  is_Some (urlFormatter (run configure new)) ∧ is_Some (entrypoint (run configure new)).
Proof.
  split; [reflexivity|].
  apply (manifest_list_needs_configuration configure [bundle_a; bundle_b; bundle_c]).
  reflexivity.
Defined.

(** X7: in every run with a manifest list, [loadBundleByName] of a name
    that no manifest of the list has throws the error that says so and
    changes nothing; of a name that a manifest has, it never throws (the
    formatter it may need is there) and returns a task that exists, for
    the first manifest of that name. *)
Theorem load_by_name_outcomes (es : list Event) (n : string) (list : list Manifest) :
  bundlesList (run es new) = Some list →
  match List.find (λ m, bool_decide (name m = n)) list with
  | None =>
    loadBundleByName n (run es new)
    = (inl (Err Error ("Module with name " +:+ dq +:+ n +:+ dq +:+ " is not declared")),
       run es new)
  | Some manifest =>
    name manifest = n ∧
    ∃ p, loadBundleByName n (run es new) = (inr p, (loadBundleByManifest manifest (run es new)).2) ∧
         is_Some (tasks (loadBundleByManifest manifest (run es new)).2 !! p)
  end.
Proof.
  intros Hbl.
  assert (bundlesList (run es new) ≠ None) as Hbl' by congruence.
  destruct (listed_is_configured es Hbl') as [[u Hu] _].
  pose proof (Inv_run es new Consistent_new) as C.
  set (t := run es new) in *.
  unfold loadBundleByName. rewrite Hbl.
  destruct (List.find _ list) as [m|] eqn:E; [|done].
  apply List.find_some in E as [_ E]. apply bool_decide_eq_true in E.
  split; [done|]. unfold loadBundleByManifest.
  destruct (bundlesCache t !! name m) eqn:Hc; simpl.
  { eexists. split; [done|]. simpl. rewrite lookup_app_r, Nat.sub_diag by done. by eexists. }
  destruct (loadersCache t !! name m) as [p|] eqn:Hl; simpl.
  { exists p. split; [done|]. apply lookup_lt_is_Some. by eapply (cons_valid _ _ _ _ C). }
  rewrite Hu. simpl. eexists. split; [done|].
  rewrite lookup_app_r, Nat.sub_diag by done. by eexists.
Qed.

Lemma load_by_name_outcomes_witness :
  bundlesList (run configure new) = Some [bundle_a; bundle_b; bundle_c] ∧
  match List.find (λ m, bool_decide (name m = "d")) [bundle_a; bundle_b; bundle_c] with
  | None =>
    loadBundleByName "d" (run configure new)
    = (inl (Err Error ("Module with name " +:+ dq +:+ "d" +:+ dq +:+ " is not declared")),
       run configure new)
  | Some manifest =>
    name manifest = "d" ∧
    ∃ p, loadBundleByName "d" (run configure new)
         = (inr p, (loadBundleByManifest manifest (run configure new)).2) ∧
         is_Some (tasks (loadBundleByManifest manifest (run configure new)).2 !! p)
  end.
Proof.
  split; [reflexivity|].
  apply (load_by_name_outcomes configure "d" [bundle_a; bundle_b; bundle_c]).
  reflexivity.
Defined.

(** ** Retrieval *)

(** X8: the status of the response decides.  From 400 on the source is
    never compiled: the task resolves to no module, the compiled cache is
    as before and the only effect is the logged error, which carries the
    status.  Below 400 the text is compiled, whatever the status. *)
Theorem status_decides_compilation (t : ModuleLoaderTool) (p : nat) (m : Manifest)
    (status : nat) (text : Source) :
  tasks t !! p = Some (Loading (Fetching m)) →
  if bool_decide (400 ≤ status)
  then tasks (then_fetched p (Response status text) t) !! p = Some (Resolved None) ∧
       bundlesCache (then_fetched p (Response status text) t) = bundlesCache t ∧
       effects (then_fetched p (Response status text) t)
       = effects t ++ [ConsoleError ("Module: " +:+ name m +:+
                                     ". Error: Cant load bundle, http error " +:+
                                     pretty status)]
  else ∃ l, effects (then_fetched p (Response status text) t)
            = effects t ++ CompileSource (name m) :: l.
Proof.
  intros Hp. pose proof (lookup_lt_Some _ _ _ Hp) as Hlt.
  unfold then_fetched. rewrite Hp. unfold fetchBundleSource, InvalidHttpStatusStart.
  case_bool_decide.
  - unfold settle. simpl. by rewrite list_lookup_insert_eq.
  - simpl. destruct (compileSource _ _ _) as [error|cm].
    + unfold settle. simpl. eexists. by rewrite <-app_assoc.
    + simpl. eexists. by rewrite <-app_assoc.
Qed.

Lemma status_decides_compilation_witness :
  tasks (run (configure ++ [LoadBundleByName "c"; ThenPreprocessors 0 Fulfilled]) new) !! 0
  = Some (Loading (Fetching bundle_c)) ∧
  if bool_decide (400 ≤ 404)
  then tasks (then_fetched 0 (Response 404 (Finish (exports module_c)))
                (run (configure ++ [LoadBundleByName "c"; ThenPreprocessors 0 Fulfilled]) new))
         !! 0 = Some (Resolved None) ∧
       bundlesCache (then_fetched 0 (Response 404 (Finish (exports module_c)))
                (run (configure ++ [LoadBundleByName "c"; ThenPreprocessors 0 Fulfilled]) new))
       = bundlesCache (run (configure ++ [LoadBundleByName "c"; ThenPreprocessors 0 Fulfilled]) new) ∧
       effects (then_fetched 0 (Response 404 (Finish (exports module_c)))
                (run (configure ++ [LoadBundleByName "c"; ThenPreprocessors 0 Fulfilled]) new))
       = effects (run (configure ++ [LoadBundleByName "c"; ThenPreprocessors 0 Fulfilled]) new) ++
         [ConsoleError ("Module: " +:+ name bundle_c +:+
                        ". Error: Cant load bundle, http error " +:+ pretty 404)]
  else ∃ l, effects (then_fetched 0 (Response 404 (Finish (exports module_c)))
                (run (configure ++ [LoadBundleByName "c"; ThenPreprocessors 0 Fulfilled]) new))
            = effects (run (configure ++ [LoadBundleByName "c"; ThenPreprocessors 0 Fulfilled]) new)
              ++ CompileSource (name bundle_c) :: l.
Proof.
  split; [reflexivity|].
  apply (status_decides_compilation
           (run (configure ++ [LoadBundleByName "c"; ThenPreprocessors 0 Fulfilled]) new)
           0 bundle_c 404 (Finish (exports module_c))).
  reflexivity.
Defined.

(** ** Rejections *)

Lemma loadBundleByManifest_tasks m t :
  ∃ l, tasks (loadBundleByManifest m t).2 = tasks t ++ l ∧
       Forall (λ x, ∀ r, x ≠ Rejected r) l.
Proof.
  unfold loadBundleByManifest.
  destruct (bundlesCache t !! name m); simpl.
  { eexists. split; [done|]. by apply Forall_singleton. }
  destruct (loadersCache t !! name m); simpl.
  { exists []. by rewrite app_nil_r. }
  destruct (urlFormatter t); simpl.
  - eexists. split; [done|]. by apply Forall_singleton.
  - exists []. by rewrite app_nil_r.
Qed.

Lemma map_calls_tasks ms t :
  ∃ l, tasks (map_calls loadBundleByManifest ms t).2 = tasks t ++ l ∧
       Forall (λ x, ∀ r, x ≠ Rejected r) l.
Proof.
  revert t. induction ms as [|m ms IH]; intros t; simpl.
  { exists []. by rewrite app_nil_r. }
  unfold bind.
  destruct (loadBundleByManifest_tasks m t) as (l1 & E1 & F1).
  destruct (loadBundleByManifest m t) as [[v|p] t1]; simpl in *; [by exists l1|].
  destruct (IH t1) as (l2 & E2 & F2).
  destruct (map_calls loadBundleByManifest ms t1) as [[v|ps] t2]; simpl in *.
  all: exists (l1 ++ l2); rewrite E2, E1, <-app_assoc; split; [done|].
  all: by apply Forall_app.
Qed.

Lemma bulk_tasks call strategy t :
  ∃ l, tasks (bulk call strategy t) = tasks t ++ l ∧
       Forall (λ x, ∀ r, x ≠ Rejected r) l.
Proof.
  unfold bulk, bulkLoadBundles. simpl.
  destruct (bundlesList t) as [ms|]; simpl.
  - destruct (map_calls_tasks
      (List.filter (λ m, bool_decide (loadStrategy m = strategy)) ms)
      (emit t [BulkLoad call strategy])) as (l & E & F).
    destruct (map_calls _ _ _) as [[v|ps] t2]; simpl in *; by exists l.
  - exists []. by rewrite app_nil_r.
Qed.

Lemma appended_not_rejected (ts l : list Task) p r :
  Forall (λ x, ∀ r, x ≠ Rejected r) l →
  (ts ++ l) !! p = Some (Rejected r) → ts !! p = Some (Rejected r).
Proof.
  intros F [H|[_ H]]%lookup_app_Some; [done|].
  apply list_elem_of_lookup_2 in H. rewrite Forall_forall in F.
  by destruct (F _ H r).
Qed.

(** X9: a step rejects the task of a load only where the final [catch]
    (lines 300-304) cannot read the message of what it caught, and it
    catches such a value in three places only: the reason of a rejection
    of the preprocessors, the reason of a rejection of [fetch], and what
    [compileSource] threw.  A response with an error status and a failure
    of the postprocessors never reject a task, and no other call does. *)
Theorem task_rejected_only_by_unreadable_reason (t : ModuleLoaderTool) (e : Event)
    (p : nat) (r : Thrown) :
  tasks (step t e) !! p = Some (Rejected r) →
  tasks t !! p = Some (Rejected r) ∨
  (∃ m u reason,
     e = ThenPreprocessors p (Failed reason) ∧
     tasks t !! p = Some (Loading (Preprocessing m u)) ∧
     message_of reason = inl r) ∨
  (∃ m reason,
     e = ThenFetched p (NetworkFailure reason) ∧
     tasks t !! p = Some (Loading (Fetching m)) ∧
     message_of reason = inl r) ∨
  (∃ m status source error,
     e = ThenFetched p (Response status source) ∧
     tasks t !! p = Some (Loading (Fetching m)) ∧
     status < InvalidHttpStatusStart ∧
     compileSource source (dependencies t) (unknownDependencyResolver t) = inl error ∧
     message_of error = inl r).
Proof.
  destruct e; simpl; auto.
  - unfold init_call, bind, startupCheck.
    destruct (urlFormatter t); [|auto]. destruct (entrypoint t); auto.
  - unfold then_manifests.
    destruct (calls t !! call) as [[]|]; auto.
    destruct parsed; [auto|]. destruct (entrypoint t); auto.
  - unfold then_listed.
    destruct (calls t !! call) as [[]|]; auto.
    destruct (bulk_tasks call BLOCK t) as (l & -> & F).
    intros H. left. by eapply appended_not_rejected.
  - unfold then_start.
    destruct (calls t !! call) as [[| |rn| | | |]|]; auto. destruct rn; auto.
  - unfold then_runner.
    destruct (calls t !! call) as [[]|]; auto.
    destruct o; [|auto].
    destruct (bulk_tasks call IMMEDIATELY (emit t [RunnerFulfilled call])) as (l & -> & F).
    intros H. left. by eapply appended_not_rejected.
  - unfold then_all.
    destruct (calls t !! call) as [[]|]; auto.
    destruct (rejection _ _); [auto|]. destruct (fulfilments _ _); auto.
  - unfold loadBundleByName.
    destruct (bundlesList t); [|auto]. destruct (find _ _) as [m|]; [|auto].
    destruct (loadBundleByManifest_tasks m t) as (l' & -> & F).
    intros H. left. by eapply appended_not_rejected.
  - unfold then_preprocessors.
    destruct (tasks t !! loader) as [[[m u| |]| |]|] eqn:Hp; auto.
    destruct o as [|reason]; simpl.
    + intros [(_ & ? & _)|[_ H]]%list_lookup_insert_Some; [done|auto].
    + unfold settle, caught. simpl.
      destruct (message_of reason) as [thrown|msg] eqn:Hm; simpl.
      all: intros [(<- & E & _)|[_ H]]%list_lookup_insert_Some; [|by left]; try done.
      injection E as <-. right. left. by eexists _, _, _.
  - unfold then_fetched.
    destruct (tasks t !! loader) as [[[|m|]| |]|] eqn:Hp; auto.
    destruct f as [status source|reason]; simpl.
    + case_bool_decide as Hs; simpl.
      { unfold settle. simpl.
        intros [(_ & ? & _)|[_ H]]%list_lookup_insert_Some; [done|auto]. }
      destruct (compileSource _ _ _) as [error|cm] eqn:Hcs.
      * unfold settle, caught.
        destruct (message_of error) as [thrown|msg] eqn:Hm; simpl.
        all: intros [(<- & E & _)|[_ H]]%list_lookup_insert_Some; [|by left]; try done.
        injection E as <-. right. right. right.
        exists m, status, source, error. split_and!; try done. lia.
      * simpl. intros [(_ & ? & _)|[_ H]]%list_lookup_insert_Some; [done|auto].
    + unfold settle, caught.
      destruct (message_of reason) as [thrown|msg] eqn:Hm; simpl.
      all: intros [(<- & E & _)|[_ H]]%list_lookup_insert_Some; [|by left]; try done.
      injection E as <-. right. right. left. by eexists _, _.
  - unfold then_postprocessors.
    destruct (tasks t !! loader) as [[[| |m cm]| |]|] eqn:Hp; auto.
    destruct o; unfold settle; simpl.
    all: intros [(_ & ? & _)|[_ H]]%list_lookup_insert_Some; [done|auto].
  - unfold manuallyDefineBundle.
    destruct (bundlesList t); [|auto].
    destruct (start (exports bundle)); simpl.
    all: destruct (bundlesCache t !! name manifest); auto.
Qed.

Lemma task_rejected_only_by_unreadable_reason_witness :
  tasks (step (run (configure ++ [LoadBundleByName "c"]) new)
           (ThenPreprocessors 0 (Failed Null))) !! 0
  = Some (Rejected (Err TypeError "Cannot read property 'message' of null")) ∧
  (tasks (run (configure ++ [LoadBundleByName "c"]) new) !! 0
   = Some (Rejected (Err TypeError "Cannot read property 'message' of null")) ∨
   (∃ m u reason,
      ThenPreprocessors 0 (Failed Null) = ThenPreprocessors 0 (Failed reason) ∧
      tasks (run (configure ++ [LoadBundleByName "c"]) new) !! 0
      = Some (Loading (Preprocessing m u)) ∧
      message_of reason = inl (Err TypeError "Cannot read property 'message' of null")) ∨
   (∃ m reason,
      ThenPreprocessors 0 (Failed Null) = ThenFetched 0 (NetworkFailure reason) ∧
      tasks (run (configure ++ [LoadBundleByName "c"]) new) !! 0
      = Some (Loading (Fetching m)) ∧
      message_of reason = inl (Err TypeError "Cannot read property 'message' of null")) ∨
   (∃ m status source error,
      ThenPreprocessors 0 (Failed Null) = ThenFetched 0 (Response status source) ∧
      tasks (run (configure ++ [LoadBundleByName "c"]) new) !! 0
      = Some (Loading (Fetching m)) ∧
      status < InvalidHttpStatusStart ∧
      compileSource source
        (dependencies (run (configure ++ [LoadBundleByName "c"]) new))
        (unknownDependencyResolver (run (configure ++ [LoadBundleByName "c"]) new))
      = inl error ∧
      message_of error = inl (Err TypeError "Cannot read property 'message' of null"))).
Proof.
  split; [reflexivity|].
  apply (task_rejected_only_by_unreadable_reason
           (run (configure ++ [LoadBundleByName "c"]) new)
           (ThenPreprocessors 0 (Failed Null)) 0
           (Err TypeError "Cannot read property 'message' of null")).
  reflexivity.
Defined.

(** ** The order of the steps of a load *)

Lemma preceded_by_nil A b : preceded_by A b [].
Proof. intros pre post H. by destruct pre. Qed.

Lemma preceded_by_snoc_other A b l e :
  preceded_by A b l → e ≠ b → preceded_by A b (l ++ [e]).
Proof.
  intros H He pre post E.
  destruct post as [|y post _] using rev_ind.
  - apply app_inj_tail in E as [_ ->]. done.
  - rewrite app_comm_cons, app_assoc in E.
    apply app_inj_tail in E as [-> _]. by eapply H.
Qed.

Lemma preceded_by_snoc_same A b l a :
  preceded_by A b l → A a → a ∈ l → preceded_by A b (l ++ [b]).
Proof.
  intros H Ha Hin pre post E.
  destruct post as [|y post _] using rev_ind.
  - apply app_inj_tail in E as [<- _]. eauto.
  - rewrite app_comm_cons, app_assoc in E.
    apply app_inj_tail in E as [-> _]. by eapply H.
Qed.

Lemma preceded_by_app A b l l' :
  preceded_by A b l → b ∉ l' → preceded_by A b (l ++ l').
Proof.
  revert l. induction l' as [|e l' IH]; intros l H Hl'.
  - by rewrite app_nil_r.
  - apply not_elem_of_cons in Hl' as [He Hl'].
    rewrite cons_middle, app_assoc. apply IH; [|done].
    apply preceded_by_snoc_other; [done|congruence].
Qed.

Lemma unstaged_not_elem b l : Forall unstaged l → ¬ unstaged b → b ∉ l.
Proof. intros F Hb Hin. rewrite Forall_forall in F. by apply Hb, F. Qed.

Lemma unstaged_preparing l : preparing l → Forall unstaged l.
Proof. intros H. eapply Forall_impl; [exact H|]. by intros e [n ->]. Qed.

Lemma unstaged_caught m error : Forall unstaged (caught m error).1.
Proof.
  destruct (caught_cases m error) as [[x ->]|[x ->]]; simpl; [done|].
  by apply Forall_singleton.
Qed.

Lemma unstaged_start_exports bs : Forall unstaged (start_exports bs).
Proof.
  unfold start_exports. induction bs as [|[[[[e|] v]]|] bs IH]; simpl; try done.
  by apply Forall_cons.
Qed.

Lemma Stages_new : Stages new.
Proof.
  split; simpl; try done.
  all: intros *; apply preceded_by_nil.
Qed.

Section staged.
Context {bl : option (list Manifest)} {bc : gmap string CompiledModule}
        {lc : gmap string nat} {ts : list Task} {es : list Effect}.
Hypothesis S : Staged ts es.

Lemma Staged_emit l : Forall unstaged l → Staged ts (es ++ l).
Proof.
  intros F. destruct S as [Spre Sfetching Sfetch Scompile Spost]. split.
  - intros p m u H. apply elem_of_app. left. eauto.
  - intros p m H. destruct (Sfetching _ _ H) as [u Hu]. exists u.
    apply elem_of_app. by left.
  - intros n u. apply preceded_by_app; [done|]. apply unstaged_not_elem; [done|intros []].
  - intros n. apply preceded_by_app; [done|]. apply unstaged_not_elem; [done|intros []].
  - intros n. apply preceded_by_app; [done|]. apply unstaged_not_elem; [done|intros []].
Qed.

Lemma Staged_push x :
  (∀ s, x ≠ Loading s) → Staged (ts ++ [x]) es.
Proof.
  intros Hx. destruct S as [Spre Sfetching Sfetch Scompile Spost]. split; try done.
  - intros p m u [[_ H]|[_ H]]%lookup_snoc_Some; [eauto|].
    by destruct (Hx (Preprocessing m u)).
  - intros p m [[_ H]|[_ H]]%lookup_snoc_Some; [eauto|].
    by destruct (Hx (Fetching m)).
Qed.

Lemma Staged_settle p x :
  (∀ m u, x ≠ Loading (Preprocessing m u)) → (∀ m, x ≠ Loading (Fetching m)) →
  Staged (<[p := x]> ts) es.
Proof.
  intros Hx Hx'. destruct S as [Spre Sfetching Sfetch Scompile Spost]. split; try done.
  - intros q m u [(_ & -> & _)|[_ H]]%list_lookup_insert_Some; [|eauto].
    by destruct (Hx m u).
  - intros q m [(_ & -> & _)|[_ H]]%list_lookup_insert_Some; [|eauto].
    by destruct (Hx' m).
Qed.

Lemma Staged_fresh m u :
  Staged (ts ++ [Loading (Preprocessing m u)]) (es ++ [RunPreprocessors (name m)]).
Proof.
  assert (Staged ts (es ++ [RunPreprocessors (name m)])) as S'.
  { apply Staged_emit. by apply Forall_singleton. }
  destruct S' as [Spre Sfetching Sfetch Scompile Spost]. split; try done.
  - intros p m' u' [[_ H]|[_ H]]%lookup_snoc_Some; [eauto|].
    injection H as <- <-. apply elem_of_app. right. apply list_elem_of_here.
  - intros p m' [[_ H]|[_ H]]%lookup_snoc_Some; [eauto|done].
Qed.

Lemma Staged_fetch p m u :
  ts !! p = Some (Loading (Preprocessing m u)) →
  Staged (<[p := Loading (Fetching m)]> ts) (es ++ [FetchBundleSource (name m) u]).
Proof.
  intros Hp. destruct S as [Spre Sfetching Sfetch Scompile Spost]. split.
  - intros q m' u' [(_ & ? & _)|[_ H]]%list_lookup_insert_Some; [done|].
    apply elem_of_app. left. eauto.
  - intros q m' [(_ & E & _)|[_ H]]%list_lookup_insert_Some.
    + injection E as <-. exists u. apply elem_of_app. right. apply list_elem_of_here.
    + destruct (Sfetching _ _ H) as [u' Hu']. exists u'. apply elem_of_app. by left.
  - intros n u'.
    destruct (decide (name m = n ∧ u = u')) as [[<- <-]|Hne].
    + eapply preceded_by_snoc_same; [done|done|by eapply Spre].
    + apply preceded_by_snoc_other; [done|]. intros [= ? ?]. by apply Hne.
  - intros n. by apply preceded_by_snoc_other.
  - intros n. by apply preceded_by_snoc_other.
Qed.

Lemma Staged_compile p m l :
  ts !! p = Some (Loading (Fetching m)) →
  l = [] ∨ l = [RunPostprocessors (name m)] →
  Staged ts ((es ++ [CompileSource (name m)]) ++ l).
Proof.
  intros Hp Hl. destruct S as [Spre Sfetching Sfetch Scompile Spost].
  destruct (Sfetching _ _ Hp) as [u Hu].
  assert (b_notin : ∀ b, (∀ n, b ≠ RunPostprocessors n) → b ∉ l).
  { intros b Hb. destruct Hl as [->| ->]; [apply not_elem_of_nil|].
    apply not_elem_of_cons. split; [apply Hb|apply not_elem_of_nil]. }
  split.
  - intros q m' u' H. rewrite <-app_assoc. apply elem_of_app. left. eauto.
  - intros q m' H. destruct (Sfetching _ _ H) as [u' Hu']. exists u'.
    rewrite <-app_assoc. apply elem_of_app. by left.
  - intros n u'. apply preceded_by_app; [by apply preceded_by_snoc_other|].
    by apply b_notin.
  - intros n. apply preceded_by_app; [|by apply b_notin].
    destruct (decide (name m = n)) as [<-|Hne].
    + eapply preceded_by_snoc_same; [done| |done]. by exists u.
    + apply preceded_by_snoc_other; [done|congruence].
  - intros n. destruct Hl as [->| ->].
    + rewrite app_nil_r. by apply preceded_by_snoc_other.
    + destruct (decide (name m = n)) as [<-|Hne].
      * eapply (preceded_by_snoc_same _ _ _ (CompileSource (name m))); [|done|].
        -- by apply preceded_by_snoc_other.
        -- apply elem_of_app. right. apply list_elem_of_here.
      * apply preceded_by_snoc_other; [|congruence].
        by apply preceded_by_snoc_other.
Qed.
End staged.

Lemma Stages_emit t l : Stages t → Forall unstaged l → Stages (emit t l).
Proof. intros S F. by apply Staged_emit. Qed.

Lemma Stages_loadBundleByManifest m t : Stages t → Stages (loadBundleByManifest m t).2.
Proof.
  intros S. unfold loadBundleByManifest.
  destruct (bundlesCache t !! name m); simpl; [by apply Staged_push|].
  destruct (loadersCache t !! name m); simpl; [done|].
  destruct (urlFormatter t); simpl; [|done].
  by apply Staged_fresh.
Qed.

Lemma Stages_map_calls ms t : Stages t → Stages (map_calls loadBundleByManifest ms t).2.
Proof.
  revert t. induction ms as [|m ms IH]; intros t S; simpl; [done|].
  unfold bind.
  pose proof (Stages_loadBundleByManifest m t S) as S1.
  destruct (loadBundleByManifest m t) as [[v|p] t1]; simpl in *; [done|].
  specialize (IH t1 S1).
  by destruct (map_calls loadBundleByManifest ms t1) as [[v|ps] t2].
Qed.

Lemma Stages_bulk call strategy t : Stages t → Stages (bulk call strategy t).
Proof.
  intros S. unfold bulk, bulkLoadBundles. simpl.
  assert (Stages (emit t [BulkLoad call strategy])) as S1.
  { apply Stages_emit; [done|]. by apply Forall_singleton. }
  destruct (bundlesList t) as [l|]; simpl; [|exact S1].
  pose proof (Stages_map_calls
    (List.filter (λ m, bool_decide (loadStrategy m = strategy)) l) _ S1) as S2.
  by destruct (map_calls _ _ _) as [[v|ps] t2].
Qed.

Lemma Stages_settle_caught p m error t : Stages t → Stages (settle p (caught m error) t).
Proof.
  intros S. unfold settle, Stages. simpl.
  pose proof (unstaged_caught m error) as F.
  destruct (caught_cases m error) as [[x E]|[x E]]; rewrite E in *; simpl in *.
  all: apply Staged_settle; [|done|done].
  all: by apply Staged_emit.
Qed.

Lemma Stages_step t e : Stages t → Stages (step t e).
Proof.
  intros S. destruct e; simpl; try done.
  - unfold init_call, bind, startupCheck.
    destruct (urlFormatter t); [|done]. by destruct (entrypoint t).
  - unfold then_manifests.
    destruct (calls t !! call) as [[]|]; try done.
    destruct parsed; [done|]. by destruct (entrypoint t).
  - unfold then_listed.
    destruct (calls t !! call) as [[]|]; try done. by apply Stages_bulk.
  - unfold then_start.
    destruct (calls t !! call) as [[| |r| | | |]|]; try done.
    assert (Stages (emit t [RunnerCalled call])) as S1.
    { apply Stages_emit; [done|]. by apply Forall_singleton. }
    by destruct r.
  - unfold then_runner.
    destruct (calls t !! call) as [[]|]; try done.
    destruct o; [|done]. apply Stages_bulk.
    apply Stages_emit; [done|]. by apply Forall_singleton.
  - unfold then_all.
    destruct (calls t !! call) as [[]|]; try done.
    destruct (rejection _ _); [done|].
    destruct (fulfilments _ _); [|done].
    apply (Stages_emit t); [done|]. apply unstaged_start_exports.
  - unfold loadBundleByName.
    destruct (bundlesList t); [|done]. destruct (find _ _); [|done].
    by apply Stages_loadBundleByManifest.
  - unfold then_preprocessors.
    destruct (tasks t !! loader) as [[[]| |]|] eqn:Hp; try done.
    destruct o; [|by apply Stages_settle_caught].
    by eapply Staged_fetch.
  - unfold then_fetched.
    destruct (tasks t !! loader) as [[[|m|]| |]|] eqn:Hp; try done.
    destruct (fetchBundleSource f); [by apply Stages_settle_caught|].
    simpl. destruct (compileSource _ _ _) as [error|cm].
    + unfold settle, Stages. simpl.
      pose proof (unstaged_caught m error) as F.
      destruct (caught_cases m error) as [[x E]|[x E]]; rewrite E in *; simpl in *.
      all: apply Staged_settle; [|done|done].
      all: apply Staged_emit; [|done].
      all: rewrite <-(app_nil_r (effects t ++ _)).
      all: eapply Staged_compile; [done|done|by left].
    + unfold Stages. simpl. apply Staged_settle; [|done|done].
      eapply Staged_compile; [done|done|by right].
  - unfold then_postprocessors.
    destruct (tasks t !! loader) as [[[]| |]|] eqn:Hp; try done.
    destruct o; [|by apply Stages_settle_caught].
    unfold settle, Stages. simpl. rewrite app_nil_r. by apply Staged_settle.
  - unfold manuallyDefineBundle.
    destruct (bundlesList t); [|done].
    destruct (start (exports bundle)); simpl.
    all: destruct (bundlesCache t !! name manifest); simpl; try done.
    all: apply (Stages_emit t); [done|]; by apply Forall_singleton.
Qed.

Lemma Stages_run es t : Stages t → Stages (run es t).
Proof.
  revert t. induction es as [|e es IH]; intros t S; [done|].
  apply IH. by apply Stages_step.
Qed.

(** X10: in every run the steps of a load come in their order.  Wherever
    the source of a bundle is compiled, a retrieval for that bundle has
    begun before; wherever a retrieval begins, the preprocessors for the
    bundle were called before; wherever the postprocessors are called, the
    bundle was compiled before. *)
Theorem steps_of_a_load_in_order (es : list Event) (pre post : list Effect)
    (e : Effect) :
  effects (run es new) = pre ++ e :: post →
  match e with
  | FetchBundleSource b _ => RunPreprocessors b ∈ pre
  | CompileSource b => ∃ url, FetchBundleSource b url ∈ pre
  | RunPostprocessors b => CompileSource b ∈ pre
  | _ => True
  end.
Proof.
  intros E. destruct (Stages_run es new Stages_new) as [_ _ Sfetch Scompile Spost].
  destruct e; try done.
  - destruct (Sfetch _ _ _ _ E) as (a & <- & Ha). done.
  - destruct (Scompile _ _ _ E) as (a & [url ->] & Ha). by exists url.
  - destruct (Spost _ _ _ E) as (a & <- & Ha). done.
Qed.

Lemma steps_of_a_load_in_order_witness :
  effects postprocessing_c
  = [RunPreprocessors "c"; FetchBundleSource "c" "/bundles/c.js"] ++
    CompileSource "c" :: [RunPostprocessors "c"] ∧
  ∃ url, FetchBundleSource "c" url
         ∈ [RunPreprocessors "c"; FetchBundleSource "c" "/bundles/c.js"].
Proof.
  split; [reflexivity|].
  apply (steps_of_a_load_in_order
           (configure ++
            [ LoadBundleByName "c"; ThenPreprocessors 0 Fulfilled;
              ThenFetched 0 (Response 200 (Finish (exports module_c))) ])
           [RunPreprocessors "c"; FetchBundleSource "c" "/bundles/c.js"]
           [RunPostprocessors "c"] (CompileSource "c")).
  reflexivity.
Defined.

(** ** What a bulk pass loads *)

Lemma loadBundleByManifest_effects m t :
  ∃ l : list Effect,
    effects (loadBundleByManifest m t).2 = effects t ++ l ∧
    (l = [] ∨ l = [RunPreprocessors (name m)]).
Proof.
  unfold loadBundleByManifest.
  destruct (bundlesCache t !! name m); simpl.
  { exists []. rewrite app_nil_r. auto. }
  destruct (loadersCache t !! name m); simpl.
  { exists []. rewrite app_nil_r. auto. }
  destruct (urlFormatter t); simpl.
  - eexists. split; [done|]. auto.
  - exists []. rewrite app_nil_r. auto.
Qed.

Lemma map_calls_effects ms t :
  ∃ l : list Effect,
    effects (map_calls loadBundleByManifest ms t).2 = effects t ++ l ∧
    ∀ e, e ∈ l → ∃ m, m ∈ ms ∧ e = RunPreprocessors (name m).
Proof.
  revert t. induction ms as [|m ms IH]; intros t; simpl.
  { exists []. rewrite app_nil_r. split; [done|]. by intros e ?%elem_of_nil. }
  unfold bind.
  destruct (loadBundleByManifest_effects m t) as (l1 & E1 & H1).
  assert (∀ e, e ∈ l1 → ∃ m', m' ∈ m :: ms ∧ e = RunPreprocessors (name m')) as H1'.
  { intros e He. exists m. split; [apply list_elem_of_here|].
    destruct H1 as [->| ->]; [by apply elem_of_nil in He|].
    by apply list_elem_of_singleton in He. }
  destruct (loadBundleByManifest m t) as [[v|p] t1]; simpl in *; [by exists l1|].
  destruct (IH t1) as (l2 & E2 & H2).
  destruct (map_calls loadBundleByManifest ms t1) as [[v|ps] t2]; simpl in *.
  all: exists (l1 ++ l2); rewrite E2, E1, <-app_assoc; split; [done|].
  all: intros e [He|He]%elem_of_app; [by apply H1'|].
  all: destruct (H2 e He) as (m' & Hm' & ->); exists m'; split; [|done].
  all: by apply list_elem_of_further.
Qed.

(** After the mark of a pass, all that the pass adds to the effects are
    calls of the preprocessors for manifests of the list that have the
    strategy of the pass. *)
Lemma bulk_effects (t : ModuleLoaderTool) (call : nat) (strategy : ModuleLoadStrategy) :
  ∃ l : list Effect,
    effects (bulk call strategy t) = effects t ++ BulkLoad call strategy :: l ∧
    ∀ e, e ∈ l →
         ∃ list m, bundlesList t = Some list ∧ m ∈ list ∧
                   loadStrategy m = strategy ∧ e = RunPreprocessors (name m).
Proof.
  unfold bulk, bulkLoadBundles. simpl.
  destruct (bundlesList t) as [ms|]; simpl.
  - destruct (map_calls_effects
      (List.filter (λ m, bool_decide (loadStrategy m = strategy)) ms)
      (emit t [BulkLoad call strategy])) as (l & E & H).
    exists l. split.
    + destruct (map_calls _ _ _) as [[v|ps] t2]; simpl in *.
      all: by rewrite E, <-app_assoc.
    + intros e He. destruct (H e He) as (m & Hm & ->).
      apply list_elem_of_In, List.filter_In in Hm as [Hm Hs].
      apply bool_decide_eq_true in Hs. exists ms, m.
      split_and!; try done. by apply list_elem_of_In.
  - exists []. split; [done|]. by intros e ?%elem_of_nil.
Qed.

(** X11: a bulk pass begins loads for manifests of its own strategy only:
    after the mark of the pass, all it adds to the effects are calls of
    the preprocessors for manifests of the list that have the strategy of
    the pass.  So [init] starts no load of a manifest that is not [BLOCK],
    and [start] none of a manifest that is not [IMMEDIATELY]. *)
Theorem bulk_pass_keeps_to_its_strategy (t : ModuleLoaderTool) (call : nat)
    (strategy : ModuleLoadStrategy) :
  ∃ l : list Effect,
    effects (bulk call strategy t) = effects t ++ BulkLoad call strategy :: l ∧
    ∀ e, e ∈ l →
         ∃ list m, bundlesList t = Some list ∧ m ∈ list ∧
                   loadStrategy m = strategy ∧ e = RunPreprocessors (name m).
Proof. apply bulk_effects. Qed.

(** ** The manifest list and its stream *)

Lemma list_step_cases (t : ModuleLoaderTool) (e : Event) :
  (bundlesList (step t e) = bundlesList t ∧
   bundlesListStream (step t e) = bundlesListStream t) ∨
  ∃ l, bundlesList (step t e) = Some l ∧
       bundlesListStream (step t e) = bundlesListStream t ++ [l] ∧
       ((∃ call parsed, e = ThenManifests call parsed) ∨
        (∃ old manifest bundle, e = ManuallyDefineBundle manifest bundle ∧
                                bundlesList t = Some old ∧ l = old ++ [manifest])).
Proof.
  destruct e; simpl; try by left.
  - unfold init_call, bind, startupCheck.
    destruct (urlFormatter t); [|by left]. destruct (entrypoint t); by left.
  - unfold then_manifests.
    destruct (calls t !! call) as [[]|]; try by left.
    destruct parsed; [by left|]. destruct (entrypoint t); [|by left].
    right. eexists. simpl. split_and!; try done. left. by eexists _, _.
  - unfold then_listed.
    destruct (calls t !! call) as [[]|]; try by left.
    destruct (bulk_frame call BLOCK t) as (E1&E2&_). by left.
  - unfold then_start.
    destruct (calls t !! call) as [[| |r| | | |]|]; try by left. destruct r; by left.
  - unfold then_runner.
    destruct (calls t !! call) as [[]|]; try by left.
    destruct o; [|by left].
    destruct (bulk_frame call IMMEDIATELY (emit t [RunnerFulfilled call])) as (E1&E2&_).
    by left.
  - unfold then_all.
    destruct (calls t !! call) as [[]|]; try by left.
    destruct (rejection _ _); [by left|]. destruct (fulfilments _ _); by left.
  - unfold loadBundleByName.
    destruct (bundlesList t) as [ms|] eqn:Hbl; [|left; simpl; by rewrite Hbl].
    destruct (find _ _) as [m|]; [|left; simpl; by rewrite Hbl].
    destruct (loadBundleByManifest_frame m t) as (E1&E2&_). left. by rewrite E1, E2, Hbl.
  - unfold then_preprocessors.
    destruct (tasks t !! loader) as [[[]| |]|]; try by left. destruct o; by left.
  - unfold then_fetched.
    destruct (tasks t !! loader) as [[[]| |]|]; try by left.
    destruct (fetchBundleSource f); [by left|].
    simpl. destruct (compileSource _ _ _); by left.
  - unfold then_postprocessors.
    destruct (tasks t !! loader) as [[[]| |]|]; try by left. destruct o; by left.
  - unfold manuallyDefineBundle.
    destruct (bundlesList t) as [old|] eqn:Hbl; [|left; simpl; by rewrite Hbl].
    right. exists (old ++ [manifest]).
    destruct (start (exports bundle)); simpl.
    all: destruct (bundlesCache t !! name manifest); simpl.
    all: split_and!; try done; right; by eexists _, _, _.
Qed.

(** X12: a step either leaves the manifest list and the stream alone, or
    it installs a list and emits exactly that list, once.  The steps that
    do so are the arrival of the list of an [init], which replaces the
    list, and a manual definition, which appends its manifest to it. *)
Theorem list_changes_are_published (t : ModuleLoaderTool) (e : Event) :
  (bundlesList (step t e) = bundlesList t ∧
   bundlesListStream (step t e) = bundlesListStream t) ∨
  ∃ l, bundlesList (step t e) = Some l ∧
       bundlesListStream (step t e) = bundlesListStream t ++ [l] ∧
       ((∃ call parsed, e = ThenManifests call parsed) ∨
        (∃ old manifest bundle, e = ManuallyDefineBundle manifest bundle ∧
                                bundlesList t = Some old ∧ l = old ++ [manifest])).
Proof. apply list_step_cases. Qed.

Lemma stream_follows_list es t :
  last (bundlesListStream t) = Some (default [] (bundlesList t)) →
  last (bundlesListStream (run es t)) = Some (default [] (bundlesList (run es t))).
Proof.
  revert t. induction es as [|e es IH]; intros t H; [done|].
  apply IH. destruct (list_step_cases t e) as [[-> ->]|(l & -> & -> & _)]; [done|].
  by rewrite last_snoc.
Qed.

Lemma filter_all {A} (l : list A) : List.filter (λ _, true) l = l.
Proof. induction l as [|x l IH]; simpl; [done|]. by rewrite IH. Qed.

(** X13: in every run, what a new subscriber is handed first is the
    current manifest list through its filter: the same list that [filter]
    returns for the same predicate, and the whole list without one.
    Before there is a list, [filter] throws and a subscriber gets the
    empty list. *)
Theorem subscriber_gets_current_list (es : list Event) (fn : Manifest → bool) :
  match bundlesList (run es new) with
  | Some list =>
    Tool.filter fn (run es new) = (inr (List.filter fn list), run es new) ∧
    Tool.subscribe (Some fn) (run es new) = Some (List.filter fn list) ∧
    Tool.subscribe None (run es new) = Some list
  | None =>
    (∃ msg, (Tool.filter fn (run es new)).1 = inl (Err TypeError msg)) ∧
    Tool.subscribe (Some fn) (run es new) = Some [] ∧
    Tool.subscribe None (run es new) = Some []
  end.
Proof.
  pose proof (stream_follows_list es new eq_refl) as H.
  unfold Tool.filter, Tool.subscribe. rewrite H.
  destruct (bundlesList (run es new)) as [list|]; simpl.
  - by rewrite filter_all.
  - split; [by eexists|done].
Qed.

(** ** What the caches keep *)

Lemma cache_step_cases (t : ModuleLoaderTool) (e : Event) :
  bundlesCache (step t e) = bundlesCache t ∨
  ∃ n cm, bundlesCache (step t e) = <[n := cm]> (bundlesCache t).
Proof.
  destruct e; simpl; try by left.
  - unfold init_call, bind, startupCheck.
    destruct (urlFormatter t); [|by left]. destruct (entrypoint t); by left.
  - unfold then_manifests.
    destruct (calls t !! call) as [[]|]; try by left.
    destruct parsed; [by left|]. destruct (entrypoint t); by left.
  - unfold then_listed.
    destruct (calls t !! call) as [[]|]; try by left.
    destruct (bulk_frame call BLOCK t) as (_&_&E&_). by left.
  - unfold then_start.
    destruct (calls t !! call) as [[| |r| | | |]|]; try by left. destruct r; by left.
  - unfold then_runner.
    destruct (calls t !! call) as [[]|]; try by left.
    destruct o; [|by left].
    destruct (bulk_frame call IMMEDIATELY (emit t [RunnerFulfilled call])) as (_&_&E&_).
    by left.
  - unfold then_all.
    destruct (calls t !! call) as [[]|]; try by left.
    destruct (rejection _ _); [by left|]. destruct (fulfilments _ _); by left.
  - unfold loadBundleByName.
    destruct (bundlesList t); [|by left]. destruct (find _ _) as [m|]; [|by left].
    destruct (loadBundleByManifest_frame m t) as (_&_&E&_). by left.
  - unfold then_preprocessors.
    destruct (tasks t !! loader) as [[[]| |]|]; try by left. destruct o; by left.
  - unfold then_fetched.
    destruct (tasks t !! loader) as [[[]| |]|]; try by left.
    destruct (fetchBundleSource f); [by left|].
    simpl. destruct (compileSource _ _ _); [by left|]. right. by eexists _, _.
  - unfold then_postprocessors.
    destruct (tasks t !! loader) as [[[]| |]|]; try by left. destruct o; by left.
  - unfold manuallyDefineBundle.
    destruct (bundlesList t); [|by left].
    destruct (start (exports bundle)); simpl.
    all: destruct (bundlesCache t !! name manifest); simpl; [by left|].
    all: right; by eexists _, _.
Qed.

(** X14: a bundle that is loaded stays loaded: from any state and through
    any events, [isBundleLoaded] never goes back from [true] to [false];
    an entry of the compiled cache is replaced at most, never removed. *)
Theorem loaded_bundle_stays_loaded (es : list Event) (t : ModuleLoaderTool) (n : string) :
  isBundleLoaded n t = true → isBundleLoaded n (run es t) = true.
Proof.
  revert t. induction es as [|e es IH]; intros t H; [done|].
  apply IH. unfold isBundleLoaded in *.
  apply bool_decide_eq_true in H. apply bool_decide_eq_true.
  destruct H as [H|H]; [left|by right].
  destruct (cache_step_cases t e) as [->|(k & cm & ->)]; [done|].
  apply lookup_insert_is_Some. destruct (decide (k = n)); auto.
Qed.

Lemma loaded_bundle_stays_loaded_witness :
  isBundleLoaded "c" postprocessing_c = true ∧
  isBundleLoaded "c"
    (run [ThenPostprocessors 0 (Failed Other); ManuallyDefineBundle bundle_c module_a]
       postprocessing_c) = true.
Proof.
  split; [reflexivity|].
  apply (loaded_bundle_stays_loaded
           [ThenPostprocessors 0 (Failed Other); ManuallyDefineBundle bundle_c module_a]
           postprocessing_c "c").
  reflexivity.
Defined.

(** X15: the in-flight cache is never cleared and a settled task never
    changes: from any state and through any events, the task registered
    for a name stays registered for it, whether it is pending, resolved or
    rejected, so that no later request for the name starts a load again;
    and once the task has settled it keeps its outcome. *)
Theorem registered_task_is_permanent (es : list Event) (t : ModuleLoaderTool)
    (n : string) (p : nat) :
  loadersCache t !! n = Some p →
  loadersCache (run es t) !! n = Some p ∧
  ∀ x : Task, tasks t !! p = Some x → (∀ s, x ≠ Loading s) →
              tasks (run es t) !! p = Some x.
Proof.
  intros Hl. destruct (grows_run es t) as (G1 & G2 & _). split; [auto|].
  intros x Hp Hx. auto.
Qed.

(** The load of [c] is registered and pending; its preprocessors then
    fail, and [c] is requested again. *)
Lemma registered_task_is_permanent_witness :
  loadersCache (run (configure ++ [LoadBundleByName "c"]) new) !! "c" = Some 0 ∧
  loadersCache (run [ThenPreprocessors 0 (Failed Undefined); LoadBundleByName "c"]
                  (run (configure ++ [LoadBundleByName "c"]) new)) !! "c" = Some 0 ∧
  ∀ x : Task,
    tasks (run (configure ++ [LoadBundleByName "c"]) new) !! 0 = Some x →
    (∀ s, x ≠ Loading s) →
    tasks (run [ThenPreprocessors 0 (Failed Undefined); LoadBundleByName "c"]
             (run (configure ++ [LoadBundleByName "c"]) new)) !! 0 = Some x.
Proof.
  split; [reflexivity|].
  apply (registered_task_is_permanent
           [ThenPreprocessors 0 (Failed Undefined); LoadBundleByName "c"]
           (run (configure ++ [LoadBundleByName "c"]) new) "c" 0).
  reflexivity.
Defined.

(** ** Manual definition and loads of the same name *)

(** X16: a manual definition made while a load of the same name is under
    way is silently replaced.  If the name has no module yet, the
    definition succeeds and puts its bundle into the compiled cache; when
    the retrieval then brings a source that compiles, the compiled module
    takes the place of the bundle, without any error and with the load
    going on to its postprocessors. *)
Theorem manual_definition_replaced_by_load (t : ModuleLoaderTool) (p : nat)
    (m : Manifest) (bundle cm : CompiledModule) (list : list Manifest)
    (status : nat) (text : Source) :
  bundlesList t = Some list →
  tasks t !! p = Some (Loading (Fetching m)) →
  bundlesCache t !! name m = None →
  status < 400 →
  compileSource text (dependencies t) (unknownDependencyResolver t) = inr cm →
  (manuallyDefineBundle m bundle t).1 = inr () ∧
  bundlesCache (manuallyDefineBundle m bundle t).2 !! name m = Some bundle ∧
  bundlesCache (then_fetched p (Response status text) (manuallyDefineBundle m bundle t).2)
    !! name m = Some cm ∧
  tasks (then_fetched p (Response status text) (manuallyDefineBundle m bundle t).2) !! p
  = Some (Loading (Postprocessing m cm)).
Proof.
  intros Hbl Hp Hc Hs Hcs. pose proof (lookup_lt_Some _ _ _ Hp) as Hlt.
  unfold manuallyDefineBundle. rewrite Hbl.
  assert (¬ InvalidHttpStatusStart ≤ status) as Hs' by (unfold InvalidHttpStatusStart; lia).
  destruct (start (exports bundle)); simpl; rewrite Hc; simpl.
  all: split; [done|]; split; [apply lookup_insert_eq|].
  all: unfold then_fetched; simpl; rewrite Hp; simpl.
  all: rewrite bool_decide_false by done; simpl; rewrite Hcs; simpl.
  all: split; [apply lookup_insert_eq|by apply list_lookup_insert_eq].
Qed.

Lemma manual_definition_replaced_by_load_witness :
  bundlesList (run (configure ++ [LoadBundleByName "c"; ThenPreprocessors 0 Fulfilled]) new)
  = Some [bundle_a; bundle_b; bundle_c] ∧
  tasks (run (configure ++ [LoadBundleByName "c"; ThenPreprocessors 0 Fulfilled]) new) !! 0
  = Some (Loading (Fetching bundle_c)) ∧
  bundlesCache (run (configure ++ [LoadBundleByName "c"; ThenPreprocessors 0 Fulfilled]) new)
    !! name bundle_c = None ∧
  200 < 400 ∧
  compileSource (Finish (exports module_c))
    (dependencies (run (configure ++ [LoadBundleByName "c"; ThenPreprocessors 0 Fulfilled]) new))
    (unknownDependencyResolver
       (run (configure ++ [LoadBundleByName "c"; ThenPreprocessors 0 Fulfilled]) new))
  = inr module_c ∧
  (manuallyDefineBundle bundle_c module_a
     (run (configure ++ [LoadBundleByName "c"; ThenPreprocessors 0 Fulfilled]) new)).1
  = inr () ∧
  bundlesCache (manuallyDefineBundle bundle_c module_a
     (run (configure ++ [LoadBundleByName "c"; ThenPreprocessors 0 Fulfilled]) new)).2
    !! name bundle_c = Some module_a ∧
  bundlesCache (then_fetched 0 (Response 200 (Finish (exports module_c)))
     (manuallyDefineBundle bundle_c module_a
        (run (configure ++ [LoadBundleByName "c"; ThenPreprocessors 0 Fulfilled]) new)).2)
    !! name bundle_c = Some module_c ∧
  tasks (then_fetched 0 (Response 200 (Finish (exports module_c)))
     (manuallyDefineBundle bundle_c module_a
        (run (configure ++ [LoadBundleByName "c"; ThenPreprocessors 0 Fulfilled]) new)).2)
    !! 0 = Some (Loading (Postprocessing bundle_c module_c)).
Proof.
  split; [reflexivity|]. split; [reflexivity|]. split; [reflexivity|].
  split; [lia|]. split; [reflexivity|].
  apply (manual_definition_replaced_by_load
           (run (configure ++ [LoadBundleByName "c"; ThenPreprocessors 0 Fulfilled]) new)
           0 bundle_c module_a module_c [bundle_a; bundle_b; bundle_c] 200
           (Finish (exports module_c))); [reflexivity|reflexivity|reflexivity|lia|reflexivity].
Defined.

Lemma find_first_of_name (n : string) (list : list Manifest) (m : Manifest) :
  m ∈ list → name m = n →
  ∃ m', List.find (λ x, bool_decide (name x = n)) list = Some m' ∧ name m' = n.
Proof.
  intros Hin Hn. destruct (List.find _ list) as [m'|] eqn:E.
  - exists m'. split; [done|]. apply List.find_some in E as [_ E].
    by apply bool_decide_eq_true in E.
  - apply list_elem_of_In in Hin. pose proof (List.find_none _ _ E m Hin) as H.
    simpl in H. by rewrite bool_decide_true in H.
Qed.

(** X17: a bundle defined by hand under a free name, one that has no
    module in the cache and is none of the names under which the cache
    inherits a value, is served from the cache: the definition succeeds,
    [isBundleLoaded] answers [true], and a request for the name returns a
    task already resolved to the bundle, with no effect at all: no
    preprocessor, no retrieval, no compilation, and no need of a URL
    formatter. *)
Theorem manual_definition_is_served (t : ModuleLoaderTool) (m : Manifest)
    (bundle : CompiledModule) (list : list Manifest) :
  bundlesList t = Some list →
  bundlesCache t !! name m = None →
  name m ∉ object_prototype_names →
  (manuallyDefineBundle m bundle t).1 = inr () ∧
  isBundleLoaded (name m) (manuallyDefineBundle m bundle t).2 = true ∧
  ∃ q t',
    loadBundleByName (name m) (manuallyDefineBundle m bundle t).2 = (inr q, t') ∧
    tasks t' !! q = Some (Resolved (Some bundle)) ∧
    effects t' = effects (manuallyDefineBundle m bundle t).2.
Proof.
  intros Hbl Hc _.
  assert (∃ t1, manuallyDefineBundle m bundle t = (inr (), t1) ∧
                bundlesList t1 = Some (list ++ [m]) ∧
                bundlesCache t1 !! name m = Some bundle) as (t1 & -> & Hbl1 & Hc1).
  { unfold manuallyDefineBundle. rewrite Hbl.
    destruct (start (exports bundle)); simpl; rewrite Hc.
    all: eexists; split; [done|]; simpl; split; [done|apply lookup_insert_eq]. }
  simpl. split; [done|]. split.
  { unfold isBundleLoaded. rewrite Hc1. apply bool_decide_eq_true. left. by eexists. }
  unfold loadBundleByName. rewrite Hbl1.
  destruct (find_first_of_name (name m) (list ++ [m]) m) as (m' & -> & Hn); [|done|].
  { apply elem_of_app. right. apply list_elem_of_here. }
  rewrite <-Hn in Hc1. rewrite (loadBundleByManifest_cached _ _ _ Hc1).
  eexists _, _. split; [done|]. simpl. split; [|done].
  by rewrite lookup_app_r, Nat.sub_diag.
Qed.

Lemma manual_definition_is_served_witness :
  bundlesList (run configure new) = Some [bundle_a; bundle_b; bundle_c] ∧
  bundlesCache (run configure new) !! name bundle_a = None ∧
  (name bundle_a ∉ object_prototype_names) ∧
  (manuallyDefineBundle bundle_a module_a (run configure new)).1 = inr () ∧
  isBundleLoaded (name bundle_a) (manuallyDefineBundle bundle_a module_a (run configure new)).2
  = true ∧
  ∃ q t',
    loadBundleByName (name bundle_a)
      (manuallyDefineBundle bundle_a module_a (run configure new)).2 = (inr q, t') ∧
    tasks t' !! q = Some (Resolved (Some module_a)) ∧
    effects t' = effects (manuallyDefineBundle bundle_a module_a (run configure new)).2.
Proof.
  split; [reflexivity|]. split; [reflexivity|].
  split; [apply (bool_decide_unpack _); by vm_compute|].
  apply (manual_definition_is_served (run configure new) bundle_a module_a
           [bundle_a; bundle_b; bundle_c]);
    [reflexivity|reflexivity|apply (bool_decide_unpack _); by vm_compute].
Defined.

(** ** A pass with a rejected load *)

Lemma rejection_of_member ts loads p r :
  p ∈ loads → ts !! p = Some (Rejected r) → is_Some (rejection ts loads).
Proof.
  unfold rejection. intros Hin Hp.
  induction loads as [|q loads IH]; simpl; [by apply elem_of_nil in Hin|].
  apply elem_of_cons in Hin as [<-|Hin].
  - rewrite Hp. simpl. by eexists.
  - destruct (ts !! q) as [[]|]; simpl; auto.
Qed.

(** X18: one rejected load ends its pass for all.  When any task among
    the loads of a bulk pass is rejected, the callback of the pass never
    runs: the pass is aborted and no [start] entry point is called, also
    not of the modules that the other loads of the pass resolved to. *)
Theorem rejected_load_aborts_pass (t : ModuleLoaderTool) (call p : nat)
    (loads : list nat) (r : Thrown) :
  calls t !! call = Some (BulkWaiting loads) →
  p ∈ loads →
  tasks t !! p = Some (Rejected r) →
  calls (then_all call t) !! call = Some Aborted ∧
  effects (then_all call t) = effects t.
Proof.
  intros Hc Hin Hp. unfold then_all. rewrite Hc.
  destruct (rejection_of_member _ _ _ _ Hin Hp) as [r' ->]. simpl.
  split; [|done]. apply list_lookup_insert_eq. by eapply lookup_lt_Some.
Qed.

Lemma rejected_load_aborts_pass_witness :
  calls (run (configure ++ [ThenListed 0; ThenPreprocessors 0 (Failed Undefined)]) new) !! 0
  = Some (BulkWaiting [0]) ∧
  0 ∈ [0] ∧
  tasks (run (configure ++ [ThenListed 0; ThenPreprocessors 0 (Failed Undefined)]) new) !! 0
  = Some (Rejected (Err TypeError "Cannot read property 'message' of undefined")) ∧
  calls (then_all 0
           (run (configure ++ [ThenListed 0; ThenPreprocessors 0 (Failed Undefined)]) new)) !! 0
  = Some Aborted ∧
  effects (then_all 0
             (run (configure ++ [ThenListed 0; ThenPreprocessors 0 (Failed Undefined)]) new))
  = effects (run (configure ++ [ThenListed 0; ThenPreprocessors 0 (Failed Undefined)]) new).
Proof.
  split; [reflexivity|]. split; [apply list_elem_of_here|]. split; [reflexivity|].
  apply (rejected_load_aborts_pass
           (run (configure ++ [ThenListed 0; ThenPreprocessors 0 (Failed Undefined)]) new)
           0 0 [0] (Err TypeError "Cannot read property 'message' of undefined"));
    [reflexivity|apply list_elem_of_here|reflexivity].
Defined.

Lemma fulfilments_members ts loads bundles p :
  fulfilments ts loads = Some bundles → p ∈ loads → ∃ v, ts !! p = Some (Resolved v).
Proof.
  unfold fulfilments. revert bundles.
  induction loads as [|q loads IH]; intros bundles H Hin; [by apply elem_of_nil in Hin|].
  rewrite mapM_Some in H. apply Forall2_cons_inv_l in H as (v & vs & Hq & Hrest & ->).
  apply elem_of_cons in Hin as [->|Hin].
  - destruct (ts !! q) as [[]|]; try done. by eexists.
  - apply (IH vs); [|done]. by apply mapM_Some.
Qed.

(** X19: a bulk pass completes only when every one of its loads has
    resolved: if the callback of a waiting pass leaves it completed, then
    each task of the pass was resolved, to a module or to none, when the
    callback ran.  So the task of [init] is not fulfilled while a [BLOCK]
    load is pending. *)
Theorem pass_completes_after_all_loads (t : ModuleLoaderTool) (call p : nat)
    (loads : list nat) :
  calls t !! call = Some (BulkWaiting loads) →
  calls (then_all call t) !! call = Some Completed →
  p ∈ loads →
  ∃ v, tasks t !! p = Some (Resolved v).
Proof.
  intros Hc Hdone Hin. unfold then_all in Hdone. rewrite Hc in Hdone.
  destruct (rejection _ _).
  { simpl in Hdone. apply list_lookup_insert_Some in Hdone as [(_ & ? & _)|[? _]]; done. }
  destruct (fulfilments (tasks t) loads) as [bundles|] eqn:Hf.
  - by eapply fulfilments_members.
  - congruence.
Qed.

Lemma pass_completes_after_all_loads_witness :
  calls (run (configure ++ [ThenListed 0; ThenPreprocessors 0 (Failed Other)]) new) !! 0
  = Some (BulkWaiting [0]) ∧
  calls (then_all 0
           (run (configure ++ [ThenListed 0; ThenPreprocessors 0 (Failed Other)]) new)) !! 0
  = Some Completed ∧
  0 ∈ [0] ∧
  ∃ v, tasks (run (configure ++ [ThenListed 0; ThenPreprocessors 0 (Failed Other)]) new) !! 0
       = Some (Resolved v).
Proof.
  split; [reflexivity|]. split; [reflexivity|]. split; [apply list_elem_of_here|].
  apply (pass_completes_after_all_loads
           (run (configure ++ [ThenListed 0; ThenPreprocessors 0 (Failed Other)]) new)
           0 0 [0]); [reflexivity|reflexivity|apply list_elem_of_here].
Defined.

(** ** Sharing of the task of a load *)

(** C1, amended: in every run the source of a name is retrieved at most
    once and compiled at most once.  And in every state a run can reach
    with a manifest list, a call for a name that has no compiled module
    (and is none of the names under which the cache inherits a value)
    returns a task that is registered for the name when the call returns;
    whatever happens afterwards, as long as no compiled module is cached
    for the name, every further call returns that very task and changes
    nothing, so that all these callers see the one outcome of that task;
    the counts of retrievals and compilations stay within one. *)
Theorem inflight_task_shared (es es' : list Event) (m : Manifest) (n : string) :
  (retrievals n (effects (run es new)) ≤ 1 ∧ compilations n (effects (run es new)) ≤ 1) ∧
  (bundlesList (run es new) ≠ None →
   name m ∉ object_prototype_names →
   bundlesCache (run es new) !! name m = None →
   ∃ p t1,
     loadBundleByManifest m (run es new) = (inr p, t1) ∧
     loadersCache t1 !! name m = Some p ∧
     (retrievals n (effects (run es' t1)) ≤ 1 ∧
      compilations n (effects (run es' t1)) ≤ 1) ∧
     (bundlesCache (run es' t1) !! name m = None →
      loadBundleByManifest m (run es' t1) = (inr p, run es' t1))).
Proof.
  pose proof (Inv_run es new Consistent_new) as C.
  pose proof (Counts_run es new Consistent_new Counts_new) as K.
  split; [apply K|].
  intros Hbl _ Hc.
  destruct (listed_is_configured es Hbl) as [[formatter Hf] _].
  pose proof (Inv_loadBundleByManifest m _ C Hbl) as C1.
  pose proof (Counts_loadBundleByManifest m _ K) as K1.
  destruct (loadBundleByManifest m (run es new)) as [[v|p] t1] eqn:E.
  { unfold loadBundleByManifest in E. rewrite Hc, Hf in E.
    by destruct (loadersCache (run es new) !! name m). }
  simpl in C1, K1. exists p, t1. split; [done|].
  pose proof (loadBundleByManifest_registers m _ p t1 Hc E) as Hl.
  split; [done|]. split; [apply (Counts_run es' t1 C1 K1)|].
  intros Hc'. apply loadBundleByManifest_inflight; [done|].
  destruct (grows_run es' t1) as (G1 & _). by apply G1.
Qed.

(** The first call for [c] after the list is there, then the preprocessors
    of [c] let the load go on. *)
Lemma inflight_task_shared_witness :
  bundlesList (run configure new) ≠ None ∧
  (name bundle_c ∉ object_prototype_names) ∧
  bundlesCache (run configure new) !! name bundle_c = None ∧
  ∃ p t1,
    loadBundleByManifest bundle_c (run configure new) = (inr p, t1) ∧
    loadersCache t1 !! name bundle_c = Some p ∧
    (retrievals "c" (effects (run [ThenPreprocessors 0 Fulfilled] t1)) ≤ 1 ∧
     compilations "c" (effects (run [ThenPreprocessors 0 Fulfilled] t1)) ≤ 1) ∧
    (bundlesCache (run [ThenPreprocessors 0 Fulfilled] t1) !! name bundle_c = None →
     loadBundleByManifest bundle_c (run [ThenPreprocessors 0 Fulfilled] t1)
     = (inr p, run [ThenPreprocessors 0 Fulfilled] t1)).
Proof.
  split; [done|].
  split; [apply (bool_decide_unpack _); by vm_compute|]. split; [reflexivity|].
  apply (inflight_task_shared configure [ThenPreprocessors 0 Fulfilled] bundle_c "c");
    [done|apply (bool_decide_unpack _); by vm_compute|reflexivity].
Defined.

(** ** The loads that a call of start begins *)

(** C6: of all that a call of [start] does, only the callback that runs
    once what the runner returned is fulfilled begins a load.  In every
    run, if the call of [start], the callback that calls the runner or the
    callback after the runner calls the preprocessors of a bundle, then it
    is the callback after the runner, with the runner's task fulfilled;
    the runner of that call has been called before and its fulfilment was
    not seen before; and the bundle is an [IMMEDIATELY] manifest of the
    list, loaded by the pass that the callback begins. *)
Theorem runner_settles_before_immediate_pass (es : list Event) (e : Event)
    (l : list Effect) (n : string) :
  of_start e →
  effects (step (run es new) e) = effects (run es new) ++ l →
  RunPreprocessors n ∈ l →
  ∃ call,
    e = ThenRunner call Fulfilled ∧
    calls (run es new) !! call = Some StartRunning ∧
    (RunnerCalled call ∈ effects (run es new)) ∧
    (RunnerFulfilled call ∉ effects (run es new)) ∧
    (BulkLoad call IMMEDIATELY ∉ effects (run es new)) ∧
    (∃ l', l = RunnerFulfilled call :: BulkLoad call IMMEDIATELY :: l') ∧
    ∃ list m, bundlesList (run es new) = Some list ∧ m ∈ list ∧
              loadStrategy m = IMMEDIATELY ∧ name m = n.
Proof.
  intros He E Hn.
  pose proof (Ordered_run es new Ordered_new) as O.
  set (t := run es new) in *.
  assert (effects t = effects t ++ l → False) as Hsame.
  { intros H. rewrite <-(app_nil_r (effects t)) in H at 1.
    apply app_inv_head in H as <-. by apply elem_of_nil in Hn. }
  destruct e; try done; simpl in E.
  - exfalso. unfold then_start in E.
    destruct (calls t !! call) as [[| |rn| | | |]|]; try exact (Hsame E).
    assert (effects t ++ [RunnerCalled call] = effects t ++ l) as H by (by destruct rn).
    apply app_inv_head in H as <-. by apply list_elem_of_singleton in Hn.
  - unfold then_runner in E.
    destruct (calls t !! call) as [[| | |  | | |]|] eqn:Hc.
    4: { destruct o as [|reason].
         - destruct (bulk_effects (emit t [RunnerFulfilled call]) call IMMEDIATELY)
             as (l' & E' & Hl').
           rewrite E' in E. simpl in E. rewrite <-app_assoc in E. simpl in E.
           apply app_inv_head in E as <-.
           destruct (O call) as [_ Hph]. rewrite Hc in Hph.
           destruct Hph as (H1 & H2 & H3).
           exists call. split_and!; try done; [by exists l'|].
           apply elem_of_cons in Hn as [?|Hn]; [done|].
           apply elem_of_cons in Hn as [?|Hn]; [done|].
           destruct (Hl' _ Hn) as (list & m & Hbl & Hm & Hs & [= ->]).
           by exists list, m.
         - destruct (Hsame E). }
    all: destruct (Hsame E).
Qed.

(** The call of [start], its runner, and the fulfilment of what the runner
    returned: the callback begins the load of [b]. *)
Lemma runner_settles_before_immediate_pass_witness :
  of_start (ThenRunner 1 Fulfilled) ∧
  effects (step (run (configure ++ [Start RunnerReturns; ThenStart 1]) new)
             (ThenRunner 1 Fulfilled))
  = effects (run (configure ++ [Start RunnerReturns; ThenStart 1]) new)
    ++ [RunnerFulfilled 1; BulkLoad 1 IMMEDIATELY; RunPreprocessors "b"] ∧
  (RunPreprocessors "b"
     ∈ [RunnerFulfilled 1; BulkLoad 1 IMMEDIATELY; RunPreprocessors "b"]) ∧
  ∃ call,
    ThenRunner 1 Fulfilled = ThenRunner call Fulfilled ∧
    calls (run (configure ++ [Start RunnerReturns; ThenStart 1]) new) !! call
    = Some StartRunning ∧
    (RunnerCalled call ∈ effects (run (configure ++ [Start RunnerReturns; ThenStart 1]) new)) ∧
    (RunnerFulfilled call
       ∉ effects (run (configure ++ [Start RunnerReturns; ThenStart 1]) new)) ∧
    (BulkLoad call IMMEDIATELY
       ∉ effects (run (configure ++ [Start RunnerReturns; ThenStart 1]) new)) ∧
    (∃ l', [RunnerFulfilled 1; BulkLoad 1 IMMEDIATELY; RunPreprocessors "b"]
           = RunnerFulfilled call :: BulkLoad call IMMEDIATELY :: l') ∧
    ∃ list m,
      bundlesList (run (configure ++ [Start RunnerReturns; ThenStart 1]) new) = Some list ∧
      m ∈ list ∧ loadStrategy m = IMMEDIATELY ∧ name m = "b".
Proof.
  split; [exact I|]. split; [reflexivity|].
  split; [do 2 apply list_elem_of_further; apply list_elem_of_here|].
  apply (runner_settles_before_immediate_pass
           (configure ++ [Start RunnerReturns; ThenStart 1]) (ThenRunner 1 Fulfilled)
           [RunnerFulfilled 1; BulkLoad 1 IMMEDIATELY; RunPreprocessors "b"] "b");
    [exact I|reflexivity|do 2 apply list_elem_of_further; apply list_elem_of_here].
Defined.
